(** * Build recipes of the cp2k, fftw and vasp packages

    A shallow embedding of the three package recipes
    [var/spack/repos/builtin/packages/{cp2k,fftw,vasp}/package.py] and the
    properties of the flag sets, makefile fragments and invocation plans
    they produce. *)

From stdpp Require Import base strings list gmap fin_maps.
From Stdlib Require Import Ascii DecimalString.

(** ** Python built-ins used by the recipes *)

Module Py.

(** The exceptions the recipes can raise, with their argument. *)
Inductive exn : Type :=
| KeyError (key : string)
| IOError (msg : string)
| OSError (msg : string)
| InstallError (msg : string)
| ProcessError (msg : string).

(** A computation that either raises or returns. *)
Definition result (A : Type) : Type := exn + A.

Definition raise {A} (e : exn) : result A := inl e.

#[export] Instance result_ret : MRet result := fun A a => inr a.
#[export] Instance result_bind : MBind result := fun A B k m =>
  match m with
  | inl e => inl e
  | inr a => k a
  end.

(** The line feed, ['\n']. *)
Definition nl : string := String "010"%char "".

(** [sep.join(l)] *)
Fixpoint join (sep : string) (l : list string) : string :=
  match l with
  | [] => ""
  | [x] => x
  | x :: l' => x +:+ sep +:+ join sep l'
  end.

(** [needle in hay] on strings: substring test. *)
Fixpoint str_in (needle hay : string) : bool :=
  String.prefix needle hay ||
  match hay with
  | EmptyString => false
  | String _ hay' => str_in needle hay'
  end.

(** [s.split(sep)] for a separator of one character. *)
Fixpoint str_split (sep : ascii) (s : string) : list string :=
  match s with
  | EmptyString => [""]
  | String c s' =>
      if Ascii.eqb c sep then "" :: str_split sep s'
      else match str_split sep s' with
           | [] => [String c ""]
           | x :: l => String c x :: l
           end
  end.

(** [s.startswith(p)] and [s.endswith(p)] *)
Definition startswith (s p : string) : bool := String.prefix p s.
Definition endswith (s p : string) : bool :=
  String.prefix (String.rev p) (String.rev s).

(** [x in l] on a list of strings. *)
Definition list_in (x : string) (l : list string) : bool :=
  existsb (String.eqb x) l.

(** [os.path.join(a, *p)] on POSIX. *)
Definition path_join2 (path b : string) : string :=
  if startswith b "/" then b
  else if (String.eqb path "" || endswith path "/")%bool then path +:+ b
  else path +:+ "/" +:+ b.

Definition join_path (a : string) (p : list string) : string :=
  fold_left path_join2 p a.

(** [str(n)] and [format(n, '02d')] for a non-negative integer. *)
Definition str_of_nat (n : nat) : string :=
  NilEmpty.string_of_uint (Nat.to_uint n).

Definition format_02d (n : nat) : string :=
  if Nat.ltb n 10 then "0" +:+ str_of_nat n else str_of_nat n.

End Py.

Export Py.

(** ** Version constraints *)

(** Modelled from the spec: the [Version] class and the range constraints
    [@lo:] and [@:hi] of the package manager core, which is not part of the
    recipes.  A version is its numeric components together with the string it
    was written as; it has at least a major and a minor component. *)
Record Version : Type := mkVersion {
  vmajor : nat;
  vminor : nat;
  vrest : list nat;
  vstr : string;
}.

Definition vcomponents (v : Version) : list nat :=
  vmajor v :: vminor v :: vrest v.

(** Lexicographic comparison; a proper prefix is smaller. *)
Fixpoint lex_le (a b : list nat) : bool :=
  match a, b with
  | [], _ => true
  | _ :: _, [] => false
  | x :: a', y :: b' =>
      if Nat.ltb x y then true else if Nat.ltb y x then false else lex_le a' b'
  end.

(** [v.satisfies('@lo:')] *)
Definition ver_from (lo : list nat) (v : Version) : bool :=
  lex_le lo (vcomponents v).

(** [v.satisfies('@:hi')]: every version up to [hi], and every version that
    has [hi] as a prefix. *)
Definition ver_upto (hi : list nat) (v : Version) : bool :=
  lex_le (take (length hi) (vcomponents v)) hi.

(** [v.satisfies('@lo:hi')] *)
Definition ver_range (lo hi : list nat) (v : Version) : bool :=
  ver_from lo v && ver_upto hi v.

(** ** Environment modifications and invocation plans *)

(** One external command run by a recipe: the directory it runs in (relative
    to the stage directory, [""] for the stage itself), the command and its
    arguments. *)
Record Invocation : Type := mkInvocation {
  inv_dir : string;
  inv_cmd : string;
  inv_args : list string;
}.

(** ** vasp *)

Module Vasp.

(** Modelled from the spec: [EnvironmentModifications] of the core, the
    object [setup_environment] receives.  It records requests in call
    order; [set(name, value)] records [SetEnv name value]. *)
Inductive EnvMod : Type :=
| SetEnv (name value : string).

Definition EnvironmentModifications : Type := list EnvMod.

Definition env_set (name value : string) (e : EnvironmentModifications)
  : EnvironmentModifications := e ++ [SetEnv name value].

(** Applying the recorded requests to a process environment. *)
Definition apply_mod (env : gmap string string) (m : EnvMod)
  : gmap string string :=
  match m with
  | SetEnv k v => <[k := v]> env
  end.

Definition apply_modifications (e : EnvironmentModifications)
    (env : gmap string string) : gmap string string :=
  fold_left apply_mod e env.

Record Package : Type := mkPackage {
  prefix : string;
}.

(** [setup_environment(self, spack_env, run_env)]; the two objects are
    mutated in place, the model returns them. *)
Definition setup_environment (self : Package)
    (spack_env run_env : EnvironmentModifications)
  : EnvironmentModifications * EnvironmentModifications :=
  let spack_env := env_set "CRAYPE_LINK_TYPE" "static" spack_env in
  let spack_env := env_set "INSTALL_DIR" (prefix self) spack_env in
  (spack_env, run_env).

(** What [install] does: external invocations and files it writes. *)
Record Plan : Type := mkPlan {
  invocations : list Invocation;
  written_files : list (string * string);
}.

(** [install(self, spec, prefix)]: [make('all')] in the stage directory. *)
Definition install (self : Package) : Plan :=
  {| invocations := [mkInvocation "" "make" ["all"]];
     written_files := [] |}.

End Vasp.

(** ** Library lists, compilers and dependencies *)

(** The [LibraryList] of the core is used by the recipes through four
    operations only: the constructor, iteration (by [' '.join(libs)]),
    [__add__] with any sequence of file names, and [search_flags]. *)
Class LibraryList (L : Type) : Type := {
  ll_new : list string → L;
  ll_files : L → list string;
  ll_add_seq : L → list string → L;
  search_flags : L → string;
}.

(** [a + b] for two library lists: [b] is iterated. *)
Definition ll_add {L} `{LibraryList L} (a b : L) : L :=
  ll_add_seq a (ll_files b).

(** What the properties below need of a library list: construction and
    addition neither lose nor invent a file. *)
Class LibraryListLaws (L : Type) `{LibraryList L} : Prop := {
  elem_of_ll_new : ∀ (x : string) (l : list string),
    x ∈ ll_files (ll_new l) ↔ x ∈ l;
  elem_of_ll_add_seq : ∀ (x : string) (a : L) (l : list string),
    x ∈ ll_files (ll_add_seq a l) ↔ x ∈ ll_files a ∨ x ∈ l;
}.

(** Modelled from the spec: the link-library channel of a Flag Set as the
    ordered sequence of file names; addition keeps append order, and keeps
    each file once, at its first position. *)
Module FileList.

Fixpoint dedupe_from (seen l : list string) : list string :=
  match l with
  | [] => []
  | x :: l' =>
      if list_in x seen then dedupe_from seen l'
      else x :: dedupe_from (x :: seen) l'
  end.

Definition dedupe (l : list string) : list string := dedupe_from [] l.

(** [s.rstrip('/')] *)
Fixpoint lstrip_slash (s : string) : string :=
  match s with
  | String "/"%char s' => lstrip_slash s'
  | _ => s
  end.

Definition rstrip_slash (s : string) : string :=
  String.rev (lstrip_slash (String.rev s)).

(** Drops the characters after the last ['/']; [""] without a ['/']. *)
Fixpoint drop_to_slash (r : string) : string :=
  match r with
  | EmptyString => EmptyString
  | String "/"%char _ => r
  | String _ r' => drop_to_slash r'
  end.

(** [os.path.dirname(p)] on POSIX. *)
Definition dirname (p : string) : string :=
  let head := String.rev (drop_to_slash (String.rev p)) in
  if String.eqb (rstrip_slash head) "" then head else rstrip_slash head.

Definition directories (files : list string) : list string :=
  dedupe (filter (λ d, d ≠ "") (dirname <$> files)).

#[global] Instance file_list : LibraryList (list string) := {|
  ll_new := dedupe;
  ll_files := id;
  ll_add_seq := λ a l, dedupe (a ++ l);
  search_flags := λ a, join " " ((λ d, "-L" +:+ d) <$> directories a);
|}.

End FileList.

(** Modelled from the spec: a library list keeps its files in append order,
    and a file named twice stays once, at its first position. *)
Class LibraryListOrder (L : Type) `{LibraryList L} : Prop := {
  ll_files_new : ∀ l : list string,
    ll_files (ll_new l) = FileList.dedupe l;
  ll_files_add_seq : ∀ (a : L) (l : list string),
    ll_files (ll_add_seq a l) = FileList.dedupe (ll_files a ++ l);
}.

(** Modelled from the spec: the search flags of a library list are its
    directories, each after [-L]; they are empty or begin with [-L]. *)
Class LibrarySearchFlags (L : Type) `{LibraryList L} : Prop := {
  search_flags_form : ∀ a : L,
    search_flags a = "" ∨ startswith (search_flags a) "-L" = true;
}.

(** The library list [a] holds the files of [A], in the order of [A]. *)
Definition holds_in_order {L : Type} `{LibraryList L} (a : L)
    (A : list string) : Prop :=
  FileList.dedupe (ll_files a) = FileList.dedupe A.

(** The files of the library list [a] are those of [A]. *)
Definition holds_files_of {L : Type} `{LibraryList L} (a : L)
    (A : list string) : Prop :=
  ∀ f, f ∈ ll_files a ↔ f ∈ A.

(** Modelled from the spec: the selected compiler identity of a Spec and the
    compiler object of a package ([self.compiler]), with what the recipes
    read of them. *)
Record Compiler : Type := mkCompiler {
  cname : string;
  cversion : string;
  cc : string;
  f77 : option string;
  fc : option string;
  openmp_flag : string;
  stdcxx_libs : list string;
}.

(** [not x] for a value that is [None] or a string. *)
Definition py_not (x : option string) : bool :=
  match x with
  | None => true
  | Some s => String.eqb s ""
  end.

(** [str(x)] for a value that is [None] or a string. *)
Definition py_str (x : option string) : string := default "None" x.

(** Modelled from the spec: a dependency Spec as a recipe sees it through
    [spec[query]]: its prefix, its version, its libraries, the header flags
    ([headers.cpp_flags]) and, for an MPI provider, [mpifc]. *)
Record DepView (L : Type) : Type := mkDepView {
  dep_prefix : string;
  dep_version : Version;
  dep_libs : L;
  dep_cpp_flags : string;
  dep_mpifc : string;
}.
Arguments mkDepView {L}.
Arguments dep_prefix {L}.
Arguments dep_version {L}.
Arguments dep_libs {L}.
Arguments dep_cpp_flags {L}.
Arguments dep_mpifc {L}.

(** ** The process state a recipe runs in *)

(** The state of the process: [os.environ], [os.getcwd()] and the file
    system. *)
Record World (FS : Type) : Type := mkWorld {
  env : gmap string string;
  cwd : string;
  fs : FS;
}.
Arguments mkWorld {FS}.
Arguments env {FS}.
Arguments cwd {FS}.
Arguments fs {FS}.

(** The operating system as the recipes use it.  Paths are resolved against
    the working directory given first.  [open_write] is [open(path, 'w')],
    which creates the file or empties it; [write_file] is what the writes to
    the open file leave in it when it is closed.  An external command sees
    the environment and the working directory of the caller and acts on the
    file system only. *)
Class Platform (FS : Type) : Type := {
  isfile : FS → string → bool;
  isdir : FS → string → bool;
  open_write : string → string → FS → result FS;
  write_file : string → string → string → FS → result FS;
  run : string → list string → gmap string string → string → FS → result FS;
  copytree : string → string → string → FS → result FS;
}.

Section Process.
Context {FS : Type} `{Platform FS}.

(** [env[name]] *)
Definition env_getitem (name : string) (w : World FS) : result string :=
  match env w !! name with
  | Some v => mret v
  | None => raise (KeyError name)
  end.

(** [env[name] = value] *)
Definition env_setitem (name value : string) (w : World FS) : World FS :=
  mkWorld (<[name := value]> (env w)) (cwd w) (fs w).

(** [os.chdir(path)] *)
Definition chdir (path : string) (w : World FS) : result (World FS) :=
  let target := path_join2 (cwd w) path in
  if isdir (fs w) target then mret (mkWorld (env w) target (fs w))
  else raise (OSError target).

(** Modelled from the spec: the [working_dir] context manager of the core,
    which runs its body in the given working directory and returns to the
    directory it was entered from. *)
Definition working_dir (dirname : string)
    (body : World FS → result (World FS)) (w : World FS)
  : result (World FS) :=
  let orig_dir := cwd w in
  w ← chdir dirname w;
  w ← body w;
  chdir orig_dir w.

(** An external command, run to completion in the current directory with
    the arguments the recipe passes. *)
Definition call (cmd : string) (args : list string) (w : World FS)
  : result (World FS) :=
  fs' ← run cmd args (env w) (cwd w) (fs w);
  mret (mkWorld (env w) (cwd w) fs').

(** [open(path, 'w')] *)
Definition open_file (path : string) (w : World FS) : result (World FS) :=
  fs' ← open_write (cwd w) path (fs w);
  mret (mkWorld (env w) (cwd w) fs').

(** The [f.write(...)] calls on the file opened at [path], and its closing
    at the end of the [with] block. *)
Definition write_all (path : string) (writes : list string) (w : World FS)
  : result (World FS) :=
  fs' ← write_file (cwd w) path (String.concat "" writes) (fs w);
  mret (mkWorld (env w) (cwd w) fs').

(** [shutil.copytree(src, dst)] *)
Definition copy_tree (src dst : string) (w : World FS)
  : result (World FS) :=
  fs' ← copytree (cwd w) src dst (fs w);
  mret (mkWorld (env w) (cwd w) fs').

End Process.

(** ** fftw *)

Module Fftw.

(** Modelled from the spec: a resolved Spec of fftw, with the selected value
    of each declared variant, and the package object around it. *)
Record Spec : Type := mkSpec {
  version : Version;
  float : bool;
  double : bool;
  long_double : bool;
  quad : bool;
  openmp : bool;
  mpi : bool;
  pfft_patches : bool;
  architecture : string;
  compiler : Compiler;
  last_query_extra_parameters : list string;
}.

Record Package : Type := mkPackage {
  spec : Spec;
  prefix : string;
}.

Section Libs.
Context {L : Type}.
(** [find_libraries(names, root, shared, recurse)] of the core. *)
Variable find_libraries : list string → string → bool → bool → L.

(** The [libs] property. *)
Definition libs (self : Package) : L :=
  let shared :=
    if list_in "static" (last_query_extra_parameters (spec self))
    then false else true in
  let result := find_libraries ["libfftw3"] (prefix self) shared true in
  result.
End Libs.

(** [autoreconf(self, spec, prefix)] *)
Definition autoreconf (self : Package) : list Invocation :=
  if pfft_patches (spec self)
  then [mkInvocation "" "autoreconf" ["-ifv"]]
  else [].

Definition apple_clang_msg : string := "Apple's clang does not support OpenMP".

(** The option list [configure] builds before it fans out. *)
Definition configure_options (self : Package) : result (list string) :=
  let spec := spec self in
  let options :=
    ["--prefix=" +:+ prefix self; "--enable-shared"; "--enable-threads"] in
  let options :=
    if py_not (f77 (compiler spec)) || py_not (fc (compiler spec))
    then options ++ ["--disable-fortran"] else options in
  let options :=
    if ver_upto [2] (version spec)
    then options ++ ["--enable-type-prefix"] else options in
  options ←
    (if openmp spec then
       _ ← (if String.eqb (cname (compiler spec)) "clang"
               && endswith (cversion (compiler spec)) "-apple"
            then raise (InstallError apple_clang_msg)
            else mret ());
       let options := options ++ ["--enable-openmp"] in
       let options :=
         if ver_upto [2] (version spec)
         then ("CFLAGS=" +:+ openmp_flag (compiler spec)) :: options
         else options in
       mret options
     else mret options);
  let options :=
    if mpi spec then options ++ ["--enable-mpi"] else options in
  mret options.

(** [configure(self, spec, prefix)]: the invocations of [../configure], each
    in the directory [working_dir] creates for it ([create=True]). *)
Definition configure (self : Package) : result (list Invocation) :=
  let spec := spec self in
  options ← configure_options self;
  let float_options := [] in
  let double_options := [] in
  let simd :=
    str_in "x86_64" (architecture spec) && ver_from [3] (version spec) in
  let float_options :=
    if simd then float_options ++ ["--enable-sse2"] else float_options in
  let double_options :=
    if simd then double_options ++ ["--enable-sse2"] else double_options in
  let configure := "../configure" in
  mret (
    (if double spec
     then [mkInvocation "double" configure (options ++ double_options)]
     else []) ++
    (if float spec
     then [mkInvocation "float" configure
             ("--enable-float" :: options ++ float_options)]
     else []) ++
    (if ver_from [3] (version spec) && long_double spec
     then [mkInvocation "long-double" configure
             ("--enable-long-double" :: options)]
     else []) ++
    (if ver_from [3] (version spec) && quad spec
     then [mkInvocation "quad" configure
             ("--enable-quad-precision" :: options)]
     else [])).

Section Phases.
Context {FS : Type} `{Platform FS}.

(** The shared shape of [build], [check] and [install]: for each selected
    precision, [make] with the given arguments inside the directory of the
    precision, which [working_dir] enters without creating it. *)
Definition make_each (self : Package) (args : list string) (w : World FS)
  : result (World FS) :=
  let spec := spec self in
  w ← (if double spec
       then working_dir "double" (call "make" args) w else mret w);
  w ← (if float spec
       then working_dir "float" (call "make" args) w else mret w);
  w ← (if long_double spec
       then working_dir "long-double" (call "make" args) w else mret w);
  (if quad spec then working_dir "quad" (call "make" args) w else mret w).

(** [build(self, spec, prefix)] *)
Definition build (self : Package) (w : World FS) : result (World FS) :=
  make_each self [] w.

(** [check(self)] *)
Definition check (self : Package) (w : World FS) : result (World FS) :=
  make_each self ["check"] w.

(** [install(self, spec, prefix)] *)
Definition install (self : Package) (w : World FS) : result (World FS) :=
  make_each self ["install"] w.
End Phases.

End Fftw.

(** ** cp2k *)

Module Cp2k.

Inductive Smm : Type := libxsmm | libsmm | none.

(** Modelled from the spec: a resolved Spec, with the selected value of
    each declared variant, the compiler, the dependencies by query
    ([spec[query]]) and the constraints the resolved dependency graph
    satisfies ([dag_contains], for ['^intel-mkl'], ['^mpi@3:'],
    ['superlu-dist@4.3'], ['wannier90'] and the like). *)
Record Spec (L : Type) : Type := mkSpec {
  architecture : string;
  version : Version;
  compiler : Compiler;
  static : bool;
  mpi : bool;
  smm : Smm;
  plumed : bool;
  getitem : string → DepView L;
  dag_contains : string → bool;
}.
Arguments mkSpec {L}.
Arguments architecture {L}.
Arguments version {L}.
Arguments compiler {L}.
Arguments static {L}.
Arguments mpi {L}.
Arguments smm {L}.
Arguments plumed {L}.
Arguments getitem {L}.
Arguments dag_contains {L}.

(** Modelled from the spec: [constraint in spec].  A variant or compiler
    constraint is a typed lookup of the selected value on the Spec; any
    other constraint is answered by the dependency graph. *)
Definition contains {L} (constraint : string) (spec : Spec L) : bool :=
  if String.eqb constraint "+static" then static spec
  else if String.eqb constraint "~static" then negb (static spec)
  else if String.eqb constraint "+mpi" then mpi spec
  else if String.eqb constraint "~mpi" then negb (mpi spec)
  else if String.eqb constraint "smm=libxsmm"
    then match smm spec with libxsmm => true | _ => false end
  else if String.eqb constraint "smm=libsmm"
    then match smm spec with libsmm => true | _ => false end
  else if String.eqb constraint "smm=none"
    then match smm spec with none => true | _ => false end
  else if String.eqb constraint "+plumed" then plumed spec
  else if String.eqb constraint "~plumed" then negb (plumed spec)
  else if String.eqb constraint "%intel"
    then String.eqb (cname (compiler spec)) "intel"
  else if String.eqb constraint "%gcc"
    then String.eqb (cname (compiler spec)) "gcc"
  else dag_contains spec constraint.

Record Package (L : Type) : Type := mkPackage {
  spec : Spec L;
  prefix : string;
}.
Arguments mkPackage {L}.
Arguments spec {L}.
Arguments prefix {L}.

(** [prefix.name] *)
Definition prefix_attr (prefix name : string) : string :=
  join_path prefix [name].

(** The flag set under construction and the writes to the makefile. *)
Record Locals (L : Type) : Type := mkLocals {
  dflags : list string;
  cppflags : list string;
  cflags : list string;
  cxxflags : list string;
  fcflags : list string;
  ldflags : list string;
  libs : L;
  mkf : list string;
}.
Arguments mkLocals {L}.
Arguments dflags {L}.
Arguments cppflags {L}.
Arguments cflags {L}.
Arguments cxxflags {L}.
Arguments fcflags {L}.
Arguments ldflags {L}.
Arguments libs {L}.
Arguments mkf {L}.

(** What the makefile stage hands on. *)
Record Fragment (L : Type) : Type := mkFragment {
  makefile : string;
  cp2k_architecture : string;
  cp2k_version : string;
  locals : Locals L;
}.
Arguments mkFragment {L}.
Arguments makefile {L}.
Arguments cp2k_architecture {L}.
Arguments cp2k_version {L}.
Arguments locals {L}.

Definition libsmm_unset_msg : string :=
  "Point environment variable LIBSMM_PATH to the absolute path of the libsmm.a file".
Definition libsmm_missing_msg : string :=
  "The file LIBSMM_PATH pointed to does not exist. Note that it must be absolute path.".

(** The [optflags] dictionary. *)
Definition optflags : gmap string (list string) :=
  <["gcc" := ["-O2"; "-mtune=native"; "-funroll-loops"; "-ffast-math";
              "-ftree-vectorize"]]>
  (<["intel" := ["-O2"; "-ip"; "-pc64"; "-unroll"]]> ∅).

(** [d[key]] *)
Definition dict_getitem {V} (d : gmap string V) (key : string) : result V :=
  match d !! key with
  | Some v => mret v
  | None => raise (KeyError key)
  end.

Section Recipe.
Context {L : Type} `{LibraryList L}.
Variable self : Package L.

(** [with_static(self, query)] *)
Definition with_static (query : string) : string :=
  if contains "~static" (spec self) then query
  else if str_in ":" query then query +:+ ",static"
  else query +:+ ":static".

(** The dependencies read once and used in several places. *)
Definition fftw : DepView L := getitem (spec self) (with_static "fftw").
Definition libxc : DepView L :=
  getitem (spec self) (with_static "libxc:fortran").
Definition lapack : L := dep_libs (getitem (spec self) (with_static "lapack")).
Definition blas : L := dep_libs (getitem (spec self) (with_static "blas")).

(** Lines 111-163: the flags that do not depend on a variant. *)
Definition base_block : result (Locals L) :=
  let spec := spec self in
  let dflags :=
    ["-D__DATA_DIR=" +:+ prefix_attr (prefix self) "data"; "-DNDEBUG";
     "-D__FFTW3"; "-D__LIBINT"; "-D__LIBINT_MAX_AM=6";
     "-D__LIBDERIV_MAX_AM1=5"; "-D__LIBXC"] in
  let dflags :=
    if contains "^intel-mkl" spec then dflags ++ ["-D__FFTSG"]
    else dflags in
  let cppflags := [] in
  cflags ← dict_getitem optflags (cname (compiler spec));
  cxxflags ← dict_getitem optflags (cname (compiler spec));
  fcflags ← dict_getitem optflags (cname (compiler spec));
  let '(dflags, cflags, cxxflags, fcflags) :=
    if contains "%intel" spec then
      (dflags ++ ["-D__INTEL"; "-D__HAS_ISO_C_BINDING";
                  "-D__USE_CP2K_TRACE"; "-D__MKL"],
       cflags ++ ["-fp-model precise"],
       cxxflags ++ ["-fp-model precise"],
       fcflags ++ ["-fp-model source"; "-heap-arrays 64";
                   "-diag-disable 8290,8291,10010,10212,11060";
                   "-free"; "-fpp"])
    else if contains "%gcc" spec then
      (dflags, cflags, cxxflags,
       fcflags ++ ["-ffree-form"; "-ffree-line-length-none"])
    else (dflags, cflags, cxxflags, fcflags) in
  let fcflags :=
    fcflags ++ [dep_cpp_flags fftw; dep_cpp_flags libxc] in
  let fftw := dep_libs fftw in
  let libxc := dep_libs libxc in
  let ldflags :=
    [search_flags (ll_add (ll_add (ll_add fftw lapack) blas) libxc)] in
  let libs := dep_libs (getitem spec (with_static "libint")) in
  mret (mkLocals dflags cppflags cflags cxxflags fcflags ldflags libs []).

(** ['elpa-{0}'.format(str(elpa.version))] under [elpa.prefix/include] *)
Definition elpa_include (elpa : DepView L) (leaf : string) : string :=
  join_path (dep_prefix elpa)
    ["include"; "elpa-" +:+ vstr (dep_version elpa); leaf].

(** Lines 166-229: MPI. *)
Definition mpi_block (l : Locals L) : Locals L :=
  let spec := spec self in
  if contains "+mpi" spec then
    let dflags := dflags l in
    let fcflags := fcflags l in
    let ldflags := ldflags l in
    let libs := libs l in
    let dflags :=
      if contains "^mpi@3:" spec then dflags ++ ["-D__MPI_VERSION=3"]
      else if contains "^mpi@2:" spec then dflags ++ ["-D__MPI_VERSION=2"]
      else dflags in
    let dflags :=
      dflags ++ ["-D__parallel"; "-D__LIBPEXSI"; "-D__SCALAPACK"] in
    let elpa := getitem spec (with_static "elpa") in
    let '(dflags, fcflags) :=
      if ver_upto [4; 999] (version spec) then
        if ver_upto [2014; 5; 999] (dep_version elpa)
        then (dflags ++ ["-D__ELPA"], fcflags)
        else if ver_range [2014; 6] [2015; 10; 999] (dep_version elpa)
        then (dflags ++ ["-D__ELPA2"], fcflags)
        else (dflags ++ ["-D__ELPA3"], fcflags)
      else
        (dflags ++ ["-D__ELPA=" +:+ str_of_nat (vmajor (dep_version elpa))
                      +:+ format_02d (vminor (dep_version elpa))],
         fcflags ++ ["-I" +:+ elpa_include elpa "elpa"]) in
    let pexsi := getitem spec "pexsi" in
    let fcflags :=
      fcflags ++ ["-I" +:+ elpa_include elpa "modules";
                  "-I" +:+ join_path (dep_prefix pexsi) ["fortran"]] in
    let scalapack := dep_libs (getitem spec (with_static "scalapack")) in
    let ldflags := ldflags ++ [search_flags scalapack] in
    let libs :=
      ll_add libs
        (ll_add_seq
          (ll_add (ll_add (ll_add (ll_add (ll_add (ll_add
             (dep_libs elpa)
             (dep_libs pexsi))
             (dep_libs (getitem spec "superlu-dist")))
             (dep_libs (getitem spec "parmetis")))
             (dep_libs (getitem spec "metis")))
             scalapack)
             (dep_libs (getitem spec (with_static "mpi:cxx"))))
          (stdcxx_libs (compiler spec))) in
    let ldflags :=
      if contains "superlu-dist@4.3" spec
      then ["-Wl,--allow-multiple-definition"] ++ ldflags
      else ldflags in
    let '(dflags, libs) :=
      if contains "wannier90" spec then
        let wannier :=
          join_path
            (prefix_attr (dep_prefix (getitem spec "wannier90")) "lib")
            ["libwannier.a"] in
        (dflags ++ ["-D__WANNIER90"], ll_add libs (ll_new [wannier]))
      else (dflags, libs) in
    mkLocals dflags (cppflags l) (cflags l) (cxxflags l) fcflags ldflags
      libs (mkf l)
  else l.

(** Lines 231-250: the library for small matrix multiplications. *)
Definition smm_block (environ : gmap string string)
    (os_path_isfile : string → bool) (l : Locals L) : result (Locals L) :=
  let spec := spec self in
  if contains "smm=libsmm" spec then
    libsmm_path ←
      match environ !! "LIBSMM_PATH" with
      | Some p => mret p
      | None => raise (KeyError libsmm_unset_msg)
      end;
    _ ← (if negb (os_path_isfile libsmm_path)
         then raise (IOError libsmm_missing_msg) else mret ());
    let dflags := dflags l ++ ["-D__HAS_smm_dnn"; "-D__HAS_smm_vec"] in
    let libs := ll_add (libs l) (ll_new [libsmm_path]) in
    mret (mkLocals dflags (cppflags l) (cflags l) (cxxflags l) (fcflags l)
            (ldflags l) libs (mkf l))
  else if contains "smm=libxsmm" spec then
    let dflags := dflags l ++ ["-D__LIBXSMM"] in
    let fcflags :=
      fcflags l ++ [dep_cpp_flags (getitem spec "libxsmm")] in
    let libxsmm := dep_libs (getitem spec "libxsmm") in
    let ldflags := ldflags l ++ [search_flags libxsmm] in
    let libs := ll_add (libs l) libxsmm in
    mret (mkLocals dflags (cppflags l) (cflags l) (cxxflags l) fcflags
            ldflags libs (mkf l))
  else mret l.

(** Lines 252-264: PLUMED. *)
Definition plumed_block (l : Locals L) : Locals L :=
  let spec := spec self in
  if contains "+plumed" spec then
    let plumed := getitem spec "plumed" in
    let mkf :=
      mkf l ++
      ["include " +:+
         join_path (prefix_attr (dep_prefix plumed) "lib")
           ["plumed"; "src"; "lib"; "Plumed.inc"] +:+ nl +:+ nl] in
    let dflags := dflags l ++ ["-D__PLUMED2"] in
    let libs := ll_add (libs l) (dep_libs plumed) in
    mkLocals dflags (cppflags l) (cflags l) (cxxflags l) (fcflags l)
      (ldflags l) libs mkf
  else l.

(** Lines 266-303: the channels are closed and written out. *)
Definition emit_block (l : Locals L) : Locals L :=
  let spec := spec self in
  let libs :=
    ll_add (libs l)
      (ll_add (ll_add (ll_add (dep_libs libxc) (dep_libs fftw)) lapack)
         blas) in
  let mkf := mkf l ++ ["CC = " +:+ cc (compiler spec) +:+ nl] in
  let mkf :=
    if contains "%intel" spec then
      mkf ++ ["CPP = # " +:+ cc (compiler spec) +:+ " -P" +:+ nl;
              "AR = xiar -r" +:+ nl]
    else
      mkf ++ ["CPP = # " +:+ cc (compiler spec) +:+ " -E" +:+ nl;
              "AR = ar -r" +:+ nl] in
  let fc :=
    if contains "~mpi" spec then py_str (fc (compiler spec))
    else dep_mpifc (getitem spec "mpi") in
  let mkf := mkf ++ ["FC = " +:+ fc +:+ nl] in
  let mkf := mkf ++ ["LD = " +:+ fc +:+ nl +:+ nl] in
  let cppflags := cppflags l ++ dflags l in
  let cflags := cflags l ++ cppflags in
  let cxxflags := cxxflags l ++ cppflags in
  let fcflags := fcflags l ++ cppflags in
  let mkf := mkf ++ ["DFLAGS = " +:+ join " " (dflags l) +:+ nl +:+ nl] in
  let mkf := mkf ++ ["CPPFLAGS = " +:+ join " " cppflags +:+ nl +:+ nl] in
  let mkf := mkf ++ ["CFLAGS = " +:+ join " " cflags +:+ nl +:+ nl] in
  let mkf := mkf ++ ["CXXFLAGS = " +:+ join " " cxxflags +:+ nl +:+ nl] in
  let mkf := mkf ++ ["FCFLAGS = " +:+ join " " fcflags +:+ nl +:+ nl] in
  let mkf :=
    mkf ++ ["LDFLAGS = " +:+ join " " (ldflags l) +:+ nl +:+ nl] in
  let mkf :=
    if contains "%intel" spec then
      mkf ++ ["LDFLAGS_C = " +:+
                (join " " (ldflags l) +:+ " -nofor_main") +:+ nl +:+ nl]
    else mkf in
  let mkf := mkf ++ ["LIBS = " +:+ join " " (ll_files libs) +:+ nl +:+ nl] in
  mkLocals (dflags l) cppflags cflags cxxflags fcflags (ldflags l) libs
    mkf.

(** Lines 87-303 of [install] but for the opening of the file: the names,
    the flag set and the text of the custom makefile, given the environment
    and [os.path.isfile]. *)
Definition write_makefile (environ : gmap string string)
    (os_path_isfile : string → bool) : result (Fragment L) :=
  let spec := spec self in
  let cp2k_architecture :=
    architecture spec +:+ "-" +:+ cname (compiler spec) in
  let cp2k_version := if contains "~mpi" spec then "sopt" else "popt" in
  let makefile_basename := join "." [cp2k_architecture; cp2k_version] in
  let makefile := join_path "arch" [makefile_basename] in
  l ← base_block;
  let l := mpi_block l in
  l ← smm_block environ os_path_isfile l;
  let l := plumed_block l in
  let l := emit_block l in
  mret (mkFragment makefile cp2k_architecture cp2k_version l).

Context {FS : Type} `{Platform FS}.

(** Lines 305-312 of [install]: [make] in the [makefiles] directory. *)
Definition makefiles_stage (cp2k_architecture cp2k_version : string)
    (w : World FS) : result (World FS) :=
  working_dir "makefiles" (λ w,
    pwd_backup ← env_getitem "PWD" w;
    let w := env_setitem "PWD" (cwd w) w in
    w ← call "make" ["ARCH=" +:+ cp2k_architecture;
                     "VERSION=" +:+ cp2k_version] w;
    mret (env_setitem "PWD" pwd_backup w)) w.

(** [install(self, spec, prefix)]: the makefile is opened (line 94) before
    the flag set is computed inside the [with] block, so [os.path.isfile]
    sees the file system with the makefile in it; the writes reach the file
    when the block is left. *)
Definition install (w : World FS) : result (World FS) :=
  let spec := spec self in
  let cp2k_architecture :=
    architecture spec +:+ "-" +:+ cname (compiler spec) in
  let cp2k_version := if contains "~mpi" spec then "sopt" else "popt" in
  let makefile_basename := join "." [cp2k_architecture; cp2k_version] in
  let makefile := join_path "arch" [makefile_basename] in
  w ← open_file makefile w;
  frag ← write_makefile (env w) (isfile (fs w));
  w ← write_all makefile (mkf (locals frag)) w;
  w ← makefiles_stage cp2k_architecture cp2k_version w;
  let exe_dir := join_path "exe" [cp2k_architecture] in
  w ← copy_tree exe_dir (prefix_attr (prefix self) "bin") w;
  copy_tree "data" (prefix_attr (prefix self) "data") w.
End Recipe.

End Cp2k.

(** ** Vocabulary of the properties *)

(** The error classes of the specification, as the exceptions the cp2k recipe
    raises for them. *)
Definition MissingExternalResource (e : exn) : Prop :=
  e = KeyError Cp2k.libsmm_unset_msg ∨ e = IOError Cp2k.libsmm_missing_msg.

Definition UnsupportedConfiguration (compiler_name : string) (e : exn)
  : Prop :=
  e = KeyError compiler_name.

(** The lines of a text file, [text.split('\n')]. *)
Definition lines (text : string) : list string := str_split "010" text.

Definition no_newline (s : string) : Prop := lines s = [s].

(** A makefile assignment [KEY = value]: a non-empty key of letters, digits
    and underscores, then [" = "]. *)
Definition is_key_char (c : ascii) : bool :=
  let n := nat_of_ascii c in
  (Nat.leb 65 n && Nat.leb n 90) || (Nat.leb 97 n && Nat.leb n 122)
  || (Nat.leb 48 n && Nat.leb n 57) || Nat.eqb n 95.

Fixpoint skip_key (s : string) : string :=
  match s with
  | EmptyString => EmptyString
  | String c s' => if is_key_char c then skip_key s' else s
  end.

Definition is_key_value_line (line : string) : bool :=
  match line with
  | EmptyString => false
  | String c _ => is_key_char c && String.prefix " = " (skip_key line)
  end.

Fixpoint all_key_chars (k : string) : bool :=
  match k with
  | EmptyString => true
  | String c k' => is_key_char c && all_key_chars k'
  end.

(** One write to the makefile: a line of text, followed by a blank line or
    not. *)
Definition render_entry (e : string * bool) : string :=
  if e.2 then e.1 +:+ nl +:+ nl else e.1 +:+ nl.

(** The lines a write contributes to the file. *)
Definition entry_lines (e : string * bool) : list string :=
  e.1 :: if e.2 then [""] else [].

(** The text of the assignment of [v] to [k]. *)
Definition assignment (k v : string) : string := k +:+ " = " +:+ v.

(** Every non-blank line of a text is an assignment. *)
Definition all_key_value (text : string) : Prop :=
  ∀ line, line ∈ lines text → line ≠ "" → is_key_value_line line = true.

Module Cp2kProps.
Import Cp2k.

Section Vocabulary.
Context {L : Type} `{LibraryList L}.

(** The Spec of a package with one variant changed. *)
Definition set_static (b : bool) (self : Package L) : Package L :=
  let s := spec self in
  mkPackage
    (mkSpec (architecture s) (version s) (compiler s) b (mpi s) (smm s)
       (plumed s) (getitem s) (dag_contains s))
    (prefix self).

Definition set_mpi (b : bool) (self : Package L) : Package L :=
  let s := spec self in
  mkPackage
    (mkSpec (architecture s) (version s) (compiler s) (static s) b (smm s)
       (plumed s) (getitem s) (dag_contains s))
    (prefix self).

Definition set_plumed (b : bool) (self : Package L) : Package L :=
  let s := spec self in
  mkPackage
    (mkSpec (architecture s) (version s) (compiler s) (static s) (mpi s)
       (smm s) b (getitem s) (dag_contains s))
    (prefix self).

(** Channel by channel, every flag of [a] is a flag of [b]. *)
Definition flags_subseteq (a b : Locals L) : Prop :=
  dflags a ⊆ dflags b ∧ cppflags a ⊆ cppflags b ∧ cflags a ⊆ cflags b ∧
  cxxflags a ⊆ cxxflags b ∧ fcflags a ⊆ fcflags b ∧
  ldflags a ⊆ ldflags b ∧ ll_files (libs a) ⊆ ll_files (libs b).

(** The two Specs that differ in the variant set by [set] only: the flag
    set with the variant disabled is within the one with it enabled. *)
Definition disabled_within_enabled
    (set : bool → Package L → Package L) (self : Package L)
    (environ : gmap string string) (os_path_isfile : string → bool)
  : Prop :=
  ∀ enabled, write_makefile (set true self) environ os_path_isfile
             = inr enabled →
    ∃ disabled, write_makefile (set false self) environ os_path_isfile
                = inr disabled ∧
      flags_subseteq (locals disabled) (locals enabled).

(** The options of the cp2k recipe that carry preprocessor defines. *)
Inductive Option_ : Type :=
| OptMpi | OptSmmLibsmm | OptSmmLibxsmm | OptPlumed.

Definition selected (o : Option_) (s : Spec L) : bool :=
  match o with
  | OptMpi => mpi s
  | OptSmmLibsmm => match smm s with libsmm => true | _ => false end
  | OptSmmLibxsmm => match smm s with libxsmm => true | _ => false end
  | OptPlumed => plumed s
  end.

(** The defines each option appends in [install]. *)
Definition define_of (o : Option_) (d : string) : bool :=
  match o with
  | OptMpi =>
      list_in d ["-D__MPI_VERSION=3"; "-D__MPI_VERSION=2"; "-D__parallel";
                 "-D__LIBPEXSI"; "-D__SCALAPACK"; "-D__ELPA"; "-D__ELPA2";
                 "-D__ELPA3"; "-D__WANNIER90"]
      || startswith d "-D__ELPA="
  | OptSmmLibsmm => list_in d ["-D__HAS_smm_dnn"; "-D__HAS_smm_vec"]
  | OptSmmLibxsmm => list_in d ["-D__LIBXSMM"]
  | OptPlumed => list_in d ["-D__PLUMED2"]
  end.

(** A flag that is the define of no option. *)
Definition plain_flag (d : string) : Prop := ∀ o, define_of o d = false.

(** A define is there for all Specs, or it belongs to a selected option. *)
Definition define_origin (self : Package L) (d : string) : Prop :=
  plain_flag d ∨ ∃ o, selected o (spec self) = true ∧ define_of o d = true.

(** The header flags the dependencies answer with; the recipe passes them
    on as they are. *)
Definition header_flags (self : Package L) : list string :=
  [dep_cpp_flags (fftw self); dep_cpp_flags (libxc self)]
  ++ (match smm (spec self) with
      | libxsmm => [dep_cpp_flags (getitem (spec self) "libxsmm")]
      | _ => []
      end).

(** The channels before they are closed: every define has an origin, the
    preprocessor flags are still empty, and no other channel holds the define
    of an option. *)
Definition channels_ok (self : Package L) (l : Locals L) : Prop :=
  Forall (define_origin self) (dflags l) ∧ cppflags l = [] ∧
  Forall plain_flag (cflags l) ∧ Forall plain_flag (cxxflags l) ∧
  Forall (λ e, plain_flag e ∨ e ∈ header_flags self) (fcflags l).

(** The library files a build without MPI can link: those of libint,
    of the small-matrix library, of PLUMED, and of libxc, fftw, lapack
    and blas. *)
Definition serial_library (self : Package L)
    (environ : gmap string string) (f : string) : Prop :=
  f ∈ ll_files (dep_libs (getitem (spec self) (with_static self "libint")))
  ∨ (smm (spec self) = libsmm ∧ environ !! "LIBSMM_PATH" = Some f)
  ∨ (smm (spec self) = libxsmm
     ∧ f ∈ ll_files (dep_libs (getitem (spec self) "libxsmm")))
  ∨ (plumed (spec self) = true
     ∧ f ∈ ll_files (dep_libs (getitem (spec self) "plumed")))
  ∨ f ∈ ll_files (dep_libs (libxc self))
  ∨ f ∈ ll_files (dep_libs (fftw self))
  ∨ f ∈ ll_files (lapack self)
  ∨ f ∈ ll_files (blas self).

(** The search flags of fftw, lapack, blas and libxc combined. *)
Definition combined_search_flags (self : Package L) : string :=
  search_flags
    (ll_add (ll_add (ll_add (dep_libs (fftw self)) (lapack self))
               (blas self))
       (dep_libs (libxc self))).

(** The link flags in the order the recipe appends them. *)
Definition ldflags_appended (self : Package L) : list string :=
  [combined_search_flags self] ++
  (if mpi (spec self)
   then [search_flags
           (dep_libs (getitem (spec self) (with_static self "scalapack")))]
   else []) ++
  (match smm (spec self) with
   | libxsmm => [search_flags (dep_libs (getitem (spec self) "libxsmm"))]
   | _ => []
   end).

(** The flag the recipe puts in front of the link flags. *)
Definition ldflags_prepended (self : Package L) : list string :=
  if mpi (spec self) && contains "superlu-dist@4.3" (spec self)
  then ["-Wl,--allow-multiple-definition"] else [].

(** The defines of the MPI block in the order they are appended. *)
Definition mpi_defines (self : Package L) : list string :=
  let spec := spec self in
  let elpa := getitem spec (with_static self "elpa") in
  (if contains "^mpi@3:" spec then ["-D__MPI_VERSION=3"]
   else if contains "^mpi@2:" spec then ["-D__MPI_VERSION=2"]
   else [])
  ++ ["-D__parallel"; "-D__LIBPEXSI"; "-D__SCALAPACK"]
  ++ [if ver_upto [4; 999] (version spec) then
        if ver_upto [2014; 5; 999] (dep_version elpa) then "-D__ELPA"
        else if ver_range [2014; 6] [2015; 10; 999] (dep_version elpa)
        then "-D__ELPA2" else "-D__ELPA3"
      else
        "-D__ELPA=" +:+ str_of_nat (vmajor (dep_version elpa))
        +:+ format_02d (vminor (dep_version elpa))]
  ++ (if contains "wannier90" spec then ["-D__WANNIER90"] else []).

(** The defines in the order the recipe appends them: those of every
    Spec, of intel-mkl, of the intel compiler, of MPI, of the small-matrix
    library and of PLUMED. *)
Definition dflags_appended (self : Package L) : list string :=
  let spec := spec self in
  ["-D__DATA_DIR=" +:+ prefix_attr (prefix self) "data"; "-DNDEBUG";
   "-D__FFTW3"; "-D__LIBINT"; "-D__LIBINT_MAX_AM=6";
   "-D__LIBDERIV_MAX_AM1=5"; "-D__LIBXC"]
  ++ (if contains "^intel-mkl" spec then ["-D__FFTSG"] else [])
  ++ (if contains "%intel" spec
      then ["-D__INTEL"; "-D__HAS_ISO_C_BINDING"; "-D__USE_CP2K_TRACE";
            "-D__MKL"]
      else [])
  ++ (if mpi spec then mpi_defines self else [])
  ++ (match smm spec with
      | libxsmm => ["-D__LIBXSMM"]
      | libsmm => ["-D__HAS_smm_dnn"; "-D__HAS_smm_vec"]
      | none => []
      end)
  ++ (if plumed spec then ["-D__PLUMED2"] else []).

(** The C flags, and the C++ flags, in append order: the optimisation
    flags of the compiler, the flag of the intel compiler, the defines. *)
Definition cflags_appended (self : Package L) : list string :=
  let spec := spec self in
  default [] (optflags !! cname (compiler spec))
  ++ (if contains "%intel" spec then ["-fp-model precise"] else [])
  ++ dflags_appended self.

(** The Fortran flags in append order: the optimisation flags, the flags
    of the compiler family, the header flags of fftw and libxc, the include
    flags of the MPI block, the header flags of libxsmm, the defines. *)
Definition fcflags_appended (self : Package L) : list string :=
  let spec := spec self in
  let elpa := getitem spec (with_static self "elpa") in
  default [] (optflags !! cname (compiler spec))
  ++ (if contains "%intel" spec
      then ["-fp-model source"; "-heap-arrays 64";
            "-diag-disable 8290,8291,10010,10212,11060"; "-free"; "-fpp"]
      else if contains "%gcc" spec
      then ["-ffree-form"; "-ffree-line-length-none"]
      else [])
  ++ [dep_cpp_flags (fftw self); dep_cpp_flags (libxc self)]
  ++ (if mpi spec
      then (if ver_upto [4; 999] (version spec) then []
            else ["-I" +:+ elpa_include elpa "elpa"])
           ++ ["-I" +:+ elpa_include elpa "modules";
               "-I" +:+ join_path (dep_prefix (getitem spec "pexsi"))
                          ["fortran"]]
      else [])
  ++ (match smm spec with
      | libxsmm => [dep_cpp_flags (getitem spec "libxsmm")]
      | _ => []
      end)
  ++ dflags_appended self.

(** The files the MPI block links, in the order it names them. *)
Definition mpi_files (self : Package L) : list string :=
  let spec := spec self in
  ll_files (dep_libs (getitem spec (with_static self "elpa")))
  ++ ll_files (dep_libs (getitem spec "pexsi"))
  ++ ll_files (dep_libs (getitem spec "superlu-dist"))
  ++ ll_files (dep_libs (getitem spec "parmetis"))
  ++ ll_files (dep_libs (getitem spec "metis"))
  ++ ll_files (dep_libs (getitem spec (with_static self "scalapack")))
  ++ ll_files (dep_libs (getitem spec (with_static self "mpi:cxx")))
  ++ stdcxx_libs (compiler spec)
  ++ (if contains "wannier90" spec
      then [join_path
              (prefix_attr (dep_prefix (getitem spec "wannier90")) "lib")
              ["libwannier.a"]]
      else []).

(** The files named for linking before the small-matrix library, by it,
    and after it, in the order they are named. *)
Definition linked_before_smm (self : Package L) : list string :=
  ll_files (dep_libs (getitem (spec self) (with_static self "libint")))
  ++ (if mpi (spec self) then mpi_files self else []).

Definition linked_by_smm (self : Package L) (environ : gmap string string)
  : list string :=
  match smm (spec self) with
  | libsmm =>
      match environ !! "LIBSMM_PATH" with Some p => [p] | None => [] end
  | libxsmm => ll_files (dep_libs (getitem (spec self) "libxsmm"))
  | none => []
  end.

Definition linked_after_smm (self : Package L) : list string :=
  (if plumed (spec self)
   then ll_files (dep_libs (getitem (spec self) "plumed")) else [])
  ++ ll_files (dep_libs (libxc self)) ++ ll_files (dep_libs (fftw self))
  ++ ll_files (lapack self) ++ ll_files (blas self).

(** The files named for linking, in the order [install] names them. *)
Definition libs_appended (self : Package L) (environ : gmap string string)
  : list string :=
  linked_before_smm self ++ linked_by_smm self environ
  ++ linked_after_smm self.

(** What [install] adds to the library list after the small-matrix
    library: the libraries of PLUMED when it is selected, then those of
    libxc, fftw, lapack and blas. *)
Definition libs_after_smm (self : Package L) (libs : L) : L :=
  ll_add
    (if plumed (spec self)
     then ll_add libs (dep_libs (getitem (spec self) "plumed")) else libs)
    (ll_add (ll_add (ll_add (dep_libs (libxc self)) (dep_libs (fftw self)))
               (lapack self)) (blas self)).

(** The assignments of the flag channels as they are written. *)
Definition channel_lines (self : Package L) : list string :=
  (λ kv : string * list string, kv.1 +:+ " = " +:+ join " " kv.2 +:+ nl +:+ nl)
  <$> [("DFLAGS", dflags_appended self); ("CPPFLAGS", dflags_appended self);
       ("CFLAGS", cflags_appended self); ("CXXFLAGS", cflags_appended self);
       ("FCFLAGS", fcflags_appended self);
       ("LDFLAGS", ldflags_prepended self ++ ldflags_appended self)].

(** Disabled variants as first stated: the defines of an option that is
    not selected are in no channel, and without MPI no file of the MPI
    block is linked. *)
Definition disabled_defines_absent (self : Package L) (frag : Fragment L)
  : Prop :=
  let l := locals frag in
  (∀ o d, selected o (spec self) = false → define_of o d = true →
     (d ∉ dflags l) ∧ (d ∉ cppflags l) ∧ (d ∉ cflags l) ∧ (d ∉ cxxflags l) ∧
     (d ∉ fcflags l) ∧ (d ∉ ldflags l) ∧ (d ∉ ll_files (libs l))) ∧
  (mpi (spec self) = false →
   ∀ f, f ∈ mpi_files self → f ∉ ll_files (libs l)).

(** The text of the generated makefile. *)
Definition makefile_text (frag : Fragment L) : string :=
  String.concat "" (mkf (locals frag)).

(** The include directive written for PLUMED. *)
Definition plumed_include (self : Package L) : string :=
  "include " +:+
  join_path (prefix_attr (dep_prefix (getitem (spec self) "plumed")) "lib")
    ["plumed"; "src"; "lib"; "Plumed.inc"].

(** Every string the recipe substitutes into the makefile is free of
    line feeds. *)
Definition single_line_values (self : Package L) (frag : Fragment L)
  : Prop :=
  let l := locals frag in
  no_newline (cc (compiler (spec self))) ∧
  no_newline (py_str (fc (compiler (spec self)))) ∧
  no_newline (dep_mpifc (getitem (spec self) "mpi")) ∧
  no_newline (plumed_include self) ∧
  Forall no_newline (dflags l) ∧ Forall no_newline (cppflags l) ∧
  Forall no_newline (fcflags l) ∧ Forall no_newline (cflags l) ∧
  Forall no_newline (cxxflags l) ∧
  Forall no_newline (ldflags l) ∧ Forall no_newline (ll_files (libs l)).
(** The assignments of the makefile in the order they are written: key,
    value, and whether a blank line follows. *)
Definition makefile_assignments (self : Package L) (l : Locals L)
  : list (string * string * bool) :=
  let intel := String.eqb (cname (compiler (spec self))) "intel" in
  let fc := if mpi (spec self) then dep_mpifc (getitem (spec self) "mpi")
            else py_str (fc (compiler (spec self))) in
  [("CC", cc (compiler (spec self)), false);
   ("CPP", "# " +:+ cc (compiler (spec self))
             +:+ (if intel then " -P" else " -E"), false);
   ("AR", if intel then "xiar -r" else "ar -r", false);
   ("FC", fc, false);
   ("LD", fc, true);
   ("DFLAGS", join " " (dflags l), true);
   ("CPPFLAGS", join " " (cppflags l), true);
   ("CFLAGS", join " " (cflags l), true);
   ("CXXFLAGS", join " " (cxxflags l), true);
   ("FCFLAGS", join " " (fcflags l), true);
   ("LDFLAGS", join " " (ldflags l), true)]
  ++ (if intel
      then [("LDFLAGS_C", join " " (ldflags l) +:+ " -nofor_main", true)]
      else [])
  ++ [("LIBS", join " " (ll_files (libs l)), true)].

(** The writes of the makefile: the include directive for PLUMED, then the
    assignments. *)
Definition makefile_entries (self : Package L) (l : Locals L)
  : list (string * bool) :=
  (if plumed (spec self) then [(plumed_include self, true)] else [])
  ++ ((λ a, (assignment a.1.1 a.1.2, a.2)) <$> makefile_assignments self l).

(** What is asked of the recipe on a Spec with [smm=libsmm]: it raises
    without [LIBSMM_PATH], it raises when [LIBSMM_PATH] is not an existing
    file, and otherwise it emits the two defines of libsmm and appends the
    file to the library list: the list is the one the MPI block left with
    the file added to it, and then what the later blocks add; its files are
    those named before, the file, and those named after. *)
Definition libsmm_resource (self : Package L)
    (environ : gmap string string) (os_path_isfile : string → bool) : Prop :=
  match environ !! "LIBSMM_PATH" with
  | None =>
      write_makefile self environ os_path_isfile
      = inl (KeyError libsmm_unset_msg)
  | Some p =>
      if os_path_isfile p then
        ∃ frag,
          write_makefile self environ os_path_isfile = inr frag ∧
          "-D__HAS_smm_dnn" ∈ dflags (locals frag) ∧
          "-D__HAS_smm_vec" ∈ dflags (locals frag) ∧
          p ∈ ll_files (libs (locals frag)) ∧
          (∃ l0, base_block self = inr l0 ∧
             libs (locals frag)
             = libs_after_smm self
                 (ll_add (libs (mpi_block self l0)) (ll_new [p]))) ∧
          (LibraryListOrder L →
           ll_files (libs (locals frag))
           = FileList.dedupe
               (linked_before_smm self ++ [p] ++ linked_after_smm self)) ∧
          "DFLAGS = " +:+ join " " (dflags (locals frag)) +:+ nl +:+ nl
            ∈ mkf (locals frag) ∧
          "LIBS = " +:+ join " " (ll_files (libs (locals frag))) +:+ nl +:+ nl
            ∈ mkf (locals frag)
      else
        write_makefile self environ os_path_isfile
        = inl (IOError libsmm_missing_msg)
  end.
End Vocabulary.

End Cp2kProps.

Module FftwProps.
Import Fftw.

Inductive Variant : Type :=
| VFloat | VDouble | VLongDouble | VQuad | VOpenmp | VMpi | VPfftPatches.

(** The Spec of a package with one variant changed. *)
Definition set_variant (v : Variant) (b : bool) (self : Package) : Package :=
  let s := spec self in
  let pick (w : Variant) (old : bool) : bool :=
    match v, w with
    | VFloat, VFloat | VDouble, VDouble | VLongDouble, VLongDouble
    | VQuad, VQuad | VOpenmp, VOpenmp | VMpi, VMpi
    | VPfftPatches, VPfftPatches => b
    | _, _ => old
    end in
  mkPackage
    (mkSpec (version s) (pick VFloat (float s)) (pick VDouble (double s))
       (pick VLongDouble (long_double s)) (pick VQuad (quad s))
       (pick VOpenmp (openmp s)) (pick VMpi (mpi s))
       (pick VPfftPatches (pfft_patches s)) (architecture s) (compiler s)
       (last_query_extra_parameters s))
    (prefix self).

(** The directories of a plan, in order. *)
Definition dirs (plan : list Invocation) : list string := inv_dir <$> plan.

(** All the arguments a plan passes to [configure]. *)
Definition plan_flags (plan : list Invocation) : list string :=
  concat (inv_args <$> plan).

(** The precisions in the order the recipe treats them, with their
    directory, variant and [configure] switch. *)
Inductive Precision : Type := PDouble | PFloat | PLongDouble | PQuad.

Definition precision_dir (p : Precision) : string :=
  match p with
  | PDouble => "double"
  | PFloat => "float"
  | PLongDouble => "long-double"
  | PQuad => "quad"
  end.

Definition precision_enabled (p : Precision) (s : Spec) : bool :=
  match p with
  | PDouble => double s
  | PFloat => float s
  | PLongDouble => long_double s
  | PQuad => quad s
  end.

Definition precision_switch (p : Precision) : list string :=
  match p with
  | PDouble => []
  | PFloat => ["--enable-float"]
  | PLongDouble => ["--enable-long-double"]
  | PQuad => ["--enable-quad-precision"]
  end.

(** Long double and quad precision are configured from version 3 on. *)
Definition precision_configured (p : Precision) (s : Spec) : bool :=
  match p with
  | PDouble | PFloat => precision_enabled p s
  | PLongDouble | PQuad => ver_from [3] (version s) && precision_enabled p s
  end.

Definition all_precisions : list Precision :=
  [PDouble; PFloat; PLongDouble; PQuad].

(** [configure] raises for OpenMP with Apple's clang only. *)
Definition apple_clang_openmp (s : Spec) : bool :=
  openmp s && (String.eqb (cname (compiler s)) "clang"
               && endswith (cversion (compiler s)) "-apple").

(** The SIMD switch of the double and float builds. *)
Definition simd_options (p : Precision) (s : Spec) : list string :=
  match p with
  | PDouble | PFloat =>
      if str_in "x86_64" (architecture s) && ver_from [3] (version s)
      then ["--enable-sse2"] else []
  | PLongDouble | PQuad => []
  end.

(** The [configure] invocation of one precision, if it has one. *)
Definition precision_plan (self : Package) (options : list string)
    (p : Precision) : list Invocation :=
  if precision_configured p (spec self)
  then [mkInvocation (precision_dir p) "../configure"
          (precision_switch p ++ options ++ simd_options p (spec self))]
  else [].

(** The directories [build], [check] and [install] head for, in order:
    those of the enabled precisions. *)
Definition make_dirs (s : Spec) : list string :=
  flat_map (λ p, if precision_enabled p s then [precision_dir p] else [])
    all_precisions.

(** The plan of running [make] with [args] in each of the directories. *)
Definition make_in (ds : list string) (args : list string)
  : list Invocation :=
  (λ d, mkInvocation d "make" args) <$> ds.

(** Carrying out a plan: one invocation after the other, each inside its
    directory, which is entered as [working_dir] does without [create]. *)
Fixpoint run_plan {FS : Type} `{Platform FS} (plan : list Invocation)
    (w : World FS) : result (World FS) :=
  match plan with
  | [] => mret w
  | i :: plan' =>
      w ← working_dir (inv_dir i) (call (inv_cmd i) (inv_args i)) w;
      run_plan plan' w
  end.

(** The fan-out as first stated: [configure] runs for a precision exactly
    when its variant is enabled, and [build] runs [make] in the directories
    [configure] ran in. *)
Definition fan_out_by_variant (self : Package) (plan : list Invocation)
  : Prop :=
  (∀ p, precision_dir p ∈ dirs plan ↔ precision_enabled p (spec self) = true)
  ∧ (∀ (FS : Type) (P : Platform FS) (w : World FS),
       build self w = run_plan (make_in (dirs plan) []) w).

(** The two Specs that differ in variant [v] only: the flags [configure]
    is given with the variant disabled are among those with it enabled. *)
Definition disabled_within_enabled (v : Variant) (self : Package) : Prop :=
  ∀ enabled, configure (set_variant v true self) = inr enabled →
    ∃ disabled, configure (set_variant v false self) = inr disabled ∧
      plan_flags disabled ⊆ plan_flags enabled.
End FftwProps.

(** ** Sample inputs *)

Module Sample.
Import FileList.

(** Modelled from the spec: the name and the extra parameters of a
    dependency query [name:param,param]. *)
Definition query_name (q : string) : string :=
  hd "" (str_split ":" q).
Definition query_extra_parameters (q : string) : list string :=
  match str_split ":" q with
  | _ :: ps :: _ => str_split "," ps
  | _ => []
  end.

(** A [find_libraries] that finds [root/lib/name.so] or [root/lib/name.a]. *)
Definition find_libraries (names : list string) (root : string)
    (shared recurse : bool) : list string :=
  ll_new ((λ n, root +:+ "/lib/" +:+ n +:+ (if shared then ".so" else ".a"))
            <$> names).

Definition gcc : Compiler :=
  mkCompiler "gcc" "7.2.0" "/usr/bin/gcc" (Some "/usr/bin/gfortran")
    (Some "/usr/bin/gfortran") "-fopenmp" ["-lstdc++"].
Definition intel : Compiler :=
  mkCompiler "intel" "17.0.4" "/opt/intel/bin/icc" (Some "/opt/intel/bin/ifort")
    (Some "/opt/intel/bin/ifort") "-qopenmp" ["-cxxlib"].
Definition clang : Compiler :=
  mkCompiler "clang" "5.0.0" "/usr/bin/clang" None None "-fopenmp"
    ["-lstdc++"].

Definition fftw_spec (v : Version) (extra : list string) : Fftw.Spec :=
  Fftw.mkSpec v true true true false false true false
    "linux-ubuntu16.04-x86_64" gcc extra.

Definition fftw3 : Fftw.Package :=
  Fftw.mkPackage (fftw_spec (mkVersion 3 3 [7] "3.3.7") []) "/opt/fftw".
Definition fftw2 : Fftw.Package :=
  Fftw.mkPackage (fftw_spec (mkVersion 2 1 [5] "2.1.5") []) "/opt/fftw".

(** The dependencies of the sample cp2k Specs: fftw answers with its own
    [libs] property, the others with one library each. *)
Definition dep (q : string) : DepView (list string) :=
  let name := query_name q in
  let extra := query_extra_parameters q in
  let root := "/opt/" +:+ name in
  let libs :=
    if String.eqb name "fftw"
    then Fftw.libs find_libraries
           (Fftw.mkPackage (fftw_spec (mkVersion 3 3 [7] "3.3.7") extra)
              root)
    else find_libraries ["lib" +:+ name] root
           (negb (list_in "static" extra)) true in
  mkDepView root (mkVersion 2016 5 [4] "2016.05.004") libs
    ("-I" +:+ root +:+ "/include") "/opt/mpi/bin/mpif90".

Definition cp2k (c : Compiler) (static mpi : bool) (smm : Cp2k.Smm)
    (plumed : bool) (dag : string → bool) : Cp2k.Package (list string) :=
  Cp2k.mkPackage
    (Cp2k.mkSpec "linux-ubuntu16.04-x86_64" (mkVersion 5 1 [] "5.1") c
       static mpi smm plumed dep dag)
    "/opt/cp2k".

(** Dependencies as a vendor library provides them: lapack, blas and
    scalapack are one library, and the headers of fftw carry a macro. *)
Definition vendor_dep (q : string) : DepView (list string) :=
  let name := query_name q in
  let d := dep q in
  if list_in name ["lapack"; "blas"; "scalapack"] then
    mkDepView "/opt/intel/mkl" (dep_version d)
      ["/opt/intel/mkl/lib/libmkl_rt.so"] "-I/opt/intel/mkl/include"
      (dep_mpifc d)
  else if String.eqb name "fftw" then
    mkDepView (dep_prefix d) (dep_version d) (dep_libs d) "-D__parallel"
      (dep_mpifc d)
  else d.

(** A Spec without MPI on those dependencies, compiled with gcc. *)
Definition serial_vendor : Cp2k.Package (list string) :=
  Cp2k.mkPackage
    (Cp2k.mkSpec "linux-ubuntu16.04-x86_64" (mkVersion 5 1 [] "5.1") gcc
       true false Cp2k.none false vendor_dep (λ _, false))
    "/opt/cp2k".

(** A Spec without MPI that links libsmm, compiled with gcc. *)
Definition serial_libsmm : Cp2k.Package (list string) :=
  Cp2k.mkPackage
    (Cp2k.mkSpec "linux-ubuntu16.04-x86_64" (mkVersion 5 1 [] "5.1") gcc
       true false Cp2k.libsmm false dep (λ _, false))
    "/opt/cp2k".

Definition no_constraint (q : string) : bool := false.
Definition old_superlu (q : string) : bool :=
  String.eqb q "superlu-dist@4.3".

Definition libsmm_env : gmap string string :=
  <["LIBSMM_PATH" := "/opt/libsmm/lib/libsmm.a"]> ∅.
Definition every_file (path : string) : bool := true.

(** An operating system on which every command succeeds and changes
    nothing. *)
#[global] Instance quiet : Platform unit := {|
  isfile := λ _ _, true;
  isdir := λ _ _, true;
  open_write := λ _ _ fs, mret fs;
  write_file := λ _ _ _ fs, mret fs;
  run := λ _ _ _ _ fs, mret fs;
  copytree := λ _ _ _ fs, mret fs;
|}.

Definition stage_world : World unit :=
  mkWorld (<["PWD" := "/tmp/stage/cp2k-5.1"]> ∅) "/tmp/stage/cp2k-5.1" ().

Definition fftw_stage : World unit :=
  mkWorld ∅ "/tmp/stage/fftw-3.3.7" ().
End Sample.

(** ** Vocabulary of the further properties *)

(** The number of flags that begin with [p]. *)
Definition count_prefixed (p : string) (l : list string) : nat :=
  length (List.filter (λ d, startswith d p) l).

(** [s.count(c)] for a character [c]. *)
Fixpoint count_char (c : ascii) (s : string) : nat :=
  match s with
  | EmptyString => 0
  | String x s' => (if Ascii.eqb x c then 1 else 0) + count_char c s'
  end.

(** The variables the cp2k makefile assigns, in the order of the writes. *)
Definition makefile_keys (intel : bool) : list string :=
  ["CC"; "CPP"; "AR"; "FC"; "LD"; "DFLAGS"; "CPPFLAGS"; "CFLAGS"; "CXXFLAGS";
   "FCFLAGS"; "LDFLAGS"]
  ++ (if intel then ["LDFLAGS_C"] else []) ++ ["LIBS"].

(** The shared options of fftw's [configure] in the order they end up in. *)
Definition fftw_shared_options (self : Fftw.Package) : list string :=
  let s := Fftw.spec self in
  (if Fftw.openmp s && ver_upto [2] (Fftw.version s)
   then ["CFLAGS=" +:+ openmp_flag (Fftw.compiler s)] else [])
  ++ ["--prefix=" +:+ Fftw.prefix self; "--enable-shared"; "--enable-threads"]
  ++ (if py_not (f77 (Fftw.compiler s)) || py_not (fc (Fftw.compiler s))
      then ["--disable-fortran"] else [])
  ++ (if ver_upto [2] (Fftw.version s) then ["--enable-type-prefix"] else [])
  ++ (if Fftw.openmp s then ["--enable-openmp"] else [])
  ++ (if Fftw.mpi s then ["--enable-mpi"] else []).

Module SampleMore.

(** A stage of fftw 2.1.5 after [configure]: it holds the directories
    [double] and [float] and no other; every command succeeds and changes
    nothing. *)
Definition configured_stage : Platform unit := {|
  isfile := λ _ _, false;
  isdir := λ _ path,
    list_in path ["/tmp/stage/fftw-2.1.5"; "/tmp/stage/fftw-2.1.5/double";
                  "/tmp/stage/fftw-2.1.5/float"];
  open_write := λ _ _ fs, mret fs;
  write_file := λ _ _ _ fs, mret fs;
  run := λ _ _ _ _ fs, mret fs;
  copytree := λ _ _ _ fs, mret fs;
|}.

Definition fftw2_world : World unit :=
  mkWorld ∅ "/tmp/stage/fftw-2.1.5" ().

(** A stage of cp2k in a process that has [LIBSMM_PATH] set. *)
Definition libsmm_world : World unit :=
  mkWorld
    (<["PWD" := "/tmp/stage/cp2k-5.1"]> Sample.libsmm_env)
    "/tmp/stage/cp2k-5.1" ().

Definition fftw2_quad : Fftw.Package :=
  Fftw.mkPackage
    (Fftw.mkSpec (mkVersion 2 1 [5] "2.1.5") true true false true true true
       false "linux-ubuntu16.04-x86_64" Sample.gcc [])
    "/opt/fftw".

End SampleMore.

(** * Properties *)

(** ** Exceptions and strings *)

#[local] Arguments String.append !_ _ / : simpl nomatch.

Lemma bind_inr {A B} (m : result A) (k : A → result B) (b : B) :
  m ≫= k = inr b ↔ ∃ a, m = inr a ∧ k a = inr b.
Proof.
  destruct m as [e|a]; simpl; split.
  - discriminate.
  - intros (a & Ha & _). discriminate.
  - eauto.
  - intros (a' & Ha & Hk). by simplify_eq.
Qed.

Lemma bind_inl {A B} (m : result A) (k : A → result B) (e : exn) :
  m ≫= k = inl e ↔ m = inl e ∨ ∃ a, m = inr a ∧ k a = inl e.
Proof.
  destruct m as [e'|a]; simpl; split.
  - intros [= ->]. by left.
  - intros [?|(a & Ha & _)]; by simplify_eq.
  - eauto.
  - intros [?|(a' & Ha & Hk)]; by simplify_eq.
Qed.

Lemma prefix_app (p s : string) :
  String.prefix p s = true ↔ ∃ t, s = p +:+ t.
Proof.
  revert s. induction p as [|c p IH]; intros s; simpl.
  - split; [eauto|]. by destruct s.
  - destruct s as [|c' s].
    + split; [done|]. by intros (t & ?).
    + simpl. destruct (ascii_dec c c') as [->|Hne].
      * rewrite IH. split; intros (t & Ht); exists t; by simplify_eq.
      * split; [done|]. intros (t & ?). by simplify_eq.
Qed.

Lemma str_in_nil (needle : string) :
  str_in needle "" = String.prefix needle "".
Proof. unfold str_in. apply orb_false_r. Qed.

Lemma str_in_cons (needle : string) (c : ascii) (hay : string) :
  str_in needle (String c hay)
  = String.prefix needle (String c hay) || str_in needle hay.
Proof. reflexivity. Qed.

(** [needle in hay] holds exactly when [hay] has [needle] as a substring. *)
Lemma str_in_substring (needle hay : string) :
  str_in needle hay = true ↔ ∃ a b, hay = a +:+ needle +:+ b.
Proof.
  induction hay as [|c hay IH].
  - rewrite str_in_nil, prefix_app. split.
    + intros (t & ->). by exists "", t.
    + intros (a & b & Hab). destruct a; simpl in Hab; [|done]. eauto.
  - rewrite str_in_cons, orb_true_iff, prefix_app, IH. split.
    + intros [(t & ->)|(a & b & ->)].
      * by exists "", t.
      * by exists (String c a), b.
    + intros (a & b & Hab). destruct a as [|c' a]; simpl in Hab.
      * left. eauto.
      * right. simplify_eq. eauto.
Qed.

Lemma list_in_elem_of (x : string) (l : list string) :
  list_in x l = true ↔ x ∈ l.
Proof.
  unfold list_in. rewrite existsb_exists. split.
  - intros (y & Hy & Heq). apply String.eqb_eq in Heq as ->.
    by apply list_elem_of_In.
  - intros Hx. exists x. split; [by apply list_elem_of_In|].
    apply String.eqb_refl.
Qed.

(** ** The list of files as a library list *)

Lemma elem_of_dedupe_from (x : string) (seen l : list string) :
  x ∈ FileList.dedupe_from seen l ↔ x ∈ l ∧ x ∉ seen.
Proof.
  revert seen. induction l as [|y l IH]; intros seen; simpl.
  - split; [by intros ?%elem_of_nil|]. by intros [?%elem_of_nil _].
  - destruct (list_in y seen) eqn:Hy.
    + apply list_in_elem_of in Hy. rewrite IH, elem_of_cons.
      split; [tauto|]. intros [[->|Hx] Hseen]; [done|tauto].
    + apply not_true_iff_false in Hy. rewrite list_in_elem_of in Hy.
      rewrite !elem_of_cons, IH, not_elem_of_cons.
      destruct (decide (x = y)) as [->|Hne]; [tauto|]. tauto.
Qed.

Lemma elem_of_dedupe (x : string) (l : list string) :
  x ∈ FileList.dedupe l ↔ x ∈ l.
Proof.
  unfold FileList.dedupe. rewrite elem_of_dedupe_from.
  split; [tauto|]. intros Hx. split; [done|]. by intros ?%elem_of_nil.
Qed.

#[global] Instance file_list_laws : LibraryListLaws (list string).
Proof.
  split; simpl.
  - intros x l. apply elem_of_dedupe.
  - intros x a l. unfold id. rewrite elem_of_dedupe. apply elem_of_app.
Qed.

(** ** Order in a library list *)

Lemma list_in_cons (y x : string) (l : list string) :
  list_in y (x :: l) = String.eqb y x || list_in y l.
Proof. reflexivity. Qed.

Lemma list_in_app (x : string) (a b : list string) :
  list_in x (a ++ b) = list_in x a || list_in x b.
Proof. unfold list_in. apply existsb_app. Qed.

Lemma list_in_dedupe (x : string) (l : list string) :
  list_in x (FileList.dedupe l) = list_in x l.
Proof.
  apply eq_true_iff_eq. rewrite !list_in_elem_of. apply elem_of_dedupe.
Qed.

(** Only the members of [seen] matter. *)
Lemma dedupe_from_ext (seen seen' l : list string) :
  (∀ x, list_in x seen = list_in x seen') →
  FileList.dedupe_from seen l = FileList.dedupe_from seen' l.
Proof.
  revert seen seen'. induction l as [|x l IH]; intros seen seen' Hs; [done|].
  cbn [FileList.dedupe_from]. rewrite (Hs x).
  destruct (list_in x seen'); [by apply IH|].
  f_equal. apply IH. intros y. by rewrite !list_in_cons, Hs.
Qed.

Lemma dedupe_from_app (seen a b : list string) :
  FileList.dedupe_from seen (a ++ b)
  = FileList.dedupe_from seen a ++ FileList.dedupe_from (a ++ seen) b.
Proof.
  revert seen. induction a as [|x a IH]; intros seen; [done|].
  cbn [app FileList.dedupe_from]. destruct (list_in x seen) eqn:Hx.
  - rewrite IH. f_equal. apply dedupe_from_ext. intros y.
    rewrite list_in_cons. destruct (String.eqb_spec y x) as [->|]; [|done].
    by rewrite list_in_app, Hx, orb_true_r.
  - rewrite IH. cbn [app]. f_equal. f_equal. apply dedupe_from_ext.
    intros y. rewrite list_in_cons, !list_in_app, list_in_cons.
    by destruct (String.eqb y x), (list_in y a).
Qed.

(** Removing repetitions twice is removing them once. *)
Lemma dedupe_from_dedupe (seen seen' l : list string) :
  (∀ x, list_in x seen = true → list_in x seen' = true) →
  FileList.dedupe_from seen' (FileList.dedupe_from seen l)
  = FileList.dedupe_from seen' l.
Proof.
  revert seen seen'. induction l as [|x l IH]; intros seen seen' Hs; [done|].
  cbn [FileList.dedupe_from]. destruct (list_in x seen) eqn:Hx.
  - rewrite (Hs x Hx). by apply IH.
  - cbn [FileList.dedupe_from]. destruct (list_in x seen') eqn:Hx'.
    + apply IH. intros y. rewrite list_in_cons.
      destruct (String.eqb_spec y x) as [->|]; [done|]. apply Hs.
    + f_equal. apply IH. intros y. rewrite !list_in_cons.
      destruct (String.eqb y x); [done|]. apply Hs.
Qed.

Lemma dedupe_idemp (l : list string) :
  FileList.dedupe (FileList.dedupe l) = FileList.dedupe l.
Proof. by apply dedupe_from_dedupe. Qed.

(** Lists with the same files in the same order of first occurrence can
    be exchanged inside a longer list. *)
Lemma dedupe_app_congr (a a' b b' : list string) :
  FileList.dedupe a = FileList.dedupe a' →
  FileList.dedupe b = FileList.dedupe b' →
  FileList.dedupe (a ++ b) = FileList.dedupe (a' ++ b').
Proof.
  intros Ha Hb. unfold FileList.dedupe in *. rewrite !dedupe_from_app, Ha.
  f_equal. rewrite !app_nil_r.
  rewrite <- (dedupe_from_dedupe [] a b), <- (dedupe_from_dedupe [] a' b')
    by done.
  rewrite Hb. apply dedupe_from_ext. intros x.
  rewrite <- (list_in_dedupe x a), <- (list_in_dedupe x a').
  unfold FileList.dedupe. by rewrite Ha.
Qed.

#[global] Instance file_list_order : LibraryListOrder (list string).
Proof. by split. Qed.

#[global] Instance file_list_search_flags : LibrarySearchFlags (list string).
Proof.
  split. intros a. cbn [search_flags FileList.file_list].
  destruct (FileList.directories a) as [|d ds]; [by left|right].
  unfold startswith. apply prefix_app. destruct ds as [|d' ds].
  - by exists d.
  - by exists (d +:+ " " +:+ join " " ((λ d, "-L" +:+ d) <$> d' :: ds)).
Qed.

Section LibraryOrder.
Context {L : Type} `{LibraryListOrder L}.

Lemma holds_files (a : L) : holds_in_order a (ll_files a).
Proof. reflexivity. Qed.

Lemma holds_new (l : list string) : holds_in_order (ll_new l) l.
Proof. unfold holds_in_order. by rewrite ll_files_new, dedupe_idemp. Qed.

Lemma holds_add_seq (a : L) (l A : list string) :
  holds_in_order a A → holds_in_order (ll_add_seq a l) (A ++ l).
Proof.
  unfold holds_in_order. intros Ha.
  rewrite ll_files_add_seq, dedupe_idemp. by apply dedupe_app_congr.
Qed.

Lemma holds_add (a b : L) (A B : list string) :
  holds_in_order a A → holds_in_order b B →
  holds_in_order (ll_add a b) (A ++ B).
Proof.
  unfold holds_in_order, ll_add. intros Ha Hb.
  rewrite ll_files_add_seq, dedupe_idemp. by apply dedupe_app_congr.
Qed.

Lemma files_add (a b : L) (A B : list string) :
  holds_in_order a A → holds_in_order b B →
  ll_files (ll_add a b) = FileList.dedupe (A ++ B).
Proof.
  unfold holds_in_order, ll_add. intros Ha Hb.
  rewrite ll_files_add_seq. by apply dedupe_app_congr.
Qed.

(** The order laws give the membership laws. *)
Lemma order_laws : LibraryListLaws L.
Proof.
  split.
  - intros x l. by rewrite ll_files_new, elem_of_dedupe.
  - intros x a l. by rewrite ll_files_add_seq, elem_of_dedupe, elem_of_app.
Qed.

End LibraryOrder.

Section LibraryMembers.
Context {L : Type} `{LibraryListLaws L}.

Lemma members_files (a : L) : holds_files_of a (ll_files a).
Proof. done. Qed.

Lemma members_new (l : list string) : holds_files_of (ll_new l) l.
Proof. intros f. apply elem_of_ll_new. Qed.

Lemma members_add_seq (a : L) (l A : list string) :
  holds_files_of a A → holds_files_of (ll_add_seq a l) (A ++ l).
Proof. intros Ha f. by rewrite elem_of_ll_add_seq, elem_of_app, (Ha f). Qed.

Lemma members_add (a b : L) (A B : list string) :
  holds_files_of a A → holds_files_of b B →
  holds_files_of (ll_add a b) (A ++ B).
Proof.
  intros Ha Hb f. unfold ll_add.
  by rewrite elem_of_ll_add_seq, elem_of_app, (Ha f), (Hb f).
Qed.

End LibraryMembers.

(** ** vasp *)

(** C8: vasp hands its settings on through the environment:
    [setup_environment] adds exactly two requests to the build environment,
    [CRAYPE_LINK_TYPE=static] and [INSTALL_DIR=<prefix>], and leaves the run
    environment alone; applied to a process environment they set these two
    variables and no other.  [install] is the single invocation [make all]:
    no configure step, no file written. *)
Theorem vasp_environment_channel (self : Vasp.Package)
    (spack_env run_env : Vasp.EnvironmentModifications)
    (environ : gmap string string) :
  let '(spack_env', run_env') :=
    Vasp.setup_environment self spack_env run_env in
  spack_env' = spack_env ++ [Vasp.SetEnv "CRAYPE_LINK_TYPE" "static";
                             Vasp.SetEnv "INSTALL_DIR" (Vasp.prefix self)] ∧
  run_env' = run_env ∧
  Vasp.apply_modifications spack_env' environ
  = <["INSTALL_DIR" := Vasp.prefix self]>
      (<["CRAYPE_LINK_TYPE" := "static"]>
         (Vasp.apply_modifications spack_env environ)) ∧
  Vasp.invocations (Vasp.install self) = [mkInvocation "" "make" ["all"]] ∧
  Vasp.written_files (Vasp.install self) = [].
Proof.
  unfold Vasp.setup_environment, Vasp.env_set, Vasp.apply_modifications.
  repeat split.
  - by rewrite <- app_assoc.
  - by rewrite !fold_left_app.
Qed.

(** ** Static and shared libraries *)

Lemma with_static_unfold {L : Type} (self : Cp2k.Package L) (query : string) :
  Cp2k.with_static self query
  = if Cp2k.static (Cp2k.spec self)
    then if str_in ":" query then query +:+ ",static" else query +:+ ":static"
    else query.
Proof.
  unfold Cp2k.with_static, Cp2k.contains.
  by destruct (Cp2k.static (Cp2k.spec self)).
Qed.

(** C10: [with_static] returns the query unchanged for a Spec without the
    static variant; with it, it appends [,static] to a query that contains a
    colon and [:static] to one that does not.  The [libs] property of fftw
    looks for [libfftw3] under its prefix, static exactly when ['static'] is
    among the extra parameters of the last query, shared otherwise. *)
Theorem static_selection {L : Type} (self : Cp2k.Package L) (query : string)
    (find_libraries : list string → string → bool → bool → L)
    (fftw : Fftw.Package) :
  (Cp2k.static (Cp2k.spec self) = false →
   Cp2k.with_static self query = query) ∧
  (Cp2k.static (Cp2k.spec self) = true →
   (∃ a b, query = a +:+ ":" +:+ b) →
   Cp2k.with_static self query = query +:+ ",static") ∧
  (Cp2k.static (Cp2k.spec self) = true →
   (¬ ∃ a b, query = a +:+ ":" +:+ b) →
   Cp2k.with_static self query = query +:+ ":static") ∧
  ("static" ∈ Fftw.last_query_extra_parameters (Fftw.spec fftw) →
   Fftw.libs find_libraries fftw
   = find_libraries ["libfftw3"] (Fftw.prefix fftw) false true) ∧
  ("static" ∉ Fftw.last_query_extra_parameters (Fftw.spec fftw) →
   Fftw.libs find_libraries fftw
   = find_libraries ["libfftw3"] (Fftw.prefix fftw) true true).
Proof.
  rewrite with_static_unfold. unfold Fftw.libs.
  repeat split.
  - by intros ->.
  - intros -> Hq. apply str_in_substring in Hq. by rewrite Hq.
  - intros -> Hq. rewrite <- str_in_substring in Hq.
    by apply not_true_is_false in Hq as ->.
  - intros Hs. apply list_in_elem_of in Hs. by rewrite Hs.
  - intros Hs. rewrite <- list_in_elem_of in Hs.
    by apply not_true_is_false in Hs as ->.
Qed.

Lemma static_selection_witness :
  Cp2k.with_static
    (Sample.cp2k Sample.gcc true true Cp2k.libxsmm false Sample.no_constraint)
    "libxc:fortran" = "libxc:fortran,static" ∧
  Cp2k.with_static
    (Sample.cp2k Sample.gcc true true Cp2k.libxsmm false Sample.no_constraint)
    "fftw" = "fftw:static" ∧
  Cp2k.with_static
    (Sample.cp2k Sample.gcc false true Cp2k.libxsmm false Sample.no_constraint)
    "fftw" = "fftw" ∧
  Fftw.libs Sample.find_libraries
    (Fftw.mkPackage
       (Sample.fftw_spec (mkVersion 3 3 [7] "3.3.7") ["static"]) "/opt/fftw")
  = ["/opt/fftw/lib/libfftw3.a"] ∧
  Fftw.libs Sample.find_libraries Sample.fftw3 = ["/opt/fftw/lib/libfftw3.so"].
Proof.
  pose proof (static_selection
    (Sample.cp2k Sample.gcc true true Cp2k.libxsmm false Sample.no_constraint)
    "libxc:fortran" Sample.find_libraries
    (Fftw.mkPackage
       (Sample.fftw_spec (mkVersion 3 3 [7] "3.3.7") ["static"]) "/opt/fftw"))
    as (_ & Hcolon & _ & Hstatic & _).
  pose proof (static_selection
    (Sample.cp2k Sample.gcc true true Cp2k.libxsmm false Sample.no_constraint)
    "fftw" Sample.find_libraries Sample.fftw3)
    as (_ & _ & Hplain & _ & Hshared).
  pose proof (static_selection
    (Sample.cp2k Sample.gcc false true Cp2k.libxsmm false Sample.no_constraint)
    "fftw" Sample.find_libraries Sample.fftw3)
    as (Hoff & _).
  split; [|split; [|split; [|split]]].
  - apply Hcolon; [reflexivity|]. by exists "libxc", "fortran".
  - apply Hplain; [reflexivity|].
    intros Hq. apply str_in_substring in Hq. discriminate Hq.
  - apply Hoff. reflexivity.
  - rewrite Hstatic; [reflexivity|]. apply list_elem_of_In. simpl. by left.
  - rewrite Hshared; [reflexivity|]. by intros ?%elem_of_nil.
Defined.

(** On the sample dependencies the two halves meet: the query cp2k builds
    for fftw decides which library fftw's [libs] answers with. *)
Lemma static_round_trip_sample :
  dep_libs
    (Sample.dep
       (Cp2k.with_static
          (Sample.cp2k Sample.gcc true true Cp2k.libxsmm false
             Sample.no_constraint) "fftw"))
  = ["/opt/fftw/lib/libfftw3.a"] ∧
  dep_libs
    (Sample.dep
       (Cp2k.with_static
          (Sample.cp2k Sample.gcc false true Cp2k.libxsmm false
             Sample.no_constraint) "fftw"))
  = ["/opt/fftw/lib/libfftw3.so"].
Proof. split; vm_compute; reflexivity. Qed.

(** ** The make step of cp2k *)

Lemma chdir_inr {FS : Type} `{Platform FS} (path : string) (w w' : World FS) :
  chdir path w = inr w' →
  w' = mkWorld (env w) (path_join2 (cwd w) path) (fs w).
Proof.
  unfold chdir. destruct (isdir _ _); [|done]. by intros [= <-].
Qed.

Lemma call_inr {FS : Type} `{Platform FS} (cmd : string) (args : list string)
    (w w' : World FS) :
  call cmd args w = inr w' →
  run cmd args (env w) (cwd w) (fs w) = inr (fs w') ∧
  env w' = env w ∧ cwd w' = cwd w.
Proof.
  unfold call. intros (fs' & Hrun & [= <-])%bind_inr. by rewrite Hrun.
Qed.

Lemma chdir_inr_iff {FS : Type} `{Platform FS} (path : string)
    (w w' : World FS) :
  chdir path w = inr w' ↔
  isdir (fs w) (path_join2 (cwd w) path) = true ∧
  w' = mkWorld (env w) (path_join2 (cwd w) path) (fs w).
Proof.
  unfold chdir. destruct (isdir _ _); split.
  - by intros [= <-].
  - by intros [_ ->].
  - done.
  - by intros [? _].
Qed.

Lemma path_join2_absolute (path b : string) :
  startswith b "/" = true → path_join2 path b = b.
Proof. unfold path_join2. by intros ->. Qed.

(** What a command run inside a directory has done when it returns. *)
Lemma working_dir_call_inr {FS : Type} `{Platform FS} (d cmd : string)
    (args : list string) (w w' : World FS) :
  working_dir d (call cmd args) w = inr w' →
  isdir (fs w) (path_join2 (cwd w) d) = true ∧
  run cmd args (env w) (path_join2 (cwd w) d) (fs w) = inr (fs w') ∧
  env w' = env w ∧ cwd w' = path_join2 (path_join2 (cwd w) d) (cwd w).
Proof.
  unfold working_dir.
  intros (w1 & Hin & (w2 & Hbody & Hout)%bind_inr)%bind_inr.
  apply chdir_inr_iff in Hin as [Hdir ->].
  apply chdir_inr_iff in Hout as [_ ->].
  apply call_inr in Hbody as (Hrun & Henv & Hcwd).
  cbn [env cwd fs] in *. by rewrite Hcwd.
Qed.

(** C9: a run of the makefiles stage that completes leaves [env['PWD']] as
    it found it (the whole environment, in fact), although [make] itself ran
    with [PWD] set to the working directory inside [makefiles]. *)
Theorem cp2k_pwd_restored {FS : Type} `{Platform FS}
    (cp2k_architecture cp2k_version : string) (w w' : World FS) :
  Cp2k.makefiles_stage cp2k_architecture cp2k_version w = inr w' →
  env w' !! "PWD" = env w !! "PWD" ∧ env w' = env w ∧
  ∃ pwd_backup,
    env w !! "PWD" = Some pwd_backup ∧
    run "make"
      ["ARCH=" +:+ cp2k_architecture; "VERSION=" +:+ cp2k_version]
      (<["PWD" := path_join2 (cwd w) "makefiles"]> (env w))
      (path_join2 (cwd w) "makefiles") (fs w) = inr (fs w').
Proof.
  unfold Cp2k.makefiles_stage, working_dir.
  intros (w1 & Hin & (w2 & Hbody & Hout)%bind_inr)%bind_inr.
  apply chdir_inr in Hin as ->. apply chdir_inr in Hout as ->.
  apply bind_inr in Hbody as (pwd_backup & Hpwd & Hbody).
  apply bind_inr in Hbody as (w3 & Hmake & [= <-]).
  apply call_inr in Hmake as (Hrun & Henv & Hcwd).
  unfold env_getitem in Hpwd. simpl in *.
  destruct (env w !! "PWD") as [v|] eqn:Hv; [|done].
  injection Hpwd as <-.
  assert (<["PWD" := v]> (env w3) = env w) as Hrestored.
  { rewrite Henv, insert_insert_eq. by apply insert_id. }
  rewrite Hrestored. repeat split; [done|]. by exists v.
Qed.

Lemma cp2k_pwd_restored_witness :
  ∃ w' : World unit,
    Cp2k.makefiles_stage "linux-ubuntu16.04-x86_64-gcc" "popt"
      Sample.stage_world = inr w' ∧
    env w' !! "PWD" = env Sample.stage_world !! "PWD".
Proof.
  eexists. split; [reflexivity|].
  apply (cp2k_pwd_restored "linux-ubuntu16.04-x86_64-gcc" "popt"
           Sample.stage_world).
  reflexivity.
Defined.

(** ** Membership in appended lists *)

Lemma elem_of_app_l {A} (x : A) (l1 l2 : list A) : x ∈ l1 → x ∈ l1 ++ l2.
Proof. intros. apply elem_of_app. by left. Qed.

Lemma elem_of_app_r {A} (x : A) (l1 l2 : list A) : x ∈ l2 → x ∈ l1 ++ l2.
Proof. intros. apply elem_of_app. by right. Qed.

Lemma elem_of_ll_add_l {L : Type} `{LibraryListLaws L} (x : string) (a b : L) :
  x ∈ ll_files a → x ∈ ll_files (ll_add a b).
Proof. intros. apply elem_of_ll_add_seq. by left. Qed.

Lemma elem_of_ll_add_r {L : Type} `{LibraryListLaws L} (x : string) (a b : L) :
  x ∈ ll_files b → x ∈ ll_files (ll_add a b).
Proof. intros. apply elem_of_ll_add_seq. by right. Qed.

Lemma elem_of_ll_add {L : Type} `{LibraryListLaws L} (x : string) (a b : L) :
  x ∈ ll_files (ll_add a b) ↔ x ∈ ll_files a ∨ x ∈ ll_files b.
Proof. apply elem_of_ll_add_seq. Qed.

Lemma elem_of_ll_new_1 {L : Type} `{LibraryListLaws L} (x : string) :
  x ∈ ll_files (ll_new [x]).
Proof. apply elem_of_ll_new, list_elem_of_here. Qed.

Create HintDb elem discriminated.
#[local] Hint Resolve list_elem_of_here list_elem_of_further
  elem_of_app_l elem_of_app_r elem_of_ll_add_l elem_of_ll_add_r
  elem_of_ll_new_1 : elem.

(** ** The blocks of the cp2k recipe *)

Section Cp2kBlocks.
Import Cp2k Cp2kProps.
Context {L : Type} `{LibraryList L}.
Implicit Types (self : Package L) (l : Locals L) (s : Spec L).

Lemma contains_mpi s : contains "+mpi" s = mpi s.
Proof. reflexivity. Qed.
Lemma contains_no_mpi s : contains "~mpi" s = negb (mpi s).
Proof. reflexivity. Qed.
Lemma contains_libsmm s :
  contains "smm=libsmm" s = match smm s with libsmm => true | _ => false end.
Proof. reflexivity. Qed.
Lemma contains_libxsmm s :
  contains "smm=libxsmm" s = match smm s with libxsmm => true | _ => false end.
Proof. reflexivity. Qed.
Lemma contains_plumed s : contains "+plumed" s = plumed s.
Proof. reflexivity. Qed.
Lemma contains_intel s :
  contains "%intel" s = String.eqb (cname (compiler s)) "intel".
Proof. reflexivity. Qed.
Lemma contains_gcc s :
  contains "%gcc" s = String.eqb (cname (compiler s)) "gcc".
Proof. reflexivity. Qed.

(** The dictionary of optimisation flags has the two keys [gcc] and
    [intel]. *)
Lemma optflags_lookup (name : string) :
  optflags !! name
  = if String.eqb name "gcc"
    then Some ["-O2"; "-mtune=native"; "-funroll-loops"; "-ffast-math";
               "-ftree-vectorize"]
    else if String.eqb name "intel"
    then Some ["-O2"; "-ip"; "-pc64"; "-unroll"]
    else None.
Proof.
  unfold optflags.
  destruct (String.eqb_spec name "gcc") as [->|Hgcc].
  { by rewrite lookup_insert_eq. }
  rewrite lookup_insert_ne by done.
  destruct (String.eqb_spec name "intel") as [->|Hintel].
  { by rewrite lookup_insert_eq. }
  by rewrite lookup_insert_ne.
Qed.

Lemma optflags_dom : dom optflags = ({["gcc"; "intel"]} : gset string).
Proof.
  unfold optflags. by rewrite !dom_insert_L, dom_empty_L, union_empty_r_L.
Qed.

Lemma optflags_known (name : string) :
  name ∈ dom optflags ↔ name = "gcc" ∨ name = "intel".
Proof. rewrite optflags_dom. set_solver. Qed.

(** What [base_block] leaves in each channel. *)
Lemma base_block_spec self :
  let name := cname (compiler (spec self)) in
  match optflags !! name with
  | None => base_block self = inl (KeyError name)
  | Some opt =>
      ∃ l, base_block self = inr l ∧ mkf l = [] ∧ cppflags l = [] ∧
        ldflags l = [combined_search_flags self] ∧
        libs l = dep_libs (getitem (spec self) (with_static self "libint")) ∧
        dflags l
        = ["-D__DATA_DIR=" +:+ prefix_attr (prefix self) "data"; "-DNDEBUG";
           "-D__FFTW3"; "-D__LIBINT"; "-D__LIBINT_MAX_AM=6";
           "-D__LIBDERIV_MAX_AM1=5"; "-D__LIBXC"]
          ++ (if dag_contains (spec self) "^intel-mkl"
              then ["-D__FFTSG"] else [])
          ++ (if String.eqb name "intel"
              then ["-D__INTEL"; "-D__HAS_ISO_C_BINDING";
                    "-D__USE_CP2K_TRACE"; "-D__MKL"]
              else []) ∧
        cflags l
        = opt ++ (if String.eqb name "intel"
                  then ["-fp-model precise"] else []) ∧
        cxxflags l
        = opt ++ (if String.eqb name "intel"
                  then ["-fp-model precise"] else []) ∧
        fcflags l
        = opt ++ (if String.eqb name "intel"
                  then ["-fp-model source"; "-heap-arrays 64";
                        "-diag-disable 8290,8291,10010,10212,11060";
                        "-free"; "-fpp"]
                  else if String.eqb name "gcc"
                  then ["-ffree-form"; "-ffree-line-length-none"]
                  else [])
          ++ [dep_cpp_flags (fftw self); dep_cpp_flags (libxc self)]
  end.
Proof.
  intros name. unfold base_block, dict_getitem. fold name.
  destruct (optflags !! name) as [opt|] eqn:Hopt; [|done].
  simpl. rewrite contains_intel, contains_gcc. fold name.
  change (contains "^intel-mkl" (spec self))
    with (dag_contains (spec self) "^intel-mkl").
  destruct (dag_contains (spec self) "^intel-mkl"),
    (String.eqb name "intel"), (String.eqb name "gcc");
    simpl; eexists; (split; [reflexivity|]); simpl;
    rewrite ?app_nil_r; repeat split; by rewrite <- ?app_assoc.
Qed.

Lemma mpi_block_off self l : mpi (spec self) = false → mpi_block self l = l.
Proof. unfold mpi_block. rewrite contains_mpi. by intros ->. Qed.

Lemma define_of_elpa (t : string) : define_of OptMpi ("-D__ELPA=" +:+ t) = true.
Proof.
  unfold define_of. apply orb_true_iff. right. apply prefix_app. by exists t.
Qed.

(** What [mpi_block] adds when MPI is selected: defines of MPI at the end of
    [dflags], include flags at the end of [fcflags], the search flags of
    scalapack at the end of [ldflags] and possibly one flag in front, and
    libraries. *)
Lemma mpi_block_on self l :
  mpi (spec self) = true →
  ∃ ds fs,
    dflags (mpi_block self l) = dflags l ++ ds ∧
    Forall (λ d, define_of OptMpi d = true) ds ∧
    fcflags (mpi_block self l) = fcflags l ++ fs ∧
    ldflags (mpi_block self l)
    = ldflags_prepended self ++ ldflags l
      ++ [search_flags
            (dep_libs (getitem (spec self) (with_static self "scalapack")))] ∧
    cppflags (mpi_block self l) = cppflags l ∧
    cflags (mpi_block self l) = cflags l ∧
    cxxflags (mpi_block self l) = cxxflags l ∧
    mkf (mpi_block self l) = mkf l ∧
    (LibraryListLaws L →
     ∀ f, f ∈ ll_files (libs l) → f ∈ ll_files (libs (mpi_block self l))) ∧
    Forall (λ f, ∃ t, f = "-I" +:+ t) fs.
Proof.
  intros Hmpi. unfold mpi_block, ldflags_prepended.
  rewrite contains_mpi, Hmpi. cbv beta iota zeta.
  generalize (contains "^mpi@3:" (spec self)),
    (contains "^mpi@2:" (spec self)),
    (ver_upto [4; 999] (version (spec self))),
    (ver_upto [2014; 5; 999]
       (dep_version (getitem (spec self) (with_static self "elpa")))),
    (ver_range [2014; 6] [2015; 10; 999]
       (dep_version (getitem (spec self) (with_static self "elpa")))),
    (contains "superlu-dist@4.3" (spec self)),
    (contains "wannier90" (spec self)).
  intros [] [] [] [] [] [] [];
    cbv beta iota zeta;
    cbn [dflags fcflags ldflags cppflags cflags cxxflags mkf libs andb];
    rewrite <- ?app_assoc;
    (eexists; eexists; split; [reflexivity|]);
    (split;
     [repeat (constructor; [first [reflexivity|apply define_of_elpa]|]);
      constructor|]);
    (split; [reflexivity|]); (repeat split);
    first [ intros Hlaws f Hf; unfold ll_add;
            repeat (apply elem_of_ll_add_seq; left); exact Hf
          | repeat (constructor; [eexists; reflexivity|]); constructor ].
Qed.

(** [smm_block] raises for [smm=libsmm] without a usable [LIBSMM_PATH], and
    otherwise extends the channels by what the selected library needs. *)
Lemma smm_block_spec self (environ : gmap string string)
    (os_path_isfile : string → bool) l :
  smm_block self environ os_path_isfile l
  = match smm (spec self) with
    | libsmm =>
        match environ !! "LIBSMM_PATH" with
        | None => inl (KeyError libsmm_unset_msg)
        | Some p =>
            if os_path_isfile p
            then inr (mkLocals
                        (dflags l ++ ["-D__HAS_smm_dnn"; "-D__HAS_smm_vec"])
                        (cppflags l) (cflags l) (cxxflags l) (fcflags l)
                        (ldflags l) (ll_add (libs l) (ll_new [p])) (mkf l))
            else inl (IOError libsmm_missing_msg)
        end
    | libxsmm =>
        inr (mkLocals (dflags l ++ ["-D__LIBXSMM"]) (cppflags l) (cflags l)
               (cxxflags l)
               (fcflags l ++ [dep_cpp_flags (getitem (spec self) "libxsmm")])
               (ldflags l
                ++ [search_flags (dep_libs (getitem (spec self) "libxsmm"))])
               (ll_add (libs l) (dep_libs (getitem (spec self) "libxsmm")))
               (mkf l))
    | none => inr l
    end.
Proof.
  unfold smm_block. rewrite contains_libsmm, contains_libxsmm.
  destruct (smm (spec self)); try reflexivity.
  destruct (environ !! "LIBSMM_PATH") as [p|]; [|reflexivity].
  simpl. by destruct (os_path_isfile p).
Qed.

Lemma plumed_block_spec self l :
  plumed_block self l
  = if plumed (spec self)
    then mkLocals (dflags l ++ ["-D__PLUMED2"]) (cppflags l) (cflags l)
           (cxxflags l) (fcflags l) (ldflags l)
           (ll_add (libs l) (dep_libs (getitem (spec self) "plumed")))
           (mkf l ++ [plumed_include self +:+ nl +:+ nl])
    else l.
Proof.
  unfold plumed_block, plumed_include. rewrite contains_plumed.
  destruct (plumed (spec self)); [|done].
  reflexivity.
Qed.

(** [write_makefile] returns exactly when [base_block] and [smm_block] do. *)
Lemma write_makefile_inr self (environ : gmap string string)
    (os_path_isfile : string → bool) (frag : Fragment L) :
  write_makefile self environ os_path_isfile = inr frag ↔
  ∃ l0 l2,
    base_block self = inr l0 ∧
    smm_block self environ os_path_isfile (mpi_block self l0) = inr l2 ∧
    frag = mkFragment
             (join_path "arch"
                [join "." [architecture (spec self) +:+ "-"
                             +:+ cname (compiler (spec self));
                           if mpi (spec self) then "popt" else "sopt"]])
             (architecture (spec self) +:+ "-" +:+ cname (compiler (spec self)))
             (if mpi (spec self) then "popt" else "sopt")
             (emit_block self (plumed_block self l2)).
Proof.
  unfold write_makefile. rewrite contains_no_mpi, bind_inr.
  split.
  - intros (l0 & Hbase & (l2 & Hsmm & [= <-])%bind_inr).
    exists l0, l2. by destruct (mpi (spec self)).
  - intros (l0 & l2 & Hbase & Hsmm & ->). exists l0. split; [done|].
    apply bind_inr. exists l2. split; [done|].
    by destruct (mpi (spec self)).
Qed.

Lemma write_makefile_inl self (environ : gmap string string)
    (os_path_isfile : string → bool) (e : exn) :
  write_makefile self environ os_path_isfile = inl e ↔
  base_block self = inl e ∨
  ∃ l0, base_block self = inr l0 ∧
    smm_block self environ os_path_isfile (mpi_block self l0) = inl e.
Proof.
  unfold write_makefile. rewrite bind_inl.
  split; (intros [?|(l0 & Hbase & Hrest)]; [by left|right]);
    exists l0; (split; [done|]).
  - apply bind_inl in Hrest as [?|(l2 & _ & ?)]; done.
  - apply bind_inl. by left.
Qed.

(** What [emit_block] leaves in each channel and writes. *)
Lemma emit_block_spec self l :
  let fc := if mpi (spec self) then dep_mpifc (getitem (spec self) "mpi")
            else py_str (fc (compiler (spec self))) in
  let intel := String.eqb (cname (compiler (spec self))) "intel" in
  let e := emit_block self l in
  dflags e = dflags l ∧
  cppflags e = cppflags l ++ dflags l ∧
  cflags e = cflags l ++ cppflags e ∧
  cxxflags e = cxxflags l ++ cppflags e ∧
  fcflags e = fcflags l ++ cppflags e ∧
  ldflags e = ldflags l ∧
  libs e
  = ll_add (libs l)
      (ll_add (ll_add (ll_add (dep_libs (libxc self)) (dep_libs (fftw self)))
                 (lapack self)) (blas self)) ∧
  mkf e
  = mkf l
    ++ ["CC = " +:+ cc (compiler (spec self)) +:+ nl;
        "CPP = # " +:+ cc (compiler (spec self))
          +:+ (if intel then " -P" else " -E") +:+ nl;
        "AR = " +:+ (if intel then "xiar -r" else "ar -r") +:+ nl;
        "FC = " +:+ fc +:+ nl;
        "LD = " +:+ fc +:+ nl +:+ nl;
        "DFLAGS = " +:+ join " " (dflags e) +:+ nl +:+ nl;
        "CPPFLAGS = " +:+ join " " (cppflags e) +:+ nl +:+ nl;
        "CFLAGS = " +:+ join " " (cflags e) +:+ nl +:+ nl;
        "CXXFLAGS = " +:+ join " " (cxxflags e) +:+ nl +:+ nl;
        "FCFLAGS = " +:+ join " " (fcflags e) +:+ nl +:+ nl;
        "LDFLAGS = " +:+ join " " (ldflags e) +:+ nl +:+ nl]
    ++ (if intel
        then ["LDFLAGS_C = " +:+ (join " " (ldflags e) +:+ " -nofor_main")
                +:+ nl +:+ nl]
        else [])
    ++ ["LIBS = " +:+ join " " (ll_files (libs e)) +:+ nl +:+ nl].
Proof.
  unfold emit_block. rewrite contains_intel, contains_no_mpi.
  cbv zeta. cbn [dflags cppflags cflags cxxflags fcflags ldflags libs mkf].
  repeat split.
  generalize (String.eqb (cname (compiler (spec self))) "intel").
  generalize (mpi (spec self)).
  intros [] []; cbn [negb]; rewrite <- ?app_assoc; try reflexivity.
Qed.

End Cp2kBlocks.

(** ** Errors of the cp2k recipe *)

Section Cp2kErrors.
Import Cp2k Cp2kProps.
Context {L : Type} `{LibraryList L}.
Implicit Types (self : Package L).

(** How [write_makefile] ends: on a [KeyError] of the compiler name, on one
    of the two errors about [LIBSMM_PATH], or with the fragment. *)
Lemma write_makefile_cases self (environ : gmap string string)
    (os_path_isfile : string → bool) :
  let name := cname (compiler (spec self)) in
  match optflags !! name with
  | None => write_makefile self environ os_path_isfile = inl (KeyError name)
  | Some _ =>
      ∃ l0, base_block self = inr l0 ∧
        match smm_block self environ os_path_isfile (mpi_block self l0) with
        | inl e =>
            write_makefile self environ os_path_isfile = inl e ∧
            smm (spec self) = libsmm ∧
            ((environ !! "LIBSMM_PATH" = None ∧ e = KeyError libsmm_unset_msg)
             ∨ (∃ p, environ !! "LIBSMM_PATH" = Some p ∧
                  os_path_isfile p = false ∧ e = IOError libsmm_missing_msg))
        | inr l2 =>
            ∃ frag, write_makefile self environ os_path_isfile = inr frag ∧
              locals frag = emit_block self (plumed_block self l2)
        end
  end.
Proof.
  intros name. pose proof (base_block_spec self) as Hbase.
  cbv zeta in Hbase. fold name in Hbase.
  destruct (optflags !! name) as [opt|].
  - destruct Hbase as (l0 & Hbase & _). exists l0. split; [done|].
    destruct (smm_block _ _ _ _) as [e|l2] eqn:Hsmm.
    + split; [apply write_makefile_inl; eauto|].
      rewrite smm_block_spec in Hsmm.
      destruct (smm (spec self)); try done. split; [done|].
      destruct (environ !! "LIBSMM_PATH") as [p|]; [|left; by simplify_eq].
      right. exists p. destruct (os_path_isfile p); by simplify_eq.
    + eexists. split; [apply write_makefile_inr; eauto|done].
  - apply write_makefile_inl. by left.
Qed.

End Cp2kErrors.

(** ** More on the blocks of the cp2k recipe *)

Section Cp2kMoreBlocks.
Import Cp2k Cp2kProps.
Context {L : Type} `{LibraryList L}.
Implicit Types (self : Package L) (l : Locals L).

(** The defines of [mpi_block] in closed form. *)
Lemma mpi_block_dflags self l :
  mpi (spec self) = true →
  dflags (mpi_block self l)
  = dflags l
    ++ (if contains "^mpi@3:" (spec self) then ["-D__MPI_VERSION=3"]
        else if contains "^mpi@2:" (spec self) then ["-D__MPI_VERSION=2"]
        else [])
    ++ ["-D__parallel"; "-D__LIBPEXSI"; "-D__SCALAPACK"]
    ++ [if ver_upto [4; 999] (version (spec self)) then
          if ver_upto [2014; 5; 999]
               (dep_version (getitem (spec self) (with_static self "elpa")))
          then "-D__ELPA"
          else if ver_range [2014; 6] [2015; 10; 999]
                    (dep_version
                       (getitem (spec self) (with_static self "elpa")))
          then "-D__ELPA2" else "-D__ELPA3"
        else
          "-D__ELPA="
          +:+ str_of_nat
                (vmajor (dep_version
                           (getitem (spec self) (with_static self "elpa"))))
          +:+ format_02d
                (vminor (dep_version
                           (getitem (spec self) (with_static self "elpa"))))]
    ++ (if contains "wannier90" (spec self) then ["-D__WANNIER90"] else []).
Proof.
  intros Hmpi. unfold mpi_block. rewrite contains_mpi, Hmpi.
  cbv beta iota zeta.
  generalize (contains "^mpi@3:" (spec self)),
    (contains "^mpi@2:" (spec self)),
    (ver_upto [4; 999] (version (spec self))),
    (ver_upto [2014; 5; 999]
       (dep_version (getitem (spec self) (with_static self "elpa")))),
    (ver_range [2014; 6] [2015; 10; 999]
       (dep_version (getitem (spec self) (with_static self "elpa")))),
    (contains "superlu-dist@4.3" (spec self)),
    (contains "wannier90" (spec self)).
  intros [] [] [] [] [] [] []; cbv beta iota zeta; cbn [dflags];
    rewrite <- ?app_assoc; reflexivity.
Qed.

(** The libraries of [mpi_block] in closed form. *)
Lemma mpi_block_libs self l :
  mpi (spec self) = true →
  libs (mpi_block self l)
  = let spec := spec self in
    let linked :=
      ll_add (libs l)
        (ll_add_seq
           (ll_add (ll_add (ll_add (ll_add (ll_add (ll_add
              (dep_libs (getitem spec (with_static self "elpa")))
              (dep_libs (getitem spec "pexsi")))
              (dep_libs (getitem spec "superlu-dist")))
              (dep_libs (getitem spec "parmetis")))
              (dep_libs (getitem spec "metis")))
              (dep_libs (getitem spec (with_static self "scalapack"))))
              (dep_libs (getitem spec (with_static self "mpi:cxx"))))
           (stdcxx_libs (compiler spec))) in
    if contains "wannier90" spec
    then ll_add linked
           (ll_new [join_path
                      (prefix_attr (dep_prefix (getitem spec "wannier90"))
                         "lib") ["libwannier.a"]])
    else linked.
Proof.
  intros Hmpi. unfold mpi_block. rewrite contains_mpi, Hmpi.
  cbv beta iota zeta.
  generalize (contains "^mpi@3:" (spec self)),
    (contains "^mpi@2:" (spec self)),
    (ver_upto [4; 999] (version (spec self))),
    (ver_upto [2014; 5; 999]
       (dep_version (getitem (spec self) (with_static self "elpa")))),
    (ver_range [2014; 6] [2015; 10; 999]
       (dep_version (getitem (spec self) (with_static self "elpa")))),
    (contains "superlu-dist@4.3" (spec self)),
    (contains "wannier90" (spec self)).
  intros [] [] [] [] [] [] []; reflexivity.
Qed.

(** What the blocks after [mpi_block] do to the defines. *)
Lemma later_blocks_dflags self (environ : gmap string string)
    (os_path_isfile : string → bool) l l2 :
  smm_block self environ os_path_isfile l = inr l2 →
  dflags (emit_block self (plumed_block self l2))
  = dflags l
    ++ (match smm (spec self) with
        | libxsmm => ["-D__LIBXSMM"]
        | libsmm => ["-D__HAS_smm_dnn"; "-D__HAS_smm_vec"]
        | none => []
        end)
    ++ (if plumed (spec self) then ["-D__PLUMED2"] else []).
Proof.
  rewrite smm_block_spec, plumed_block_spec. intros Hsmm.
  destruct (emit_block_spec self
              (if plumed (spec self)
               then mkLocals (dflags l2 ++ ["-D__PLUMED2"]) (cppflags l2)
                      (cflags l2) (cxxflags l2) (fcflags l2) (ldflags l2)
                      (ll_add (libs l2)
                         (dep_libs (getitem (spec self) "plumed")))
                      (mkf l2 ++ [plumed_include self +:+ nl +:+ nl])
               else l2)) as (-> & _).
  destruct (smm (spec self)); repeat case_match; simplify_eq;
    cbn [dflags]; by rewrite <- ?app_assoc, ?app_nil_r.
Qed.

(** The channels that only [base_block] and [emit_block] touch. *)
Lemma compile_channels self (environ : gmap string string)
    (os_path_isfile : string → bool) (frag : Fragment L) :
  write_makefile self environ os_path_isfile = inr frag →
  ∃ l0, base_block self = inr l0 ∧
    cflags (locals frag) = cflags l0 ++ dflags (locals frag) ∧
    cxxflags (locals frag) = cxxflags l0 ++ dflags (locals frag) ∧
    ∃ fs, fcflags (locals frag) = fcflags l0 ++ fs.
Proof.
  intros (l0 & l2 & Hbase & Hsmm & ->)%write_makefile_inr. exists l0.
  split; [done|]. cbn [locals].
  pose proof (base_block_spec self) as Hspec. cbv zeta in Hspec.
  destruct (optflags !! _); [|congruence].
  destruct Hspec as (l0' & Hbase' & _ & Hcpp & _).
  rewrite Hbase in Hbase'. injection Hbase' as <-.
  assert (cppflags (mpi_block self l0) = cppflags l0 ∧
          cflags (mpi_block self l0) = cflags l0 ∧
          cxxflags (mpi_block self l0) = cxxflags l0 ∧
          ∃ fs, fcflags (mpi_block self l0) = fcflags l0 ++ fs)
    as (Hcpp1 & Hc1 & Hcxx1 & fs1 & Hfc1).
  { destruct (mpi (spec self)) eqn:Hm.
    - destruct (mpi_block_on self l0 Hm)
        as (? & fs & _ & _ & Hfc & _ & Hcpp' & Hc & Hcxx & _). eauto 10.
    - rewrite mpi_block_off by done. repeat split. exists [].
      by rewrite app_nil_r. }
  destruct (emit_block_spec self (plumed_block self l2))
    as (Hd & Hcppe & Hce & Hcxxe & Hfce & _).
  rewrite Hce, Hcxxe, Hfce, Hcppe, Hd.
  rewrite plumed_block_spec. rewrite smm_block_spec in Hsmm.
  destruct (smm (spec self)), (plumed (spec self)); repeat case_match;
    simplify_eq; cbn [cflags cxxflags fcflags cppflags dflags];
    rewrite Hcpp1, Hc1, Hcxx1, Hfc1, Hcpp, ?app_nil_l;
    (split; [done|]); (split; [done|]);
    rewrite <- ?app_assoc; eauto.
Qed.

(** The include flags [mpi_block] appends to the Fortran flags. *)
Lemma mpi_block_fcflags self l :
  mpi (spec self) = true →
  fcflags (mpi_block self l)
  = fcflags l
    ++ (if ver_upto [4; 999] (version (spec self)) then []
        else ["-I" +:+ elpa_include
                         (getitem (spec self) (with_static self "elpa"))
                         "elpa"])
    ++ ["-I" +:+ elpa_include (getitem (spec self) (with_static self "elpa"))
                   "modules";
        "-I" +:+ join_path (dep_prefix (getitem (spec self) "pexsi"))
                   ["fortran"]].
Proof.
  intros Hmpi. unfold mpi_block. rewrite contains_mpi, Hmpi.
  cbv beta iota zeta.
  generalize (contains "^mpi@3:" (spec self)),
    (contains "^mpi@2:" (spec self)),
    (ver_upto [4; 999] (version (spec self))),
    (ver_upto [2014; 5; 999]
       (dep_version (getitem (spec self) (with_static self "elpa")))),
    (ver_range [2014; 6] [2015; 10; 999]
       (dep_version (getitem (spec self) (with_static self "elpa")))),
    (contains "superlu-dist@4.3" (spec self)),
    (contains "wannier90" (spec self)).
  intros [] [] [] [] [] [] []; cbv beta iota zeta; cbn [fcflags];
    rewrite <- ?app_assoc; reflexivity.
Qed.

(** The blocks after [mpi_block] leave the Fortran flags but for the
    header flags of libxsmm. *)
Lemma later_blocks_fcflags self (environ : gmap string string)
    (os_path_isfile : string → bool) l l2 :
  smm_block self environ os_path_isfile l = inr l2 →
  fcflags (plumed_block self l2)
  = fcflags l
    ++ (match smm (spec self) with
        | libxsmm => [dep_cpp_flags (getitem (spec self) "libxsmm")]
        | _ => []
        end) ∧
  cppflags (plumed_block self l2) = cppflags l ∧
  cflags (plumed_block self l2) = cflags l ∧
  cxxflags (plumed_block self l2) = cxxflags l.
Proof.
  rewrite smm_block_spec, plumed_block_spec. intros Hsmm.
  destruct (smm (spec self)), (plumed (spec self)); repeat case_match;
    simplify_eq; cbn [fcflags cppflags cflags cxxflags];
    by rewrite ?app_nil_r.
Qed.

(** The flag channels of a fragment are the flags in append order. *)
Lemma write_makefile_closed self (environ : gmap string string)
    (os_path_isfile : string → bool) (frag : Fragment L) :
  write_makefile self environ os_path_isfile = inr frag →
  dflags (locals frag) = dflags_appended self ∧
  cppflags (locals frag) = dflags_appended self ∧
  cflags (locals frag) = cflags_appended self ∧
  cxxflags (locals frag) = cflags_appended self ∧
  fcflags (locals frag) = fcflags_appended self.
Proof.
  intros (l0 & l2 & Hbase & Hsmm & ->)%write_makefile_inr. cbn [locals].
  pose proof (base_block_spec self) as Hspec. cbv zeta in Hspec.
  destruct (optflags !! cname (compiler (spec self))) as [opt|] eqn:Hopt;
    [|congruence].
  destruct Hspec
    as (l0' & Hbase' & _ & Hcpp0 & _ & _ & Hd0 & Hc0 & Hcxx0 & Hfc0).
  rewrite Hbase in Hbase'. injection Hbase' as <-.
  assert (dflags (emit_block self (plumed_block self l2))
          = dflags_appended self) as Hd.
  { rewrite (later_blocks_dflags self environ os_path_isfile _ l2 Hsmm).
    unfold dflags_appended. cbv zeta.
    destruct (mpi (spec self)) eqn:Hm.
    - rewrite mpi_block_dflags by done. rewrite Hd0. unfold mpi_defines.
      cbv zeta. rewrite <- !app_assoc. reflexivity.
    - rewrite mpi_block_off by done. rewrite Hd0.
      rewrite <- !app_assoc. reflexivity. }
  destruct (later_blocks_fcflags self environ os_path_isfile _ l2 Hsmm)
    as (Hfc2 & Hcpp2 & Hc2 & Hcxx2).
  assert (cppflags (mpi_block self l0) = [] ∧
          cflags (mpi_block self l0) = cflags l0 ∧
          cxxflags (mpi_block self l0) = cxxflags l0) as (Hcpp1 & Hc1 & Hcxx1).
  { destruct (mpi (spec self)) eqn:Hm.
    - destruct (mpi_block_on self l0 Hm)
        as (? & ? & _ & _ & _ & _ & -> & -> & -> & _). by rewrite Hcpp0.
    - by rewrite mpi_block_off. }
  destruct (emit_block_spec self (plumed_block self l2))
    as (Hde & Hcppe & Hce & Hcxxe & Hfce & _).
  rewrite <- Hde, Hd, Hcpp2, Hcpp1, app_nil_l in Hcppe.
  rewrite Hce, Hcxxe, Hfce, Hcppe, Hc2, Hcxx2, Hfc2, Hc1, Hcxx1, Hc0, Hcxx0.
  split; [done|]. split; [done|].
  unfold cflags_appended, fcflags_appended. cbv zeta.
  rewrite Hopt. cbn [default from_option].
  rewrite contains_intel, contains_gcc.
  split; [by rewrite <- !app_assoc|]. split; [by rewrite <- !app_assoc|].
  destruct (mpi (spec self)) eqn:Hm.
  - rewrite mpi_block_fcflags by done. rewrite Hfc0.
    rewrite <- !app_assoc. reflexivity.
  - rewrite mpi_block_off by done. rewrite Hfc0.
    rewrite <- !app_assoc. reflexivity.
Qed.

(** The library list of a fragment: what [mpi_block] left, the
    small-matrix library, and what the later blocks add. *)
Lemma write_makefile_libs self (environ : gmap string string)
    (os_path_isfile : string → bool) (frag : Fragment L) :
  write_makefile self environ os_path_isfile = inr frag →
  ∃ l0, base_block self = inr l0 ∧
    libs l0 = dep_libs (getitem (spec self) (with_static self "libint")) ∧
    libs (locals frag)
    = libs_after_smm self
        (match smm (spec self) with
         | libsmm =>
             match environ !! "LIBSMM_PATH" with
             | Some p => ll_add (libs (mpi_block self l0)) (ll_new [p])
             | None => libs (mpi_block self l0)
             end
         | libxsmm =>
             ll_add (libs (mpi_block self l0))
               (dep_libs (getitem (spec self) "libxsmm"))
         | none => libs (mpi_block self l0)
         end).
Proof.
  intros (l0 & l2 & Hbase & Hsmm & ->)%write_makefile_inr. exists l0.
  split; [done|]. cbn [locals].
  pose proof (base_block_spec self) as Hspec. cbv zeta in Hspec.
  destruct (optflags !! _); [|congruence].
  destruct Hspec as (l0' & Hbase' & _ & _ & _ & Hlibs & _).
  rewrite Hbase in Hbase'. injection Hbase' as <-. split; [done|].
  destruct (emit_block_spec self (plumed_block self l2))
    as (_ & _ & _ & _ & _ & _ & -> & _).
  rewrite plumed_block_spec. rewrite smm_block_spec in Hsmm.
  unfold libs_after_smm.
  destruct (smm (spec self)), (plumed (spec self)); repeat case_match;
    simplify_eq; reflexivity.
Qed.

(** The assignments of the flag channels are written to the makefile. *)
Lemma write_makefile_flag_lines self (environ : gmap string string)
    (os_path_isfile : string → bool) (frag : Fragment L) :
  write_makefile self environ os_path_isfile = inr frag →
  let l := locals frag in
  "DFLAGS = " +:+ join " " (dflags l) +:+ nl +:+ nl ∈ mkf l ∧
  "CPPFLAGS = " +:+ join " " (cppflags l) +:+ nl +:+ nl ∈ mkf l ∧
  "CFLAGS = " +:+ join " " (cflags l) +:+ nl +:+ nl ∈ mkf l ∧
  "CXXFLAGS = " +:+ join " " (cxxflags l) +:+ nl +:+ nl ∈ mkf l ∧
  "FCFLAGS = " +:+ join " " (fcflags l) +:+ nl +:+ nl ∈ mkf l ∧
  "LDFLAGS = " +:+ join " " (ldflags l) +:+ nl +:+ nl ∈ mkf l ∧
  "LIBS = " +:+ join " " (ll_files (libs l)) +:+ nl +:+ nl ∈ mkf l.
Proof.
  intros (l0 & l2 & Hbase & Hsmm & ->)%write_makefile_inr. cbn [locals].
  cbv zeta.
  destruct (emit_block_spec self (plumed_block self l2))
    as (_ & _ & _ & _ & _ & _ & _ & Hmkf).
  generalize dependent (emit_block self (plumed_block self l2)).
  intros e ->. repeat split; eauto 20 with elem.
Qed.

End Cp2kMoreBlocks.

Section Cp2kMoreLibs.
Import Cp2k Cp2kProps.
Context {L : Type} `{LibraryListLaws L}.
Implicit Types (self : Package L) (l : Locals L).

Lemma elem_of_ll_add_seq_l (x : string) (a : L) (k : list string) :
  x ∈ ll_files a → x ∈ ll_files (ll_add_seq a k).
Proof. intros. apply elem_of_ll_add_seq. by left. Qed.

Lemma elem_of_ll_add_seq_r (x : string) (a : L) (k : list string) :
  x ∈ k → x ∈ ll_files (ll_add_seq a k).
Proof. intros. apply elem_of_ll_add_seq. by right. Qed.

(** The blocks after [mpi_block] drop no library. *)
Lemma later_blocks_libs self (environ : gmap string string)
    (os_path_isfile : string → bool) l l2 (f : string) :
  smm_block self environ os_path_isfile l = inr l2 →
  f ∈ ll_files (libs l) →
  f ∈ ll_files (libs (emit_block self (plumed_block self l2))).
Proof.
  intros Hsmm Hf.
  destruct (emit_block_spec self (plumed_block self l2))
    as (_ & _ & _ & _ & _ & _ & -> & _).
  rewrite plumed_block_spec. rewrite smm_block_spec in Hsmm.
  destruct (smm (spec self)), (plumed (spec self)); repeat case_match;
    simplify_eq; cbn [libs]; eauto 10 with elem.
Qed.

(** The libraries [mpi_block] links. *)
Lemma mpi_block_links self l (f : string) :
  mpi (spec self) = true →
  (∃ q, q ∈ [with_static self "elpa"; "pexsi"; "superlu-dist"; "parmetis";
             "metis"; with_static self "scalapack";
             with_static self "mpi:cxx"] ∧
        f ∈ ll_files (dep_libs (getitem (spec self) q)))
  ∨ f ∈ stdcxx_libs (compiler (spec self))
  ∨ (contains "wannier90" (spec self) = true ∧
     f = join_path
           (prefix_attr (dep_prefix (getitem (spec self) "wannier90")) "lib")
           ["libwannier.a"]) →
  f ∈ ll_files (libs (mpi_block self l)).
Proof.
  intros Hmpi Hf. rewrite mpi_block_libs by done. cbv zeta.
  assert (f ∈ ll_files
            (ll_add (libs l)
               (ll_add_seq
                  (ll_add (ll_add (ll_add (ll_add (ll_add (ll_add
                     (dep_libs (getitem (spec self)
                                  (with_static self "elpa")))
                     (dep_libs (getitem (spec self) "pexsi")))
                     (dep_libs (getitem (spec self) "superlu-dist")))
                     (dep_libs (getitem (spec self) "parmetis")))
                     (dep_libs (getitem (spec self) "metis")))
                     (dep_libs (getitem (spec self)
                                  (with_static self "scalapack"))))
                     (dep_libs (getitem (spec self)
                                  (with_static self "mpi:cxx"))))
                  (stdcxx_libs (compiler (spec self)))))
          ∨ (contains "wannier90" (spec self) = true ∧
             f = join_path
                   (prefix_attr
                      (dep_prefix (getitem (spec self) "wannier90")) "lib")
                   ["libwannier.a"])) as [Hin|[Hw ->]].
  { destruct Hf as [(q & Hq & Hf)|[Hf|Hf]]; [|left|by right].
    - left. apply elem_of_ll_add_r, elem_of_ll_add_seq_l.
      repeat (apply elem_of_cons in Hq as [->|Hq]);
        [eauto 10 with elem..|by apply elem_of_nil in Hq].
    - by apply elem_of_ll_add_r, elem_of_ll_add_seq_r. }
  - destruct (contains "wannier90" (spec self)); eauto with elem.
  - rewrite Hw. eauto with elem.
Qed.

End Cp2kMoreLibs.

(** ** The library list of a fragment *)

Section Cp2kLinked.
Import Cp2k Cp2kProps.
Context {L : Type} `{LibraryList L}.
Implicit Types (self : Package L) (l : Locals L).

(** Whatever relates library lists to lists of files along the construction
    of library lists, relates the library list of a fragment to the files in
    the order [install] names them. *)
Lemma libs_appended_related (R : L → list string → Prop) self
    (environ : gmap string string) (os_path_isfile : string → bool)
    (frag : Fragment L) :
  (∀ a, R a (ll_files a)) →
  (∀ k, R (ll_new k) k) →
  (∀ a k A, R a A → R (ll_add_seq a k) (A ++ k)) →
  (∀ a b A B, R a A → R b B → R (ll_add a b) (A ++ B)) →
  write_makefile self environ os_path_isfile = inr frag →
  R (libs (locals frag)) (libs_appended self environ).
Proof.
  intros Hfiles Hnew Hseq Hadd Hfrag.
  assert (∀ a A B, R a A → A = B → R a B) as Heq by (intros; by subst).
  destruct (write_makefile_libs self environ os_path_isfile frag Hfrag)
    as (l0 & Hbase & Hl0 & ->).
  assert (R (libs (mpi_block self l0)) (linked_before_smm self)) as Hm.
  { unfold linked_before_smm. destruct (mpi (spec self)) eqn:Hmpi.
    - rewrite mpi_block_libs by done. cbv zeta. rewrite Hl0.
      unfold mpi_files. cbv zeta.
      destruct (contains "wannier90" (spec self));
        (eapply Heq;
         [repeat first [apply Hadd|apply Hseq|apply Hnew|apply Hfiles]|]);
        rewrite <- ?app_assoc, ?app_nil_r; reflexivity.
    - rewrite mpi_block_off by done. rewrite Hl0, app_nil_r. apply Hfiles. }
  assert (R (match smm (spec self) with
             | libsmm =>
                 match environ !! "LIBSMM_PATH" with
                 | Some p => ll_add (libs (mpi_block self l0)) (ll_new [p])
                 | None => libs (mpi_block self l0)
                 end
             | libxsmm =>
                 ll_add (libs (mpi_block self l0))
                   (dep_libs (getitem (spec self) "libxsmm"))
             | none => libs (mpi_block self l0)
             end)
            (linked_before_smm self ++ linked_by_smm self environ)) as Hs.
  { unfold linked_by_smm. destruct (smm (spec self)).
    - apply Hadd; [done|apply Hfiles].
    - destruct (environ !! "LIBSMM_PATH").
      + apply Hadd; [done|apply Hnew].
      + by rewrite app_nil_r.
    - by rewrite app_nil_r. }
  unfold libs_after_smm, libs_appended, linked_after_smm.
  destruct (plumed (spec self));
    (eapply Heq;
     [repeat first [exact Hs|apply Hadd|apply Hfiles]|]);
    rewrite <- ?app_assoc; reflexivity.
Qed.

(** Under the membership laws, the library list of a fragment holds the
    files that were named. *)
Lemma write_makefile_files_members `{!LibraryListLaws L} self
    (environ : gmap string string) (os_path_isfile : string → bool)
    (frag : Fragment L) :
  write_makefile self environ os_path_isfile = inr frag →
  holds_files_of (libs (locals frag)) (libs_appended self environ).
Proof.
  apply (libs_appended_related holds_files_of);
    auto using members_files, members_new, members_add_seq, members_add.
Qed.

(** Under the order laws, it holds them in the order they were named. *)
Lemma write_makefile_files_order `{!LibraryListOrder L} self
    (environ : gmap string string) (os_path_isfile : string → bool)
    (frag : Fragment L) :
  write_makefile self environ os_path_isfile = inr frag →
  ll_files (libs (locals frag))
  = FileList.dedupe (libs_appended self environ).
Proof.
  intros Hfrag.
  assert (holds_in_order (libs (locals frag)) (libs_appended self environ))
    as Hheld.
  { revert Hfrag. apply (libs_appended_related holds_in_order);
      auto using holds_files, holds_new, holds_add_seq, holds_add. }
  destruct (write_makefile_libs self environ os_path_isfile frag Hfrag)
    as (l0 & _ & _ & Hlibs).
  unfold holds_in_order in Hheld. rewrite <- Hheld, Hlibs.
  unfold libs_after_smm, ll_add. by rewrite ll_files_add_seq, dedupe_idemp.
Qed.

(** Without MPI the files named for linking are the serial libraries. *)
Lemma serial_library_iff self (environ : gmap string string) (f : string) :
  mpi (spec self) = false →
  f ∈ libs_appended self environ ↔ serial_library self environ f.
Proof.
  intros Hmpi.
  unfold libs_appended, linked_before_smm, linked_by_smm, linked_after_smm,
    serial_library.
  rewrite Hmpi, app_nil_r, !elem_of_app.
  destruct (smm (spec self)), (plumed (spec self));
    try destruct (environ !! "LIBSMM_PATH") as [p|];
    rewrite ?list_elem_of_singleton, ?elem_of_nil;
    split; intros Hf; decompose [and or] Hf; simplify_eq; tauto.
Qed.

End Cp2kLinked.


(** C2: the mapping of optimisation flags lists exactly [gcc] and [intel].
    For a compiler outside it the makefile step raises [KeyError] of the
    compiler name and chooses no default; for [gcc] and [intel] it never
    does, whatever the variants: the only errors left are the two about
    [LIBSMM_PATH]. *)
Theorem cp2k_compiler_family {L : Type} `{LibraryList L}
    (self : Cp2k.Package L) (environ : gmap string string)
    (os_path_isfile : string → bool) :
  let name := cname (Cp2k.compiler (Cp2k.spec self)) in
  dom Cp2k.optflags = ({["gcc"; "intel"]} : gset string) ∧
  (name ∉ dom Cp2k.optflags →
   ∃ e, Cp2k.write_makefile self environ os_path_isfile = inl e ∧
     UnsupportedConfiguration name e) ∧
  (name ∈ dom Cp2k.optflags →
   ∀ e, Cp2k.write_makefile self environ os_path_isfile = inl e →
     ¬ UnsupportedConfiguration name e ∧ MissingExternalResource e).
Proof.
  intros name. split; [apply optflags_dom|].
  pose proof (write_makefile_cases self environ os_path_isfile) as Hcases.
  cbv zeta in Hcases. fold name in Hcases. rewrite elem_of_dom. split.
  - intros Hnone. destruct (Cp2k.optflags !! name) as [opt|].
    + destruct Hnone. eauto.
    + by exists (KeyError name).
  - intros [opt Hopt] e He. rewrite Hopt in Hcases.
    assert (name = "gcc" ∨ name = "intel") as Hname.
    { apply optflags_known, elem_of_dom. eauto. }
    destruct Hcases as (l0 & _ & Hcases).
    destruct (Cp2k.smm_block _ _ _ _) as [e'|l2].
    + destruct Hcases as (He' & _ & Hwhy). rewrite He in He'.
      injection He' as <-. unfold UnsupportedConfiguration,
        MissingExternalResource.
      destruct Hwhy as [(_ & ->)|(p & _ & _ & ->)];
        (split; [destruct Hname as [-> | ->]; discriminate|auto]).
    + destruct Hcases as (frag & Hfrag & _). congruence.
Qed.

Lemma cp2k_compiler_family_witness :
  (∃ e, Cp2k.write_makefile
          (Sample.cp2k Sample.clang true false Cp2k.none false
             Sample.no_constraint) ∅ Sample.every_file = inl e ∧
     UnsupportedConfiguration "clang" e) ∧
  (∀ e, Cp2k.write_makefile
          (Sample.cp2k Sample.gcc true false Cp2k.libsmm false
             Sample.no_constraint) ∅ Sample.every_file = inl e →
     ¬ UnsupportedConfiguration "gcc" e ∧ MissingExternalResource e).
Proof.
  split.
  - apply (cp2k_compiler_family
             (Sample.cp2k Sample.clang true false Cp2k.none false
                Sample.no_constraint) ∅ Sample.every_file).
    rewrite optflags_dom. vm_compute. set_solver.
  - apply (cp2k_compiler_family
             (Sample.cp2k Sample.gcc true false Cp2k.libsmm false
                Sample.no_constraint) ∅ Sample.every_file).
    rewrite optflags_dom. set_solver.
Defined.

(** ** The small-matrix library from the environment *)

(** C1, as amended: on a Spec with [smm=libsmm] whose compiler is [gcc] or
    [intel], the makefile step raises [KeyError] when [LIBSMM_PATH] is unset
    and [IOError] when it does not name an existing file; when it does, the
    step returns, [-D__HAS_smm_dnn] and [-D__HAS_smm_vec] are among the
    defines written to [DFLAGS], and the file is appended to the library
    list: the list written to [LIBS] is the one the MPI block left with the
    file added to it, followed by what the later blocks add, so that under
    the order laws its files are those named before, then the file, then
    those named after. *)
Theorem cp2k_libsmm_resource {L : Type} `{LibraryListLaws L}
    (self : Cp2k.Package L) (environ : gmap string string)
    (os_path_isfile : string → bool) :
  Cp2k.smm (Cp2k.spec self) = Cp2k.libsmm →
  cname (Cp2k.compiler (Cp2k.spec self)) ∈ dom Cp2k.optflags →
  Cp2kProps.libsmm_resource self environ os_path_isfile.
Proof.
  intros Hsmm [opt Hopt]%elem_of_dom. unfold Cp2kProps.libsmm_resource.
  pose proof (write_makefile_cases self environ os_path_isfile) as Hcases.
  cbv zeta in Hcases. rewrite Hopt in Hcases.
  destruct Hcases as (l0 & _ & Hcases).
  rewrite smm_block_spec, Hsmm in Hcases.
  destruct (environ !! "LIBSMM_PATH") as [p|] eqn:Hp; [|by destruct Hcases].
  destruct (os_path_isfile p); [|by destruct Hcases].
  destruct Hcases as (frag & Hfrag & _). exists frag. split; [done|].
  destruct (write_makefile_closed self environ os_path_isfile frag Hfrag)
    as (Hd & _).
  destruct (write_makefile_flag_lines self environ os_path_isfile frag Hfrag)
    as (Hdline & _ & _ & _ & _ & _ & Hlibsline).
  destruct (write_makefile_libs self environ os_path_isfile frag Hfrag)
    as (l0' & Hbase & _ & Hlibs).
  rewrite Hsmm, Hp in Hlibs.
  assert (Cp2kProps.libs_appended self environ
          = Cp2kProps.linked_before_smm self ++ [p]
            ++ Cp2kProps.linked_after_smm self) as Happ.
  { unfold Cp2kProps.libs_appended, Cp2kProps.linked_by_smm.
    by rewrite Hsmm, Hp. }
  assert (∀ d, d ∈ ["-D__HAS_smm_dnn"; "-D__HAS_smm_vec"] →
               d ∈ Cp2k.dflags (Cp2k.locals frag)) as Hdefines.
  { intros d Hin. rewrite Hd. unfold Cp2kProps.dflags_appended. cbv zeta.
    rewrite Hsmm. eauto 10 with elem. }
  split; [apply Hdefines; eauto with elem|].
  split; [apply Hdefines; eauto with elem|].
  split.
  { apply (write_makefile_files_members self environ os_path_isfile frag
             Hfrag).
    rewrite Happ. eauto with elem. }
  split; [eauto|]. split; [|by split].
  intros Horder. rewrite <- Happ.
  by apply (write_makefile_files_order self environ os_path_isfile).
Qed.

Lemma cp2k_libsmm_resource_witness :
  Cp2kProps.libsmm_resource
    (Sample.cp2k Sample.gcc true false Cp2k.libsmm false Sample.no_constraint)
    Sample.libsmm_env Sample.every_file ∧
  Cp2kProps.libsmm_resource
    (Sample.cp2k Sample.gcc true false Cp2k.libsmm false Sample.no_constraint)
    ∅ Sample.every_file.
Proof.
  split;
    apply (cp2k_libsmm_resource
             (Sample.cp2k Sample.gcc true false Cp2k.libsmm false
                Sample.no_constraint));
    try reflexivity; rewrite optflags_dom; set_solver.
Defined.

(** C1 as stated fails on a Spec whose compiler has no optimisation flags:
    with [LIBSMM_PATH] naming an existing file the step still raises, the
    [KeyError] of the compiler name. *)
Lemma cp2k_libsmm_resource_counterexample :
  Cp2k.smm
    (Cp2k.spec
       (Sample.cp2k Sample.clang true false Cp2k.libsmm false
          Sample.no_constraint)) = Cp2k.libsmm ∧
  Sample.libsmm_env !! "LIBSMM_PATH" = Some "/opt/libsmm/lib/libsmm.a" ∧
  Cp2k.write_makefile
    (Sample.cp2k Sample.clang true false Cp2k.libsmm false
       Sample.no_constraint)
    Sample.libsmm_env Sample.every_file = inl (KeyError "clang") ∧
  ¬ Cp2kProps.libsmm_resource
      (Sample.cp2k Sample.clang true false Cp2k.libsmm false
         Sample.no_constraint)
      Sample.libsmm_env Sample.every_file.
Proof.
  split; [reflexivity|]. split; [reflexivity|].
  assert (Cp2k.write_makefile
    (Sample.cp2k Sample.clang true false Cp2k.libsmm false
       Sample.no_constraint)
    Sample.libsmm_env Sample.every_file = inl (KeyError "clang")) as Hraise.
  { apply write_makefile_inl. left.
    pose proof (base_block_spec
      (Sample.cp2k Sample.clang true false Cp2k.libsmm false
         Sample.no_constraint)) as Hbase.
    cbv zeta in Hbase. by rewrite optflags_lookup in Hbase. }
  split; [done|].
  unfold Cp2kProps.libsmm_resource.
  change (Sample.libsmm_env !! "LIBSMM_PATH")
    with (Some "/opt/libsmm/lib/libsmm.a").
  simpl. intros (frag & Hfrag & _). congruence.
Qed.

(** ** The order of the link flags *)

(** The link flags a fragment carries: what [mpi_block] put in front, then the
    flags in the order they were appended. *)
Lemma write_makefile_ldflags {L : Type} `{LibraryList L}
    (self : Cp2k.Package L) (environ : gmap string string)
    (os_path_isfile : string → bool) (frag : Cp2k.Fragment L) :
  Cp2k.write_makefile self environ os_path_isfile = inr frag →
  Cp2k.ldflags (Cp2k.locals frag)
  = Cp2kProps.ldflags_prepended self ++ Cp2kProps.ldflags_appended self.
Proof.
  intros (l0 & l2 & Hbase & Hsmm & ->)%write_makefile_inr.
  pose proof (base_block_spec self) as Hspec. cbv zeta in Hspec.
  destruct (Cp2k.optflags !! _); [|congruence].
  destruct Hspec as (l0' & Hbase' & _ & _ & Hld & _).
  rewrite Hbase in Hbase'. injection Hbase' as <-.
  cbn [Cp2k.locals].
  destruct (emit_block_spec self (Cp2k.plumed_block self l2))
    as (_ & _ & _ & _ & _ & -> & _).
  assert (Cp2k.ldflags (Cp2k.plumed_block self l2) = Cp2k.ldflags l2) as ->.
  { rewrite plumed_block_spec. by destruct (Cp2k.plumed _). }
  assert (Cp2k.ldflags (Cp2k.mpi_block self l0)
          = Cp2kProps.ldflags_prepended self
            ++ [Cp2kProps.combined_search_flags self]
            ++ (if Cp2k.mpi (Cp2k.spec self)
                then [search_flags
                        (dep_libs (Cp2k.getitem (Cp2k.spec self)
                                     (Cp2k.with_static self "scalapack")))]
                else [])) as Hmpi.
  { destruct (Cp2k.mpi (Cp2k.spec self)) eqn:Hm.
    - destruct (mpi_block_on self l0 Hm) as (? & ? & _ & _ & _ & -> & _).
      by rewrite Hld.
    - rewrite mpi_block_off by done. unfold Cp2kProps.ldflags_prepended.
      by rewrite Hm, Hld. }
  rewrite smm_block_spec in Hsmm. unfold Cp2kProps.ldflags_appended.
  destruct (Cp2k.smm (Cp2k.spec self)).
  - injection Hsmm as <-. cbn [Cp2k.ldflags]. rewrite Hmpi.
    by rewrite <- !app_assoc.
  - destruct (environ !! "LIBSMM_PATH"); [|done].
    destruct (os_path_isfile _); [|done].
    injection Hsmm as <-. cbn [Cp2k.ldflags]. rewrite Hmpi.
    by rewrite app_nil_r.
  - injection Hsmm as <-. rewrite Hmpi. by rewrite app_nil_r.
Qed.

(** C5, as amended: every channel of the flag set holds its flags in the
    order [install] appended them.  The [LDFLAGS] line holds the combined
    search flags of fftw, lapack, blas and libxc, then those of scalapack
    when MPI is selected, then those of libxsmm for [smm=libxsmm]; the
    defines, the preprocessor, C, C++ and Fortran flags are the appended
    sequences, and so are, under the order laws, the files of the library
    list.  The one flag out of append order is
    [-Wl,--allow-multiple-definition], which is put in front of the link
    flags when MPI is selected and the Spec contains [superlu-dist@4.3]. *)
Theorem cp2k_ldflags_order {L : Type} `{LibraryList L}
    (self : Cp2k.Package L) (environ : gmap string string)
    (os_path_isfile : string → bool) (frag : Cp2k.Fragment L) :
  Cp2k.write_makefile self environ os_path_isfile = inr frag →
  Cp2k.ldflags (Cp2k.locals frag)
  = Cp2kProps.ldflags_prepended self ++ Cp2kProps.ldflags_appended self ∧
  "LDFLAGS = "
    +:+ join " "
          (Cp2kProps.ldflags_prepended self ++ Cp2kProps.ldflags_appended self)
    +:+ nl +:+ nl ∈ Cp2k.mkf (Cp2k.locals frag) ∧
  Cp2k.dflags (Cp2k.locals frag) = Cp2kProps.dflags_appended self ∧
  Cp2k.cppflags (Cp2k.locals frag) = Cp2kProps.dflags_appended self ∧
  Cp2k.cflags (Cp2k.locals frag) = Cp2kProps.cflags_appended self ∧
  Cp2k.cxxflags (Cp2k.locals frag) = Cp2kProps.cflags_appended self ∧
  Cp2k.fcflags (Cp2k.locals frag) = Cp2kProps.fcflags_appended self ∧
  (LibraryListOrder L →
   ll_files (Cp2k.libs (Cp2k.locals frag))
   = FileList.dedupe (Cp2kProps.libs_appended self environ)) ∧
  (∀ line, line ∈ Cp2kProps.channel_lines self →
           line ∈ Cp2k.mkf (Cp2k.locals frag)) ∧
  "LIBS = " +:+ join " " (ll_files (Cp2k.libs (Cp2k.locals frag)))
    +:+ nl +:+ nl ∈ Cp2k.mkf (Cp2k.locals frag).
Proof.
  intros Hfrag. pose proof (write_makefile_ldflags _ _ _ _ Hfrag) as Hld.
  destruct (write_makefile_closed self environ os_path_isfile frag Hfrag)
    as (Hd & Hcpp & Hc & Hcxx & Hfc).
  destruct (write_makefile_flag_lines self environ os_path_isfile frag Hfrag)
    as (Ld & Lcpp & Lc & Lcxx & Lfc & Lld & Llibs).
  rewrite Hd in Ld. rewrite Hcpp in Lcpp. rewrite Hc in Lc.
  rewrite Hcxx in Lcxx. rewrite Hfc in Lfc. rewrite Hld in Lld.
  split; [done|]. split; [done|]. split; [done|]. split; [done|].
  split; [done|]. split; [done|]. split; [done|].
  split.
  { intros Horder.
    by apply (write_makefile_files_order self environ os_path_isfile). }
  split; [|done].
  intros line Hline. unfold Cp2kProps.channel_lines in Hline.
  cbn [fmap list_fmap fst snd] in Hline.
  repeat (apply elem_of_cons in Hline as [->|Hline]); [..|
    by apply elem_of_nil in Hline]; assumption.
Qed.

Lemma cp2k_ldflags_order_witness :
  ∃ frag,
    Cp2k.write_makefile
      (Sample.cp2k Sample.gcc true true Cp2k.libxsmm false
         Sample.no_constraint) ∅ Sample.every_file = inr frag ∧
    Cp2k.ldflags (Cp2k.locals frag)
    = ["-L/opt/fftw/lib -L/opt/lapack/lib -L/opt/blas/lib -L/opt/libxc/lib";
       "-L/opt/scalapack/lib"; "-L/opt/libxsmm/lib"].
Proof.
  eexists. split; [vm_compute; reflexivity|].
  refine (eq_trans (proj1 (cp2k_ldflags_order
    (Sample.cp2k Sample.gcc true true Cp2k.libxsmm false Sample.no_constraint)
    ∅ Sample.every_file _ _)) _).
  - vm_compute. reflexivity.
  - vm_compute. reflexivity.
Defined.

(** C5 as stated fails on a Spec with MPI that contains [superlu-dist@4.3]:
    the first link flag is [-Wl,--allow-multiple-definition], which was
    added after the search flags of scalapack. *)
Lemma cp2k_ldflags_order_counterexample :
  ∃ frag,
    Cp2k.write_makefile
      (Sample.cp2k Sample.gcc true true Cp2k.libxsmm false Sample.old_superlu)
      ∅ Sample.every_file = inr frag ∧
    Cp2k.ldflags (Cp2k.locals frag)
    = ["-Wl,--allow-multiple-definition";
       "-L/opt/fftw/lib -L/opt/lapack/lib -L/opt/blas/lib -L/opt/libxc/lib";
       "-L/opt/scalapack/lib"; "-L/opt/libxsmm/lib"] ∧
    head (Cp2k.ldflags (Cp2k.locals frag))
    ≠ Some (Cp2kProps.combined_search_flags
              (Sample.cp2k Sample.gcc true true Cp2k.libxsmm false
                 Sample.old_superlu)) ∧
    Cp2k.ldflags (Cp2k.locals frag)
    ≠ Cp2kProps.ldflags_appended
        (Sample.cp2k Sample.gcc true true Cp2k.libxsmm false
           Sample.old_superlu).
Proof.
  eexists. split; [vm_compute; reflexivity|].
  split; [vm_compute; reflexivity|].
  split; vm_compute; discriminate.
Qed.

(** ** Defines and the options they belong to *)

Section Cp2kDefines.
Import Cp2k Cp2kProps.
Context {L : Type} `{LibraryList L}.
Implicit Types (self : Package L) (l : Locals L) (o : Option_).

(** No define belongs to two options. *)
Lemma define_of_exclusive o o' (d : string) :
  define_of o d = true → define_of o' d = true → o = o'.
Proof.
  intros Hd Hd'.
  destruct o, o'; try reflexivity; exfalso;
    first [ apply list_in_elem_of in Hd';
            repeat (apply elem_of_cons in Hd' as [->|Hd']);
            [discriminate Hd..|by apply elem_of_nil in Hd']
          | apply list_in_elem_of in Hd;
            repeat (apply elem_of_cons in Hd as [->|Hd]);
            [discriminate Hd'..|by apply elem_of_nil in Hd] ].
Qed.

Lemma define_origin_selected self o (d : string) :
  selected o (spec self) = true → define_of o d = true →
  define_origin self d.
Proof. intros. right. eauto. Qed.

Lemma plain_include (t : string) : plain_flag ("-I" +:+ t).
Proof. by intros []. Qed.

(** The define of an option begins with [-D]. *)
Lemma define_of_prefix o (d : string) :
  define_of o d = true → ∃ t, d = "-D" +:+ t.
Proof.
  assert (∀ l : list string,
    Forall (λ x, ∃ t, x = "-D" +:+ t) l → list_in d l = true →
    ∃ t, d = "-D" +:+ t) as Hall.
  { intros l Hl Hin%list_in_elem_of.
    by apply (proj1 (Forall_forall _ _) Hl). }
  intros Hd. destruct o; cbn [define_of] in Hd.
  1: apply orb_true_iff in Hd as [Hd|Hd];
       [|apply prefix_app in Hd as (t & ->); by exists ("__ELPA=" +:+ t)].
  all: (eapply Hall; [|exact Hd]); repeat constructor; by eexists.
Qed.

(** So it is not the search flags of a library list. *)
Lemma define_not_search_flags `{!LibrarySearchFlags L} o (d : string)
    (a : L) :
  define_of o d = true → d ≠ search_flags a.
Proof.
  intros (t & ->)%define_of_prefix Heq.
  destruct (search_flags_form a) as [Hnil|Hl]; rewrite <- Heq in *.
  - discriminate Hnil.
  - apply prefix_app in Hl as (t' & Hl). discriminate Hl.
Qed.

Lemma base_block_ok self l :
  base_block self = inr l → channels_ok self l.
Proof.
  intros Hbase. pose proof (base_block_spec self) as Hspec.
  cbv zeta in Hspec. rewrite optflags_lookup in Hspec.
  generalize dependent (String.eqb (cname (compiler (spec self))) "gcc").
  generalize dependent (String.eqb (cname (compiler (spec self))) "intel").
  intros intel gcc Hspec.
  assert (∀ d : string, (∀ o, define_of o d = false) → define_origin self d)
    as Hplain by (intros; by left).
  destruct gcc, intel; try (by rewrite Hbase in Hspec);
    destruct Hspec as (l' & Hbase' & _ & Hcpp & _ & _ & Hd & Hc & Hcxx & Hfc);
    rewrite Hbase in Hbase'; injection Hbase' as <-;
    unfold channels_ok; rewrite Hd, Hcpp, Hc, Hcxx, Hfc;
    (split; [|split; [done|]]).
  all: destruct (dag_contains (spec self) "^intel-mkl"); simpl.
  all: repeat split.
  all: repeat (constructor;
               [first [ by apply Hplain; intros []
                      | by intros []
                      | by left; intros []
                      | right; eauto 10 with elem ]|]).
  all: constructor.
Qed.

Lemma mpi_block_ok self l :
  channels_ok self l → channels_ok self (mpi_block self l).
Proof.
  intros Hok. destruct (mpi (spec self)) eqn:Hmpi;
    [|by rewrite mpi_block_off].
  destruct Hok as (Hd & Hcpp & Hc & Hcxx & Hfc).
  destruct (mpi_block_on self l Hmpi)
    as (ds & fs & Hd' & Hds & Hfc' & _ & Hcpp' & Hc' & Hcxx' & _ & _ & Hfs).
  unfold channels_ok. rewrite Hd', Hfc', Hcpp', Hc', Hcxx'.
  repeat split; try done.
  - apply Forall_app. split; [done|].
    eapply Forall_impl; [exact Hds|]. intros d Hdef.
    by apply (define_origin_selected self OptMpi).
  - apply Forall_app. split; [done|].
    eapply Forall_impl; [exact Hfs|]. intros f (t & ->).
    left. apply plain_include.
Qed.

Lemma smm_block_ok self (environ : gmap string string)
    (os_path_isfile : string → bool) l l' :
  channels_ok self l →
  smm_block self environ os_path_isfile l = inr l' → channels_ok self l'.
Proof.
  intros (Hd & Hcpp & Hc & Hcxx & Hfc). rewrite smm_block_spec.
  destruct (smm (spec self)) eqn:Hsmm.
  - intros [= <-]. unfold channels_ok. cbn.
    repeat split; try done.
    + apply Forall_app. split; [done|]. constructor; [|constructor].
      apply (define_origin_selected self OptSmmLibxsmm); [|done].
      simpl. by rewrite Hsmm.
    + apply Forall_app. split; [done|]. constructor; [|constructor].
      right. unfold header_flags. rewrite Hsmm. eauto 10 with elem.
  - destruct (environ !! "LIBSMM_PATH"); [|done].
    destruct (os_path_isfile _); [|done].
    intros [= <-]. unfold channels_ok. cbn.
    repeat split; try done.
    apply Forall_app. split; [done|].
    repeat (constructor;
            [apply (define_origin_selected self OptSmmLibsmm);
             [simpl; by rewrite Hsmm|done]|]).
    constructor.
  - by intros [= <-].
Qed.

Lemma plumed_block_ok self l :
  channels_ok self l → channels_ok self (plumed_block self l).
Proof.
  intros (Hd & Hcpp & Hc & Hcxx & Hfc). rewrite plumed_block_spec.
  destruct (plumed (spec self)) eqn:Hplumed; [|done].
  unfold channels_ok. cbn. repeat split; try done.
  apply Forall_app. split; [done|]. constructor; [|constructor].
  by apply (define_origin_selected self OptPlumed).
Qed.

(** The channels of a fragment: the preprocessor flags are the defines, the
    defines close the other compile channels, and nothing but the defines
    and the header flags of dependencies can be the define of an option. *)
Lemma write_makefile_channels self (environ : gmap string string)
    (os_path_isfile : string → bool) (frag : Fragment L) :
  write_makefile self environ os_path_isfile = inr frag →
  Forall (define_origin self) (dflags (locals frag)) ∧
  cppflags (locals frag) = dflags (locals frag) ∧
  (∃ c, cflags (locals frag) = c ++ dflags (locals frag) ∧
     Forall plain_flag c) ∧
  (∃ c, cxxflags (locals frag) = c ++ dflags (locals frag) ∧
     Forall plain_flag c) ∧
  (∃ f, fcflags (locals frag) = f ++ dflags (locals frag) ∧
     Forall (λ e, plain_flag e ∨ e ∈ header_flags self) f).
Proof.
  intros (l0 & l2 & Hbase & Hsmm & ->)%write_makefile_inr.
  cbn [locals].
  assert (channels_ok self (plumed_block self l2))
    as (Hd & Hcpp & Hc & Hcxx & Hfc).
  { apply plumed_block_ok. eapply smm_block_ok; [|exact Hsmm].
    by apply mpi_block_ok, base_block_ok. }
  destruct (emit_block_spec self (plumed_block self l2))
    as (Hd' & Hcpp' & Hc' & Hcxx' & Hfc' & _).
  rewrite Hcpp, app_nil_l in Hcpp'.
  rewrite Hc', Hcxx', Hfc', Hcpp', Hd'.
  split; [done|]. split; [done|].
  split; [by exists (cflags (plumed_block self l2))|].
  split; [by exists (cxxflags (plumed_block self l2))|].
  by exists (fcflags (plumed_block self l2)).
Qed.

(** Without MPI every library of a fragment is a serial one. *)
Lemma write_makefile_serial_libs `{!LibraryListLaws L} self
    (environ : gmap string string) (os_path_isfile : string → bool)
    (frag : Fragment L) (f : string) :
  write_makefile self environ os_path_isfile = inr frag →
  mpi (spec self) = false →
  f ∈ ll_files (libs (locals frag)) → serial_library self environ f.
Proof.
  intros (l0 & l2 & Hbase & Hsmm & ->)%write_makefile_inr Hmpi.
  cbn [locals]. rewrite mpi_block_off in Hsmm by done.
  pose proof (base_block_spec self) as Hspec. cbv zeta in Hspec.
  destruct (optflags !! _); [|congruence].
  destruct Hspec as (l0' & Hbase' & _ & _ & _ & Hlibs & _).
  rewrite Hbase in Hbase'. injection Hbase' as <-.
  destruct (emit_block_spec self (plumed_block self l2))
    as (_ & _ & _ & _ & _ & _ & -> & _).
  rewrite plumed_block_spec. rewrite smm_block_spec in Hsmm.
  unfold serial_library.
  destruct (smm (spec self)) eqn:Hs; [| |];
    [|destruct (environ !! "LIBSMM_PATH") as [p|] eqn:Hp; [|done];
      destruct (os_path_isfile p); [|done]|];
    injection Hsmm as <-;
    destruct (plumed (spec self)); cbn [libs];
    rewrite ?elem_of_ll_add, ?elem_of_ll_new, ?list_elem_of_singleton, Hlibs;
    intros Hf; decompose [or] Hf; subst; tauto.
Qed.

End Cp2kDefines.

(** C3, as amended: the recipe emits none of the defines of an option
    that is not selected.  They are absent from [DFLAGS], [CPPFLAGS],
    [CFLAGS] and [CXXFLAGS]; such a string is in [FCFLAGS] only as the
    header flags a dependency answered with, in [LDFLAGS] only as the search
    flags of a library list, so never where search flags are empty or begin
    with [-L], and in [LIBS] only as a file that was named for linking.
    In particular, without MPI [-D__parallel] is not among the
    defines, the link flags are the combined search flags and those of
    libxsmm, and the libraries linked are exactly those of libint, the
    small-matrix library, PLUMED, libxc, fftw, lapack and blas: a file of
    the MPI block is linked only if one of these names it too. *)
Theorem cp2k_disabled_variant_flags {L : Type} `{LibraryListLaws L}
    (self : Cp2k.Package L) (environ : gmap string string)
    (os_path_isfile : string → bool) (frag : Cp2k.Fragment L) :
  Cp2k.write_makefile self environ os_path_isfile = inr frag →
  (∀ o d, Cp2kProps.selected o (Cp2k.spec self) = false →
     Cp2kProps.define_of o d = true →
     (d ∉ Cp2k.dflags (Cp2k.locals frag)) ∧
     (d ∉ Cp2k.cppflags (Cp2k.locals frag)) ∧
     (d ∉ Cp2k.cflags (Cp2k.locals frag)) ∧
     (d ∉ Cp2k.cxxflags (Cp2k.locals frag)) ∧
     (d ∈ Cp2k.fcflags (Cp2k.locals frag) →
      d ∈ Cp2kProps.header_flags self) ∧
     (d ∈ Cp2k.ldflags (Cp2k.locals frag) →
      d ∈ Cp2kProps.ldflags_appended self) ∧
     (LibrarySearchFlags L → d ∉ Cp2k.ldflags (Cp2k.locals frag)) ∧
     (d ∈ ll_files (Cp2k.libs (Cp2k.locals frag)) →
      d ∈ Cp2kProps.libs_appended self environ)) ∧
  (Cp2k.mpi (Cp2k.spec self) = false →
   ("-D__parallel" ∉ Cp2k.dflags (Cp2k.locals frag)) ∧
   Cp2k.ldflags (Cp2k.locals frag)
   = Cp2kProps.combined_search_flags self
     :: match Cp2k.smm (Cp2k.spec self) with
        | Cp2k.libxsmm =>
            [search_flags
               (dep_libs (Cp2k.getitem (Cp2k.spec self) "libxsmm"))]
        | _ => []
        end ∧
   (∀ f, f ∈ ll_files (Cp2k.libs (Cp2k.locals frag)) ↔
         Cp2kProps.serial_library self environ f) ∧
   (∀ f, f ∈ Cp2kProps.mpi_files self →
         ¬ Cp2kProps.serial_library self environ f →
         f ∉ ll_files (Cp2k.libs (Cp2k.locals frag)))).
Proof.
  intros Hfrag.
  destruct (write_makefile_channels self environ os_path_isfile frag Hfrag)
    as (Hd & Hcpp & (c & Hc & Hcplain) & (cxx & Hcxx & Hcxxplain)
        & (fcs & Hfc & Hfcplain)).
  pose proof (write_makefile_files_members self environ os_path_isfile frag
                Hfrag) as Hmembers.
  assert (∀ o d, Cp2kProps.selected o (Cp2k.spec self) = false →
            Cp2kProps.define_of o d = true →
            d ∉ Cp2k.dflags (Cp2k.locals frag)) as Hnot.
  { intros o d Hsel Hdef Hin.
    rewrite Forall_forall in Hd.
    destruct (Hd d Hin) as [Hplain|(o' & Hsel' & Hdef')].
    - specialize (Hplain o). congruence.
    - assert (o = o') as -> by eauto using define_of_exclusive. congruence. }
  assert (∀ o d (c : list string), Forall Cp2kProps.plain_flag c →
            Cp2kProps.define_of o d = true → d ∉ c) as Hplain.
  { intros o d c' Hc' Hdef Hin. rewrite Forall_forall in Hc'.
    specialize (Hc' d Hin o). congruence. }
  split.
  - intros o d Hsel Hdef. rewrite Hcpp, Hc, Hcxx, Hfc.
    rewrite !elem_of_app.
    split; [by eapply Hnot|]. split; [by eapply Hnot|].
    split; [intros [?|?]; [by eapply (Hplain o d c)|by eapply (Hnot o d)]|].
    split; [intros [?|?]; [by eapply (Hplain o d cxx)|by eapply (Hnot o d)]|].
    assert (d ∈ Cp2k.ldflags (Cp2k.locals frag) →
            d ∈ Cp2kProps.ldflags_appended self) as Hld.
    { rewrite (write_makefile_ldflags _ _ _ _ Hfrag), elem_of_app.
      intros [Hin|Hin]; [exfalso|done].
      unfold Cp2kProps.ldflags_prepended in Hin.
      destruct (_ && _); [|by apply elem_of_nil in Hin].
      apply list_elem_of_singleton in Hin as ->. by destruct o. }
    split; [|split; [exact Hld|split]].
    + intros [Hin|Hin]; [|by eapply Hnot in Hin].
      rewrite Forall_forall in Hfcplain.
      destruct (Hfcplain d Hin) as [Hp|?]; [|done].
      specialize (Hp o). congruence.
    + intros Hlaw Hin%Hld. unfold Cp2kProps.ldflags_appended in Hin.
      rewrite !elem_of_app in Hin.
      destruct Hin as [Hin|[Hin|Hin]];
        [|destruct (Cp2k.mpi _)|destruct (Cp2k.smm _)];
        try (by apply elem_of_nil in Hin);
        apply list_elem_of_singleton in Hin;
        by eapply define_not_search_flags in Hin.
    + apply Hmembers.
  - intros Hmpi. split; [by apply (Hnot Cp2kProps.OptMpi)|]. split; [|split].
    + rewrite (write_makefile_ldflags _ _ _ _ Hfrag).
      unfold Cp2kProps.ldflags_prepended, Cp2kProps.ldflags_appended.
      by rewrite Hmpi.
    + intros f. rewrite (Hmembers f). by apply serial_library_iff.
    + intros f _ Hserial Hin. apply Hserial.
      apply (serial_library_iff self environ f Hmpi), Hmembers, Hin.
Qed.

Lemma cp2k_disabled_variant_flags_witness :
  ∃ frag,
    Cp2k.write_makefile
      (Sample.cp2k Sample.gcc true false Cp2k.none false Sample.no_constraint)
      ∅ Sample.every_file = inr frag ∧
    ("-D__parallel" ∉ Cp2k.dflags (Cp2k.locals frag)) ∧
    ("-D__PLUMED2" ∉ Cp2k.cflags (Cp2k.locals frag)) ∧
    ("-D__LIBXSMM" ∉ Cp2k.ldflags (Cp2k.locals frag)) ∧
    ("/opt/scalapack/lib/libscalapack.a"
     ∉ ll_files (Cp2k.libs (Cp2k.locals frag))).
Proof.
  pose proof (cp2k_disabled_variant_flags
    (Sample.cp2k Sample.gcc true false Cp2k.none false Sample.no_constraint)
    ∅ Sample.every_file) as Hthm.
  destruct (Cp2k.write_makefile _ _ _) as [e|frag] eqn:Hfrag.
  { vm_compute in Hfrag. discriminate Hfrag. }
  exists frag. split; [reflexivity|].
  destruct (Hthm frag eq_refl) as (Hoptions & Hmpi).
  destruct (Hmpi eq_refl) as (Hparallel & _ & _ & Hexcluded).
  split; [exact Hparallel|]. split; [|split].
  - apply (Hoptions Cp2kProps.OptPlumed); reflexivity.
  - apply (Hoptions Cp2kProps.OptSmmLibxsmm); [reflexivity..|].
    exact file_list_search_flags.
  - apply Hexcluded.
    + apply list_in_elem_of. vm_compute. reflexivity.
    + intros Hserial.
      apply (serial_library_iff
               (Sample.cp2k Sample.gcc true false Cp2k.none false
                  Sample.no_constraint) ∅ "/opt/scalapack/lib/libscalapack.a"
               eq_refl), list_in_elem_of in Hserial.
      vm_compute in Hserial. discriminate Hserial.
Defined.

(** C3 as stated fails on a Spec without MPI where such strings come from
    outside the recipe.  The headers of fftw carry the macro [-D__parallel],
    which the recipe passes on to the Fortran flags, and lapack and scalapack
    are one library, which is linked for lapack.  And with [smm=libsmm] the
    file [LIBSMM_PATH] points to is linked under the name it is given, which
    is not looked at either. *)
Lemma cp2k_disabled_variant_flags_counterexample :
  (∃ frag,
    Cp2k.write_makefile Sample.serial_vendor ∅ Sample.every_file = inr frag ∧
    Cp2k.mpi (Cp2k.spec Sample.serial_vendor) = false ∧
    cname (Cp2k.compiler (Cp2k.spec Sample.serial_vendor)) = "gcc" ∧
    Cp2kProps.define_of Cp2kProps.OptMpi "-D__parallel" = true ∧
    "-D__parallel" ∈ Cp2k.fcflags (Cp2k.locals frag) ∧
    "/opt/intel/mkl/lib/libmkl_rt.so"
      ∈ ll_files
          (dep_libs
             (Cp2k.getitem (Cp2k.spec Sample.serial_vendor)
                (Cp2k.with_static Sample.serial_vendor "scalapack"))) ∧
    "/opt/intel/mkl/lib/libmkl_rt.so"
      ∈ ll_files (Cp2k.libs (Cp2k.locals frag)) ∧
    ¬ Cp2kProps.disabled_defines_absent Sample.serial_vendor frag) ∧
  (∃ frag,
    Cp2k.write_makefile Sample.serial_libsmm
      (<["LIBSMM_PATH" := "-D__parallel"]> ∅) Sample.every_file = inr frag ∧
    Cp2k.mpi (Cp2k.spec Sample.serial_libsmm) = false ∧
    cname (Cp2k.compiler (Cp2k.spec Sample.serial_libsmm)) = "gcc" ∧
    "-D__parallel" ∈ ll_files (Cp2k.libs (Cp2k.locals frag)) ∧
    ¬ Cp2kProps.disabled_defines_absent Sample.serial_libsmm frag).
Proof.
  split.
  - destruct (Cp2k.write_makefile Sample.serial_vendor ∅ Sample.every_file)
      as [e|frag] eqn:Hfrag.
    { vm_compute in Hfrag. discriminate Hfrag. }
    exists frag. split; [reflexivity|]. split; [reflexivity|].
    split; [reflexivity|]. split; [reflexivity|].
    vm_compute in Hfrag. injection Hfrag as <-.
    split; [apply list_in_elem_of; vm_compute; reflexivity|].
    split; [apply list_in_elem_of; vm_compute; reflexivity|].
    split; [apply list_in_elem_of; vm_compute; reflexivity|].
    intros [Hdefines _].
    destruct (Hdefines Cp2kProps.OptMpi "-D__parallel" eq_refl eq_refl)
      as (_ & _ & _ & _ & Hfc & _).
    apply Hfc, list_in_elem_of. vm_compute. reflexivity.
  - destruct (Cp2k.write_makefile Sample.serial_libsmm
                (<["LIBSMM_PATH" := "-D__parallel"]> ∅) Sample.every_file)
      as [e|frag] eqn:Hfrag.
    { vm_compute in Hfrag. discriminate Hfrag. }
    exists frag. split; [reflexivity|]. split; [reflexivity|].
    split; [reflexivity|].
    vm_compute in Hfrag. injection Hfrag as <-.
    split; [apply list_in_elem_of; vm_compute; reflexivity|].
    intros [Hdefines _].
    destruct (Hdefines Cp2kProps.OptMpi "-D__parallel" eq_refl eq_refl)
      as (_ & _ & _ & _ & _ & _ & Hlibs).
    apply Hlibs, list_in_elem_of. vm_compute. reflexivity.
Qed.

(** ** Flag sets of Specs that differ in one variant *)

Section Cp2kMonotone.
Import Cp2k Cp2kProps.
Context {L : Type} `{LibraryListLaws L}.
Implicit Types (self : Package L) (l : Locals L).

Lemma subseteq_app_mono (l1 l2 k : list string) : l1 ⊆ l2 → l1 ++ k ⊆ l2 ++ k.
Proof. intros Hl x. rewrite !elem_of_app. intros [?|?]; auto. Qed.

Lemma subseteq_app_both (l1 l2 k1 k2 : list string) :
  l1 ⊆ l2 → k1 ⊆ k2 → l1 ++ k1 ⊆ l2 ++ k2.
Proof. intros Hl Hk x. rewrite !elem_of_app. intros [?|?]; auto. Qed.

Lemma subseteq_app_l (l k : list string) : l ⊆ l ++ k.
Proof. intros x ?. apply elem_of_app. auto. Qed.

Lemma subseteq_app_mid (p l k : list string) : l ⊆ p ++ l ++ k.
Proof. intros x ?. rewrite !elem_of_app. auto. Qed.

Lemma ll_add_mono (a b c : L) :
  ll_files a ⊆ ll_files b → ll_files (ll_add a c) ⊆ ll_files (ll_add b c).
Proof. intros Hab x. rewrite !elem_of_ll_add. intros [?|?]; auto. Qed.

Lemma ll_add_subseteq (a c : L) : ll_files a ⊆ ll_files (ll_add a c).
Proof. intros x ?. apply elem_of_ll_add. auto. Qed.

(** With MPI selected, [mpi_block] only adds flags. *)
Lemma mpi_block_extends self l :
  mpi (spec self) = true → flags_subseteq l (mpi_block self l).
Proof.
  intros Hmpi. unfold flags_subseteq.
  destruct (mpi_block_on self l Hmpi)
    as (ds & fs & -> & _ & -> & -> & -> & -> & -> & _ & Hlibs & _).
  repeat split; try done;
    auto using subseteq_app_l, subseteq_app_mid.
  intros x. by apply Hlibs.
Qed.

(** [smm_block] raises or not whatever the flags so far, and keeps the
    inclusion of flag sets. *)
Lemma smm_block_mono self (environ : gmap string string)
    (os_path_isfile : string → bool) l l' r' :
  flags_subseteq l l' →
  smm_block self environ os_path_isfile l' = inr r' →
  ∃ r, smm_block self environ os_path_isfile l = inr r ∧ flags_subseteq r r'.
Proof.
  intros (Hd & Hcpp & Hc & Hcxx & Hfc & Hld & Hlibs).
  rewrite !smm_block_spec.
  destruct (smm (spec self)).
  - intros [= <-]. eexists. split; [reflexivity|]. unfold flags_subseteq.
    cbn. repeat split; auto using subseteq_app_mono, ll_add_mono.
  - destruct (environ !! "LIBSMM_PATH"); [|done].
    destruct (os_path_isfile _); [|done].
    intros [= <-]. eexists. split; [reflexivity|]. unfold flags_subseteq.
    cbn. repeat split; auto using subseteq_app_mono, ll_add_mono.
  - intros [= <-]. exists l. by repeat split.
Qed.

(** [emit_block] keeps the inclusion of flag sets, across packages with the
    same dependencies. *)
Lemma emit_block_mono self self' l l' :
  libxc self = libxc self' → fftw self = fftw self' →
  lapack self = lapack self' → blas self = blas self' →
  flags_subseteq l l' →
  flags_subseteq (emit_block self l) (emit_block self' l').
Proof.
  intros Hxc Hfftw Hlapack Hblas (Hd & Hcpp & Hc & Hcxx & Hfc & Hld & Hlibs).
  destruct (emit_block_spec self l)
    as (Hd1 & Hcpp1 & Hc1 & Hcxx1 & Hfc1 & Hld1 & Hlibs1 & _).
  destruct (emit_block_spec self' l')
    as (Hd2 & Hcpp2 & Hc2 & Hcxx2 & Hfc2 & Hld2 & Hlibs2 & _).
  unfold flags_subseteq.
  rewrite Hc1, Hcxx1, Hfc1, Hc2, Hcxx2, Hfc2, Hcpp1, Hcpp2, Hd1, Hd2, Hld1,
    Hld2, Hlibs1, Hlibs2, Hxc, Hfftw, Hlapack, Hblas.
  repeat split; auto using subseteq_app_both, ll_add_mono.
Qed.

(** The flag set without PLUMED is within the flag set with it. *)
Lemma plumed_within self (environ : gmap string string)
    (os_path_isfile : string → bool) :
  disabled_within_enabled set_plumed self environ os_path_isfile.
Proof.
  intros enabled (l0 & l2 & Hbase & Hsmm & ->)%write_makefile_inr.
  eexists. split.
  { apply write_makefile_inr. exists l0, l2. split; [exact Hbase|].
    split; [exact Hsmm|reflexivity]. }
  cbn [locals]. apply emit_block_mono; try reflexivity.
  rewrite !plumed_block_spec. unfold flags_subseteq.
  cbn [set_plumed spec plumed dflags cppflags cflags cxxflags fcflags
       ldflags libs].
  repeat split; auto using subseteq_app_l, ll_add_subseteq.
Qed.

(** The flag set without MPI is within the flag set with it. *)
Lemma mpi_within self (environ : gmap string string)
    (os_path_isfile : string → bool) :
  disabled_within_enabled set_mpi self environ os_path_isfile.
Proof.
  intros enabled (l0 & l2 & Hbase & Hsmm & ->)%write_makefile_inr.
  change (base_block (set_mpi true self)) with (base_block self) in Hbase.
  destruct (smm_block_mono (set_mpi true self) environ os_path_isfile
              l0 (mpi_block (set_mpi true self) l0) l2)
    as (r & Hr & Hsub); [by apply mpi_block_extends|done|].
  exists (mkFragment
            (join_path "arch"
               [join "." [architecture (spec self) +:+ "-"
                            +:+ cname (compiler (spec self)); "sopt"]])
            (architecture (spec self) +:+ "-" +:+ cname (compiler (spec self)))
            "sopt"
            (emit_block (set_mpi false self)
               (plumed_block (set_mpi false self) r))).
  split.
  { apply write_makefile_inr. exists l0, r. split; [exact Hbase|].
    split; [|reflexivity].
    rewrite mpi_block_off by reflexivity. exact Hr. }
  cbn [locals]. apply emit_block_mono; try reflexivity.
  destruct Hsub as (Hd & Hcpp & Hc & Hcxx & Hfc & Hld & Hlibs).
  rewrite !plumed_block_spec. unfold flags_subseteq.
  cbn [set_mpi spec plumed].
  destruct (plumed (spec self)); [|by repeat split].
  cbn [dflags cppflags cflags cxxflags fcflags ldflags libs].
  repeat split; auto using subseteq_app_mono, ll_add_mono.
Qed.

End Cp2kMonotone.

(** ** The precisions of fftw *)

Section FftwPlans.
Import Fftw FftwProps.
Implicit Types (self : Package) (p : Precision) (v : Variant).

(** When [configure_options] raises. *)
Lemma configure_options_cases self :
  if apple_clang_openmp (spec self)
  then configure_options self = inl (InstallError apple_clang_msg)
  else ∃ options, configure_options self = inr options.
Proof.
  unfold configure_options, apple_clang_openmp.
  destruct (openmp (spec self)); cbn [andb].
  - destruct (String.eqb _ "clang" && endswith _ "-apple"); cbn; eauto.
  - cbn. eauto.
Qed.

(** [configure] is its option list fanned out over the precisions. *)
Lemma configure_fan_out self :
  configure self
  = options ← configure_options self;
    mret (flat_map (precision_plan self options) all_precisions).
Proof.
  unfold configure. destruct (configure_options self) as [e|options];
    [reflexivity|].
  cbn [mbind result_bind mret result_ret flat_map all_precisions].
  unfold precision_plan, precision_configured, precision_enabled,
    simd_options, precision_switch, precision_dir.
  f_equal.
  destruct (double (spec self)), (float (spec self)),
    (long_double (spec self)), (quad (spec self)),
    (ver_from [3] (version (spec self))),
    (str_in "x86_64" (architecture (spec self)));
    cbn [andb app]; rewrite ?app_nil_r; reflexivity.
Qed.

Lemma dirs_precision_plan self (options : list string) p :
  dirs (precision_plan self options p)
  = if precision_configured p (spec self) then [precision_dir p] else [].
Proof. unfold precision_plan. by destruct (precision_configured _ _). Qed.

Lemma dirs_flat_map self (options : list string) (ps : list Precision) :
  dirs (flat_map (precision_plan self options) ps)
  = flat_map (λ p, if precision_configured p (spec self)
                   then [precision_dir p] else []) ps.
Proof.
  induction ps as [|p ps IH]; [done|]. unfold dirs in *. simpl.
  rewrite fmap_app, IH. f_equal. apply dirs_precision_plan.
Qed.

(** [build], [check] and [install] carry out the plan of [make] in the
    directories of the enabled precisions. *)
Lemma make_each_plan {FS : Type} `{Platform FS} self (args : list string)
    (w : World FS) :
  make_each self args w
  = run_plan (make_in (make_dirs (spec self)) args) w.
Proof.
  unfold make_each, make_dirs, make_in, all_precisions.
  cbn [flat_map precision_enabled precision_dir]. cbv zeta.
  destruct (double (spec self)), (float (spec self)),
    (long_double (spec self)), (quad (spec self));
    cbn [app fmap list_fmap run_plan inv_dir inv_cmd inv_args
         mbind result_bind mret result_ret];
    repeat (match goal with
            | |- context [working_dir ?d ?b ?x] =>
                destruct (working_dir d b x) as [?|?]
            end;
            cbn [mbind result_bind mret result_ret]);
    reflexivity.
Qed.

Lemma run_plan_app {FS : Type} `{Platform FS} (l1 l2 : list Invocation)
    (w : World FS) :
  run_plan (l1 ++ l2) w = run_plan l1 w ≫= run_plan l2.
Proof.
  revert w. induction l1 as [|i l1 IH]; intros w; [done|].
  cbn [app run_plan]. destruct (working_dir _ _ _) as [e|w1]; [done|].
  cbn [mbind result_bind]. apply IH.
Qed.

(** A plan of [make] that returns leaves the environment and an absolute
    working directory as they were, and keeps what each [make] keeps of
    the file system. *)
Lemma run_plan_make_inr {FS : Type} `{Platform FS} (P : FS → Prop)
    (ds args : list string) (w w1 : World FS) :
  (∀ a e d fs0 fs1, run "make" a e d fs0 = inr fs1 → P fs0 → P fs1) →
  startswith (cwd w) "/" = true → P (fs w) →
  run_plan (make_in ds args) w = inr w1 →
  env w1 = env w ∧ cwd w1 = cwd w ∧ P (fs w1).
Proof.
  intros Hkeep. revert w. induction ds as [|d ds IH]; intros w Habs HP.
  { by intros [= <-]. }
  cbn [make_in fmap list_fmap run_plan inv_dir inv_cmd inv_args].
  intros (w2 & Hstep & Hrest)%bind_inr.
  apply working_dir_call_inr in Hstep as (_ & Hrun & Henv & Hcwd).
  rewrite path_join2_absolute in Hcwd by done.
  destruct (IH w2) as (Henv1 & Hcwd1 & HP1); [congruence|eauto|done|].
  by rewrite Henv1, Hcwd1, Henv, Hcwd.
Qed.

(** A plan raises as soon as it heads for a directory that is not
    there. *)
Lemma run_plan_missing {FS : Type} `{Platform FS} (i : Invocation)
    (plan : list Invocation) (w : World FS) :
  isdir (fs w) (path_join2 (cwd w) (inv_dir i)) = false →
  run_plan (i :: plan) w = inl (OSError (path_join2 (cwd w) (inv_dir i))).
Proof.
  intros Hdir. cbn [run_plan]. unfold working_dir, chdir. by rewrite Hdir.
Qed.

Lemma precision_dir_inj p q : precision_dir p = precision_dir q → p = q.
Proof. by destruct p, q. Qed.

Lemma elem_of_dir_if (b : bool) p q :
  precision_dir p ∈ (if b then [precision_dir q] else []) → p = q ∧ b = true.
Proof.
  destruct b; [|by intros ?%elem_of_nil].
  by intros ->%list_elem_of_singleton%precision_dir_inj.
Qed.

Lemma elem_of_dirs (enabled : Precision → bool) p :
  precision_dir p
  ∈ flat_map (λ q, if enabled q then [precision_dir q] else []) all_precisions
  ↔ enabled p = true.
Proof.
  unfold all_precisions. cbn [flat_map]. rewrite ?app_nil_r, !elem_of_app.
  split.
  - intros [Hin|[Hin|[Hin|Hin]]];
      apply elem_of_dir_if in Hin as [-> Hin]; exact Hin.
  - intros Hp. destruct p; rewrite Hp; eauto 10 with elem.
Qed.

End FftwPlans.

(** C4, as amended: unless [configure] raises (OpenMP with Apple's clang), it
    runs [../configure] once per configured precision, each in its own
    directory, in the order double, float, long-double, quad, with
    [--enable-float], [--enable-long-double] and [--enable-quad-precision] in
    front of the shared options for the three precisions other than double.
    Double and float are configured exactly when their variant is enabled,
    long double and quad exactly when their variant is enabled and the
    version is 3 or later.  [build] carries out a plain [make] inside the
    directory of each enabled precision; a disabled precision is skipped by
    [configure] and by [build]; from version 3 on [build] runs [make] in
    exactly the directories [configure] ran in, in the same order. *)
Theorem fftw_precision_fan_out (self : Fftw.Package) :
  if FftwProps.apple_clang_openmp (Fftw.spec self)
  then Fftw.configure self = inl (InstallError Fftw.apple_clang_msg)
  else
    ∃ options plan,
      Fftw.configure_options self = inr options ∧
      Fftw.configure self = inr plan ∧
      plan = flat_map (FftwProps.precision_plan self options)
               FftwProps.all_precisions ∧
      FftwProps.dirs plan
      = flat_map (λ p, if FftwProps.precision_configured p (Fftw.spec self)
                       then [FftwProps.precision_dir p] else [])
          FftwProps.all_precisions ∧
      (∀ p, FftwProps.precision_dir p ∈ FftwProps.dirs plan ↔
            FftwProps.precision_configured p (Fftw.spec self) = true) ∧
      (∀ (FS : Type) (P : Platform FS) (w : World FS),
         Fftw.build self w
         = FftwProps.run_plan
             (FftwProps.make_in (FftwProps.make_dirs (Fftw.spec self)) [])
             w) ∧
      (∀ p, FftwProps.precision_enabled p (Fftw.spec self) = false →
            (FftwProps.precision_dir p ∉ FftwProps.dirs plan) ∧
            (FftwProps.precision_dir p
             ∉ FftwProps.make_dirs (Fftw.spec self))) ∧
      (ver_from [3] (Fftw.version (Fftw.spec self)) = true →
       FftwProps.make_dirs (Fftw.spec self) = FftwProps.dirs plan ∧
       ∀ (FS : Type) (P : Platform FS) (w : World FS),
         Fftw.build self w
         = FftwProps.run_plan
             (FftwProps.make_in (FftwProps.dirs plan) []) w).
Proof.
  pose proof (configure_options_cases self) as Hopts.
  destruct (FftwProps.apple_clang_openmp (Fftw.spec self)).
  { rewrite configure_fan_out, Hopts. reflexivity. }
  destruct Hopts as (options & Hopts). exists options. eexists.
  split; [exact Hopts|].
  split; [rewrite configure_fan_out, Hopts; reflexivity|].
  split; [reflexivity|]. rewrite dirs_flat_map.
  split; [reflexivity|].
  split; [intros p; apply elem_of_dirs|].
  split; [intros FS P w; apply make_each_plan|].
  assert (ver_from [3] (Fftw.version (Fftw.spec self)) = true →
          FftwProps.make_dirs (Fftw.spec self)
          = flat_map
              (λ p, if FftwProps.precision_configured p (Fftw.spec self)
                    then [FftwProps.precision_dir p] else [])
              FftwProps.all_precisions) as Hsame.
  { intros Hv3.
    unfold FftwProps.make_dirs, FftwProps.all_precisions,
      FftwProps.precision_configured.
    cbn [flat_map]. by rewrite Hv3. }
  split.
  - intros p Hoff. unfold FftwProps.make_dirs. rewrite !elem_of_dirs.
    rewrite Hoff.
    split; [|done]. destruct p; simpl in *; rewrite Hoff;
      by rewrite ?andb_false_r.
  - intros Hv3. split; [by apply Hsame|].
    intros FS P w. rewrite <- Hsame by done. apply make_each_plan.
Qed.

Lemma fftw_precision_fan_out_witness :
  ∃ plan,
    Fftw.configure Sample.fftw3 = inr plan ∧
    FftwProps.dirs plan = ["double"; "float"; "long-double"] ∧
    Fftw.build Sample.fftw3 Sample.fftw_stage
    = FftwProps.run_plan (FftwProps.make_in (FftwProps.dirs plan) [])
        Sample.fftw_stage ∧
    Fftw.build Sample.fftw3 Sample.fftw_stage = inr Sample.fftw_stage.
Proof.
  pose proof (fftw_precision_fan_out Sample.fftw3) as Hthm.
  change (FftwProps.apple_clang_openmp (Fftw.spec Sample.fftw3))
    with false in Hthm.
  destruct Hthm as (options & plan & _ & Hplan & _ & Hdirs & _ & _ & _ & Hv3).
  exists plan. split; [exact Hplan|].
  assert (FftwProps.dirs plan = ["double"; "float"; "long-double"]) as Hds.
  { rewrite Hdirs. reflexivity. }
  destruct (Hv3 eq_refl) as [_ Hbuild].
  split; [exact Hds|]. split; [apply Hbuild|].
  rewrite Hbuild, Hds. reflexivity.
Defined.

(** C4 as stated fails for fftw 2.1.5 with its default variants: the long
    double variant is enabled, [configure] does not run for it, and [build]
    nevertheless heads for [long-double]. *)
Lemma fftw_precision_fan_out_counterexample :
  ∃ plan,
    Fftw.configure Sample.fftw2 = inr plan ∧
    Fftw.long_double (Fftw.spec Sample.fftw2) = true ∧
    FftwProps.dirs plan = ["double"; "float"] ∧
    FftwProps.make_dirs (Fftw.spec Sample.fftw2)
    = ["double"; "float"; "long-double"] ∧
    ¬ FftwProps.fan_out_by_variant Sample.fftw2 plan.
Proof.
  eexists. split; [vm_compute; reflexivity|].
  split; [reflexivity|]. split; [reflexivity|]. split; [reflexivity|].
  intros [Hconfigure _].
  specialize (Hconfigure FftwProps.PLongDouble) as [_ Hin].
  specialize (Hin eq_refl). apply list_in_elem_of in Hin.
  vm_compute in Hin. discriminate Hin.
Qed.

Section FftwMonotone.
Import Fftw FftwProps.
Implicit Types (self : Package) (p : Precision) (v : Variant).

Lemma plan_flags_app (l1 l2 : list Invocation) :
  plan_flags (l1 ++ l2) = plan_flags l1 ++ plan_flags l2.
Proof. unfold plan_flags. by rewrite fmap_app, concat_app. Qed.

Lemma plan_flags_flat_map_mono (F G : Precision → list Invocation)
    (ps : list Precision) :
  (∀ p, plan_flags (F p) ⊆ plan_flags (G p)) →
  plan_flags (flat_map F ps) ⊆ plan_flags (flat_map G ps).
Proof.
  intros HFG. induction ps as [|p ps IH]; [done|]. simpl.
  rewrite !plan_flags_app. intros x. rewrite !elem_of_app.
  intros [?|?]; [left; by apply HFG|right; by apply IH].
Qed.

(** More options, or one more precision, only add arguments. *)
Lemma precision_plan_mono self0 self1 (options0 options1 : list string) p :
  options0 ⊆ options1 →
  architecture (spec self0) = architecture (spec self1) →
  version (spec self0) = version (spec self1) →
  (precision_configured p (spec self0) = true →
   precision_configured p (spec self1) = true) →
  plan_flags (precision_plan self0 options0 p)
  ⊆ plan_flags (precision_plan self1 options1 p).
Proof.
  intros Hoptions Harch Hversion Hconfigured. unfold precision_plan.
  destruct (precision_configured p (spec self0));
    [|intros x ?%elem_of_nil; done].
  rewrite Hconfigured by done. unfold plan_flags. simpl.
  rewrite !app_nil_r.
  assert (simd_options p (spec self0) = simd_options p (spec self1)) as ->.
  { unfold simd_options. by rewrite Harch, Hversion. }
  intros x. rewrite !elem_of_app. intros [?|[?|?]]; auto.
Qed.

(** The options with OpenMP, when it does not raise, extend those
    without. *)
Lemma configure_options_openmp self (options1 : list string) :
  configure_options (set_variant VOpenmp true self) = inr options1 →
  ∃ options0,
    configure_options (set_variant VOpenmp false self) = inr options0 ∧
    options0 ⊆ options1.
Proof.
  unfold configure_options.
  cbn [set_variant spec prefix openmp mpi version compiler].
  generalize (py_not (f77 (compiler (spec self)))
              || py_not (fc (compiler (spec self)))).
  generalize (ver_upto [2] (version (spec self))).
  generalize (String.eqb (cname (compiler (spec self))) "clang"
              && endswith (cversion (compiler (spec self))) "-apple").
  generalize (mpi (spec self)).
  intros [] [] [] []; cbn; intros [= <-];
    (eexists; split; [reflexivity|]);
    intros x Hx; rewrite ?elem_of_app, ?elem_of_cons in *; tauto.
Qed.

(** The options with MPI extend those without. *)
Lemma configure_options_mpi self (options1 : list string) :
  configure_options (set_variant VMpi true self) = inr options1 →
  ∃ options0,
    configure_options (set_variant VMpi false self) = inr options0 ∧
    options0 ⊆ options1.
Proof.
  unfold configure_options.
  cbn [set_variant spec prefix openmp mpi version compiler].
  destruct (if openmp (spec self) then _ else _) as [e|options]; [done|].
  cbn. intros [= <-]. eexists. split; [reflexivity|].
  apply subseteq_app_l.
Qed.

(** No boolean variant of fftw takes a [configure] argument away. *)
Lemma fftw_variant_within v self : disabled_within_enabled v self.
Proof.
  intros enabled. rewrite !configure_fan_out.
  intros (options1 & Hoptions1 & [= <-])%bind_inr.
  assert (∃ options0,
    configure_options (set_variant v false self) = inr options0 ∧
    options0 ⊆ options1) as (options0 & Hoptions0 & Hsub).
  { destruct v;
      try (exists options1; split; [exact Hoptions1|done]).
    - by apply configure_options_openmp.
    - by apply configure_options_mpi. }
  rewrite Hoptions0. eexists. split; [reflexivity|].
  apply (plan_flags_flat_map_mono
           (precision_plan (set_variant v false self) options0)
           (precision_plan (set_variant v true self) options1)
           all_precisions).
  intros p.
  apply precision_plan_mono; [done|by destruct v..|].
  destruct v, p; cbn; try done;
    rewrite ?andb_false_r; done.
Qed.

End FftwMonotone.

(** C6, as amended: for two Specs that differ only in cp2k's [plumed] or
    [mpi] variant, or only in one of the boolean variants of fftw, whenever
    the Spec with the variant enabled is translated, so is the one with it
    disabled, and each flag of the latter is a flag of the former, channel
    by channel.  (cp2k's [static] variant is not among them: it exchanges
    libraries.) *)
Theorem variant_flags_subset {L : Type} `{LibraryListLaws L}
    (cp2k : Cp2k.Package L) (environ : gmap string string)
    (os_path_isfile : string → bool)
    (fftw : Fftw.Package) (v : FftwProps.Variant) :
  Cp2kProps.disabled_within_enabled Cp2kProps.set_plumed cp2k environ
    os_path_isfile ∧
  Cp2kProps.disabled_within_enabled Cp2kProps.set_mpi cp2k environ
    os_path_isfile ∧
  FftwProps.disabled_within_enabled v fftw.
Proof.
  split; [apply plumed_within|].
  split; [apply mpi_within|apply fftw_variant_within].
Qed.

Lemma variant_flags_subset_witness :
  ∃ enabled disabled,
    Cp2k.write_makefile
      (Cp2kProps.set_plumed true
         (Sample.cp2k Sample.gcc true true Cp2k.libxsmm false
            Sample.no_constraint)) ∅ Sample.every_file = inr enabled ∧
    Cp2k.write_makefile
      (Cp2kProps.set_plumed false
         (Sample.cp2k Sample.gcc true true Cp2k.libxsmm false
            Sample.no_constraint)) ∅ Sample.every_file = inr disabled ∧
    Cp2kProps.flags_subseteq (Cp2k.locals disabled) (Cp2k.locals enabled).
Proof.
  destruct (variant_flags_subset
    (Sample.cp2k Sample.gcc true true Cp2k.libxsmm false Sample.no_constraint)
    ∅ Sample.every_file Sample.fftw3 FftwProps.VOpenmp)
    as (Hplumed & _ & _).
  destruct (Cp2k.write_makefile
    (Cp2kProps.set_plumed true
       (Sample.cp2k Sample.gcc true true Cp2k.libxsmm false
          Sample.no_constraint)) ∅ Sample.every_file)
    as [e|enabled] eqn:Henabled.
  { vm_compute in Henabled. discriminate Henabled. }
  destruct (Hplumed enabled Henabled) as (disabled & Hdisabled & Hsub).
  exists enabled, disabled. split; [reflexivity|]. split; assumption.
Defined.

(** C6 as stated fails for cp2k's [static] variant: without it the shared
    library of fftw is linked, with it the static one, and neither flag set
    holds the other's file. *)
Lemma variant_flags_subset_counterexample :
  ∃ enabled disabled,
    Cp2k.write_makefile
      (Cp2kProps.set_static true
         (Sample.cp2k Sample.gcc true false Cp2k.none false
            Sample.no_constraint)) ∅ Sample.every_file = inr enabled ∧
    Cp2k.write_makefile
      (Cp2kProps.set_static false
         (Sample.cp2k Sample.gcc true false Cp2k.none false
            Sample.no_constraint)) ∅ Sample.every_file = inr disabled ∧
    "/opt/fftw/lib/libfftw3.so" ∈ ll_files (Cp2k.libs (Cp2k.locals disabled)) ∧
    ("/opt/fftw/lib/libfftw3.so"
     ∉ ll_files (Cp2k.libs (Cp2k.locals enabled))) ∧
    ¬ Cp2kProps.disabled_within_enabled Cp2kProps.set_static
        (Sample.cp2k Sample.gcc true false Cp2k.none false
           Sample.no_constraint) ∅ Sample.every_file.
Proof.
  destruct (Cp2k.write_makefile
    (Cp2kProps.set_static true
       (Sample.cp2k Sample.gcc true false Cp2k.none false
          Sample.no_constraint)) ∅ Sample.every_file)
    as [e|enabled] eqn:Henabled.
  { vm_compute in Henabled. discriminate Henabled. }
  destruct (Cp2k.write_makefile
    (Cp2kProps.set_static false
       (Sample.cp2k Sample.gcc true false Cp2k.none false
          Sample.no_constraint)) ∅ Sample.every_file)
    as [e|disabled] eqn:Hdisabled.
  { vm_compute in Hdisabled. discriminate Hdisabled. }
  exists enabled, disabled. split; [reflexivity|]. split; [reflexivity|].
  assert ("/opt/fftw/lib/libfftw3.so"
          ∈ ll_files (Cp2k.libs (Cp2k.locals disabled))) as Hin.
  { vm_compute in Hdisabled. injection Hdisabled as <-.
    apply list_in_elem_of. vm_compute. reflexivity. }
  assert ("/opt/fftw/lib/libfftw3.so"
          ∉ ll_files (Cp2k.libs (Cp2k.locals enabled))) as Hout.
  { vm_compute in Henabled. injection Henabled as <-.
    intros Hin'. apply list_in_elem_of in Hin'. vm_compute in Hin'.
    discriminate Hin'. }
  split; [exact Hin|]. split; [exact Hout|].
  intros Hclaim. destruct (Hclaim enabled Henabled) as (d & Hd & Hsub).
  rewrite Hdisabled in Hd. injection Hd as <-.
  destruct Hsub as (_ & _ & _ & _ & _ & _ & Hlibs).
  by apply Hout, Hlibs.
Qed.

(** ** Lines of text *)

Lemma str_split_nonempty (sep : ascii) (s : string) : str_split sep s ≠ [].
Proof.
  destruct s as [|c s]; simpl; [done|].
  destruct (Ascii.eqb c sep); [done|]. by destruct (str_split sep s).
Qed.

Lemma no_newline_cons (c : ascii) (s : string) :
  no_newline (String c s) ↔ c ≠ "010"%char ∧ no_newline s.
Proof.
  unfold no_newline, lines. simpl.
  destruct (Ascii.eqb_spec c "010") as [->|Hc].
  - split; [done|]. by intros [? _].
  - pose proof (str_split_nonempty "010" s) as Hne.
    destruct (str_split "010" s) as [|x l]; [done|].
    split.
    + intros [= -> ->]. done.
    + intros [_ [= -> ->]]. done.
Qed.

Lemma no_newline_app (a b : string) :
  no_newline a → no_newline b → no_newline (a +:+ b).
Proof.
  intros Ha Hb. induction a as [|c a IH]; [done|].
  apply no_newline_cons in Ha as [Hc Ha]. simpl.
  apply no_newline_cons. auto.
Qed.

Lemma no_newline_join (l : list string) :
  Forall no_newline l → no_newline (join " " l).
Proof.
  induction 1 as [|x l Hx Hl IH]; [done|].
  destruct l as [|y l]; [done|].
  change (join " " (x :: y :: l)) with (x +:+ " " +:+ join " " (y :: l)).
  apply no_newline_app; [done|]. by apply no_newline_app.
Qed.

(** A line without line feed and its line feed are the first line of a
    text. *)
Lemma lines_app_nl (a rest : string) :
  no_newline a → lines (a +:+ nl +:+ rest) = a :: lines rest.
Proof.
  intros Ha. unfold lines. change (nl +:+ rest) with (String "010" rest).
  induction a as [|c a IH]; [done|].
  apply no_newline_cons in Ha as [Hc Ha].
  change (String c a +:+ String "010" rest)
    with (String c (a +:+ String "010" rest)).
  cbn [str_split]. destruct (Ascii.eqb_spec c "010"); [done|].
  by rewrite (IH Ha).
Qed.

Lemma concat_cons (x : string) (xs : list string) :
  String.concat "" (x :: xs) = x +:+ String.concat "" xs.
Proof.
  destruct xs as [|y ys]; simpl; [|done].
  induction x as [|c x IH]; [done|]. simpl. by rewrite <- IH.
Qed.

Lemma append_assoc (a b c : string) : (a +:+ b) +:+ c = a +:+ b +:+ c.
Proof. induction a as [|x a IH]; [done|]. simpl. by rewrite IH. Qed.

(** The lines of a file written entry by entry. *)
Lemma lines_entries (entries : list (string * bool)) :
  Forall (λ e, no_newline e.1) entries →
  lines (String.concat "" (render_entry <$> entries))
  = flat_map entry_lines entries ++ [""].
Proof.
  induction 1 as [|[t blank] entries Ht _ IH]; [done|].
  rewrite fmap_cons, concat_cons. unfold render_entry at 1, entry_lines at 1.
  cbn [fst snd flat_map]. destruct blank.
  - rewrite !append_assoc, lines_app_nl by done.
    change (nl +:+ ?r) with ("" +:+ nl +:+ r).
    rewrite lines_app_nl by done. by rewrite IH.
  - rewrite append_assoc, lines_app_nl by done. by rewrite IH.
Qed.

Lemma skip_key_assignment (k v : string) :
  all_key_chars k = true → skip_key (assignment k v) = " = " +:+ v.
Proof.
  unfold assignment. induction k as [|c k IH]; [done|]. simpl.
  intros [Hc Hk]%andb_true_iff. rewrite Hc. auto.
Qed.

Lemma key_no_newline (k : string) : all_key_chars k = true → no_newline k.
Proof.
  induction k as [|c k IH]; [done|]. simpl.
  intros [Hc Hk]%andb_true_iff. apply no_newline_cons.
  split; [|auto]. by intros ->.
Qed.

(** An assignment to a key of letters, digits and underscores is a
    [KEY = value] line. *)
Lemma is_key_value_assignment (k v : string) :
  k ≠ "" → all_key_chars k = true → is_key_value_line (assignment k v) = true.
Proof.
  intros Hne Hk. pose proof (skip_key_assignment k v Hk) as Hskip.
  destruct k as [|c k]; [done|].
  unfold is_key_value_line. change (assignment (String c k) v)
    with (String c (assignment k v)) in *.
  rewrite Hskip. simpl in Hk. apply andb_true_iff in Hk as [-> _].
  apply prefix_app. by exists v.
Qed.

(** ** The lines of the generated makefile *)

Section Cp2kMakefile.
Import Cp2k Cp2kProps.
Context {L : Type} `{LibraryList L}.
Implicit Types (self : Package L) (l : Locals L).

(** The makefile is written entry by entry. *)
Lemma mkf_entries self (environ : gmap string string)
    (os_path_isfile : string → bool) (frag : Fragment L) :
  write_makefile self environ os_path_isfile = inr frag →
  mkf (locals frag)
  = render_entry <$> makefile_entries self (locals frag).
Proof.
  intros (l0 & l2 & Hbase & Hsmm & ->)%write_makefile_inr. cbn [locals].
  assert (mkf l2 = []) as Hl2.
  { pose proof (base_block_spec self) as Hspec. cbv zeta in Hspec.
    destruct (optflags !! _); [|congruence].
    destruct Hspec as (l0' & Hbase' & Hmkf & _).
    rewrite Hbase in Hbase'. injection Hbase' as <-.
    assert (mkf (mpi_block self l0) = []) as Hmpi.
    { destruct (mpi (spec self)) eqn:Hm.
      - destruct (mpi_block_on self l0 Hm)
          as (? & ? & _ & _ & _ & _ & _ & _ & _ & -> & _). done.
      - by rewrite mpi_block_off. }
    rewrite smm_block_spec in Hsmm.
    destruct (smm (spec self)); repeat case_match; by simplify_eq. }
  destruct (emit_block_spec self (plumed_block self l2))
    as (_ & _ & _ & _ & _ & _ & _ & ->).
  unfold makefile_entries, makefile_assignments.
  rewrite plumed_block_spec.
  generalize (emit_block self
                (if plumed (spec self)
                 then mkLocals (dflags l2 ++ ["-D__PLUMED2"]) (cppflags l2)
                        (cflags l2) (cxxflags l2) (fcflags l2) (ldflags l2)
                        (ll_add (libs l2)
                           (dep_libs (getitem (spec self) "plumed")))
                        (mkf l2 ++ [plumed_include self +:+ nl +:+ nl])
                 else l2)).
  intros e.
  assert (mkf (if plumed (spec self)
               then mkLocals (dflags l2 ++ ["-D__PLUMED2"]) (cppflags l2)
                      (cflags l2) (cxxflags l2) (fcflags l2) (ldflags l2)
                      (ll_add (libs l2)
                         (dep_libs (getitem (spec self) "plumed")))
                      (mkf l2 ++ [plumed_include self +:+ nl +:+ nl])
               else l2)
          = render_entry <$> (if plumed (spec self)
                              then [(plumed_include self, true)] else []))
    as ->.
  { destruct (plumed (spec self)); cbn [mkf]; by rewrite Hl2. }
  rewrite !fmap_app. f_equal.
  generalize (String.eqb (cname (compiler (spec self))) "intel").
  intros []; cbn [fmap list_fmap app render_entry fst snd];
    unfold assignment; rewrite ?append_assoc; reflexivity.
Qed.

Lemma assignments_keys self l :
  Forall (λ a, a.1.1 ≠ "" ∧ all_key_chars a.1.1 = true)
    (makefile_assignments self l).
Proof.
  unfold makefile_assignments.
  destruct (String.eqb _ "intel"); by repeat constructor.
Qed.

Lemma assignments_single_line self (frag : Fragment L) :
  single_line_values self frag →
  Forall (λ a, no_newline a.1.2) (makefile_assignments self (locals frag)).
Proof.
  intros (Hcc & Hfc & Hmpifc & _ & Hd & Hcpp & Hfcf & Hc & Hcxx & Hld & Hlibs).
  unfold makefile_assignments.
  assert (no_newline
            (if mpi (spec self) then dep_mpifc (getitem (spec self) "mpi")
             else py_str (fc (compiler (spec self))))) as Hfc'.
  { by destruct (mpi (spec self)). }
  destruct (String.eqb _ "intel"); cbn [app];
    repeat (constructor;
            [cbn [fst snd];
             first [ done | by apply no_newline_join
                   | repeat (apply no_newline_app);
                     first [done|by apply no_newline_join] ]|]);
    constructor.
Qed.

Lemma elem_of_entry_lines (entries : list (string * bool)) (line : string) :
  line ∈ flat_map entry_lines entries ++ [""] →
  line = "" ∨ ∃ e, e ∈ entries ∧ line = e.1.
Proof.
  rewrite elem_of_app, list_elem_of_singleton. intros [Hin|?]; [|by left].
  induction entries as [|[t blank] entries IH]; [by apply elem_of_nil in Hin|].
  simpl in Hin. apply elem_of_cons in Hin as [->|Hin].
  { right. exists (t, blank). split; [left|done]. }
  apply elem_of_app in Hin as [Hin|Hin].
  - left. destruct blank; [|by apply elem_of_nil in Hin].
    by apply list_elem_of_singleton in Hin.
  - destruct (IH Hin) as [?|(e & He & ->)]; [by left|].
    right. exists e. split; [by right|done].
Qed.

End Cp2kMakefile.

(** C7, as amended: when the strings the recipe substitutes hold no line
    feed, every line of the generated makefile is blank, or an assignment
    [KEY = value], or, for a Spec with PLUMED, the directive
    [include <prefix>/lib/plumed/src/lib/Plumed.inc] the file then begins
    with.  Without PLUMED every non-blank line is an assignment. *)
Theorem cp2k_makefile_lines {L : Type} `{LibraryList L}
    (self : Cp2k.Package L) (environ : gmap string string)
    (os_path_isfile : string → bool) (frag : Cp2k.Fragment L) :
  Cp2k.write_makefile self environ os_path_isfile = inr frag →
  Cp2kProps.single_line_values self frag →
  (∀ line, line ∈ lines (Cp2kProps.makefile_text frag) →
     line = "" ∨ is_key_value_line line = true ∨
     (Cp2k.plumed (Cp2k.spec self) = true ∧
      line = Cp2kProps.plumed_include self)) ∧
  (Cp2k.plumed (Cp2k.spec self) = true →
   head (lines (Cp2kProps.makefile_text frag))
   = Some (Cp2kProps.plumed_include self)) ∧
  (Cp2k.plumed (Cp2k.spec self) = false →
   all_key_value (Cp2kProps.makefile_text frag)).
Proof.
  intros Hfrag Hsingle.
  pose proof (mkf_entries self environ os_path_isfile frag Hfrag) as Hmkf.
  pose proof (assignments_single_line self frag Hsingle) as Hvalues.
  pose proof (assignments_keys self (Cp2k.locals frag)) as Hkeys.
  rewrite Forall_forall in Hvalues, Hkeys.
  assert (Forall (λ e : string * bool, no_newline e.1)
            (Cp2kProps.makefile_entries self (Cp2k.locals frag))) as Hentries.
  { unfold Cp2kProps.makefile_entries. apply Forall_app. split.
    - destruct Hsingle as (_ & _ & _ & Hinclude & _).
      destruct (Cp2k.plumed _); by repeat constructor.
    - apply Forall_fmap, Forall_forall. intros [[k v] b] Ha.
      destruct (Hkeys _ Ha) as [_ Hk]. specialize (Hvalues _ Ha).
      cbn [fst snd] in Hk, Hvalues |- *. unfold assignment.
      apply no_newline_app; [by apply key_no_newline|].
      by apply no_newline_app. }
  assert (∀ line, line ∈ lines (Cp2kProps.makefile_text frag) →
            line = "" ∨ is_key_value_line line = true ∨
            (Cp2k.plumed (Cp2k.spec self) = true ∧
             line = Cp2kProps.plumed_include self)) as Hlines.
  { intros line. unfold Cp2kProps.makefile_text.
    rewrite Hmkf, lines_entries by done.
    intros [->|(e & He & ->)]%elem_of_entry_lines; [by left|right].
    unfold Cp2kProps.makefile_entries in He.
    apply elem_of_app in He as [He|He].
    - right. destruct (Cp2k.plumed _); [|by apply elem_of_nil in He].
      by apply list_elem_of_singleton in He as ->.
    - left. apply list_elem_of_fmap in He as ([[k v] b] & -> & Ha).
      destruct (Hkeys _ Ha) as [Hne Hk]. by apply is_key_value_assignment. }
  split; [exact Hlines|]. split.
  - intros Hplumed. unfold Cp2kProps.makefile_text.
    rewrite Hmkf, lines_entries by done.
    unfold Cp2kProps.makefile_entries. by rewrite Hplumed.
  - intros Hplumed line Hin Hne.
    destruct (Hlines line Hin) as [?|[?|[? _]]]; [done|done|congruence].
Qed.

Lemma cp2k_makefile_lines_witness :
  ∃ frag,
    Cp2k.write_makefile
      (Sample.cp2k Sample.intel true true Cp2k.libxsmm false
         Sample.no_constraint) ∅ Sample.every_file = inr frag ∧
    all_key_value (Cp2kProps.makefile_text frag).
Proof.
  destruct (Cp2k.write_makefile
    (Sample.cp2k Sample.intel true true Cp2k.libxsmm false
       Sample.no_constraint) ∅ Sample.every_file)
    as [e|frag] eqn:Hfrag.
  { vm_compute in Hfrag. discriminate Hfrag. }
  exists frag. split; [reflexivity|].
  apply (cp2k_makefile_lines
           (Sample.cp2k Sample.intel true true Cp2k.libxsmm false
              Sample.no_constraint) ∅ Sample.every_file frag Hfrag);
    [|reflexivity].
  vm_compute in Hfrag. injection Hfrag as <-.
  unfold Cp2kProps.single_line_values.
  repeat split; vm_compute; repeat constructor.
Defined.

(** C7 as stated fails on a Spec with PLUMED: the makefile begins with an
    include directive, which is no assignment. *)
Lemma cp2k_makefile_lines_counterexample :
  ∃ frag,
    Cp2k.write_makefile
      (Sample.cp2k Sample.gcc true true Cp2k.libxsmm true
         Sample.no_constraint) ∅ Sample.every_file = inr frag ∧
    head (lines (Cp2kProps.makefile_text frag))
    = Some "include /opt/plumed/lib/plumed/src/lib/Plumed.inc" ∧
    is_key_value_line "include /opt/plumed/lib/plumed/src/lib/Plumed.inc"
    = false ∧
    ¬ all_key_value (Cp2kProps.makefile_text frag).
Proof.
  destruct (Cp2k.write_makefile
    (Sample.cp2k Sample.gcc true true Cp2k.libxsmm true
       Sample.no_constraint) ∅ Sample.every_file)
    as [e|frag] eqn:Hfrag.
  { vm_compute in Hfrag. discriminate Hfrag. }
  exists frag. split; [reflexivity|].
  vm_compute in Hfrag. injection Hfrag as <-.
  split; [vm_compute; reflexivity|]. split; [vm_compute; reflexivity|].
  intros Hall.
  specialize (Hall "include /opt/plumed/lib/plumed/src/lib/Plumed.inc").
  assert (is_key_value_line
            "include /opt/plumed/lib/plumed/src/lib/Plumed.inc" = true)
    as Hkv; [|vm_compute in Hkv; discriminate Hkv].
  apply Hall; [|done].
  apply list_in_elem_of. vm_compute. reflexivity.
Qed.

(** * Further properties *)

(** ** The options of fftw's configure *)

Section FftwOptions.
Import Fftw FftwProps.
Implicit Types (self : Package) (p : Precision).

(** The option list in closed form. *)
Lemma configure_options_inr self (options : list string) :
  configure_options self = inr options →
  apple_clang_openmp (spec self) = false ∧
  options = fftw_shared_options self.
Proof.
  unfold configure_options, apple_clang_openmp, fftw_shared_options.
  generalize (py_not (f77 (compiler (spec self)))
              || py_not (fc (compiler (spec self)))).
  generalize (ver_upto [2] (version (spec self))).
  generalize (String.eqb (cname (compiler (spec self))) "clang"
              && endswith (cversion (compiler (spec self))) "-apple").
  generalize (openmp (spec self)). generalize (mpi (spec self)).
  intros [] [] [] [] []; cbn; intros [= <-]; done.
Qed.

Lemma elem_of_if_singleton (b : bool) (x y : string) :
  x ∈ (if b then [y] else []) ↔ b = true ∧ x = y.
Proof.
  destruct b.
  - rewrite list_elem_of_singleton. split; [done|by intros [_ ?]].
  - split; [by intros ?%elem_of_nil|by intros [? _]].
Qed.

Lemma elem_of_shared_options self (x : string) :
  x ∈ fftw_shared_options self ↔
  ((openmp (spec self) && ver_upto [2] (version (spec self)) = true
    ∧ x = "CFLAGS=" +:+ openmp_flag (compiler (spec self)))
   ∨ x = "--prefix=" +:+ prefix self
   ∨ x = "--enable-shared" ∨ x = "--enable-threads"
   ∨ (py_not (f77 (compiler (spec self)))
      || py_not (fc (compiler (spec self))) = true
      ∧ x = "--disable-fortran")
   ∨ (ver_upto [2] (version (spec self)) = true ∧ x = "--enable-type-prefix")
   ∨ (openmp (spec self) = true ∧ x = "--enable-openmp")
   ∨ (mpi (spec self) = true ∧ x = "--enable-mpi")).
Proof.
  unfold fftw_shared_options. cbv zeta.
  rewrite !elem_of_app, !elem_of_if_singleton, !elem_of_cons, elem_of_nil.
  tauto.
Qed.

Lemma shared_options_no_sse2 self :
  "--enable-sse2" ∉ fftw_shared_options self.
Proof.
  rewrite elem_of_shared_options.
  intros [[_ Hx]|[Hx|[Hx|[Hx|[[_ Hx]|[[_ Hx]|[[_ Hx]|[_ Hx]]]]]]]];
    discriminate Hx.
Qed.

End FftwOptions.

(** X1: when fftw's [configure] does not raise, its shared options always
    hold [--prefix=<prefix>], [--enable-shared] and [--enable-threads]; they
    hold [--disable-fortran] exactly when the compiler lacks an F77 or a
    Fortran compiler, [--enable-type-prefix] exactly for versions up to 2,
    [--enable-openmp] exactly with OpenMP and [--enable-mpi] exactly with
    MPI.  The first option is [CFLAGS=<openmp flag>] exactly for OpenMP on a
    version up to 2, and [--prefix=<prefix>] otherwise. *)
Theorem fftw_configure_switches (self : Fftw.Package)
    (options : list string) :
  Fftw.configure_options self = inr options →
  "--prefix=" +:+ Fftw.prefix self ∈ options ∧
  "--enable-shared" ∈ options ∧ "--enable-threads" ∈ options ∧
  ("--disable-fortran" ∈ options ↔
   py_not (f77 (Fftw.compiler (Fftw.spec self)))
   || py_not (fc (Fftw.compiler (Fftw.spec self))) = true) ∧
  ("--enable-type-prefix" ∈ options ↔
   ver_upto [2] (Fftw.version (Fftw.spec self)) = true) ∧
  ("--enable-openmp" ∈ options ↔ Fftw.openmp (Fftw.spec self) = true) ∧
  ("--enable-mpi" ∈ options ↔ Fftw.mpi (Fftw.spec self) = true) ∧
  head options
  = Some (if Fftw.openmp (Fftw.spec self)
             && ver_upto [2] (Fftw.version (Fftw.spec self))
          then "CFLAGS=" +:+ openmp_flag (Fftw.compiler (Fftw.spec self))
          else "--prefix=" +:+ Fftw.prefix self).
Proof.
  intros [_ ->]%configure_options_inr.
  rewrite !elem_of_shared_options.
  split; [tauto|]. split; [tauto|]. split; [tauto|].
  repeat split;
    try (intros [[_ Hx]|[Hx|[Hx|[Hx|[[Hb Hx]|[[Hb Hx]|[[Hb Hx]|[Hb Hx]]]]]]]];
         first [discriminate Hx|exact Hb]);
    try (intros Hb; tauto).
  unfold fftw_shared_options. cbv zeta.
  by destruct (Fftw.openmp _ && ver_upto [2] _).
Qed.

Lemma fftw_configure_switches_witness :
  ∃ options,
    Fftw.configure_options SampleMore.fftw2_quad = inr options ∧
    head options = Some "CFLAGS=-fopenmp" ∧
    "--enable-type-prefix" ∈ options ∧ "--enable-mpi" ∈ options.
Proof.
  destruct (Fftw.configure_options SampleMore.fftw2_quad)
    as [e|options] eqn:Hoptions.
  { vm_compute in Hoptions. discriminate Hoptions. }
  exists options. split; [reflexivity|].
  destruct (fftw_configure_switches SampleMore.fftw2_quad options Hoptions)
    as (_ & _ & _ & _ & Hprefix & _ & Hmpi & Hhead).
  split; [exact Hhead|]. split; [apply Hprefix|apply Hmpi]; reflexivity.
Defined.

(** ** The invocations of fftw *)

Section FftwInvocations.
Import Fftw FftwProps.
Implicit Types (self : Package) (p : Precision).

Lemma elem_of_precision_plan self (options : list string) p
    (i : Invocation) :
  i ∈ precision_plan self options p →
  i = mkInvocation (precision_dir p) "../configure"
        (precision_switch p ++ options ++ simd_options p (spec self)).
Proof.
  unfold precision_plan. destruct (precision_configured p (spec self)).
  - by intros ->%list_elem_of_singleton.
  - by intros ?%elem_of_nil.
Qed.

Lemma elem_of_fan_out self (options : list string) (i : Invocation) :
  i ∈ flat_map (precision_plan self options) all_precisions →
  ∃ p, i = mkInvocation (precision_dir p) "../configure"
             (precision_switch p ++ options ++ simd_options p (spec self)).
Proof.
  unfold all_precisions. cbn [flat_map]. rewrite app_nil_r, !elem_of_app.
  intros [Hi|[Hi|[Hi|Hi]]]; eauto using elem_of_precision_plan.
Qed.

Lemma configure_inr self (plan : list Invocation) :
  configure self = inr plan →
  plan = flat_map (precision_plan self (fftw_shared_options self))
           all_precisions.
Proof.
  rewrite configure_fan_out.
  intros (options & Hoptions & [= <-])%bind_inr.
  by apply configure_options_inr in Hoptions as [_ ->].
Qed.

End FftwInvocations.

(** X2: among the invocations of fftw's [configure], [--enable-sse2] is
    passed exactly to those in [double] and [float], and only on an x86_64
    architecture from version 3 on; the long double and quad builds never
    get it. *)
Theorem fftw_sse2_only_double_float (self : Fftw.Package)
    (plan : list Invocation) (i : Invocation) :
  Fftw.configure self = inr plan → i ∈ plan →
  ("--enable-sse2" ∈ inv_args i ↔
   (inv_dir i = "double" ∨ inv_dir i = "float") ∧
   str_in "x86_64" (Fftw.architecture (Fftw.spec self)) = true ∧
   ver_from [3] (Fftw.version (Fftw.spec self)) = true).
Proof.
  intros ->%configure_inr (p & ->)%elem_of_fan_out. cbn [inv_args inv_dir].
  pose proof (shared_options_no_sse2 self) as Hshared.
  rewrite !elem_of_app. unfold FftwProps.simd_options.
  destruct p; cbn [FftwProps.precision_switch FftwProps.precision_dir];
    destruct (str_in "x86_64" _), (ver_from [3] _); cbn [andb];
    rewrite ?list_elem_of_singleton, ?elem_of_nil;
    (split; [intros [Hx|[Hx|Hx]]; try done; try discriminate Hx; auto
            |intros ([Hd|Hd] & Ha & Hv); try discriminate; auto]).
Qed.

Lemma fftw_sse2_only_double_float_witness :
  ∃ plan,
    Fftw.configure Sample.fftw3 = inr plan ∧
    ∀ i, i ∈ plan → inv_dir i = "long-double" →
         "--enable-sse2" ∉ inv_args i.
Proof.
  destruct (Fftw.configure Sample.fftw3) as [e|plan] eqn:Hplan.
  { vm_compute in Hplan. discriminate Hplan. }
  exists plan. split; [reflexivity|]. intros i Hi Hdir Hsse.
  apply (fftw_sse2_only_double_float Sample.fftw3 plan i Hplan Hi) in Hsse
    as ([Hd|Hd] & _); rewrite Hdir in Hd; discriminate Hd.
Defined.

(** X3: for an fftw version below 3 with the long double or the quad
    variant enabled, [configure] creates no directory for that precision,
    and [build], [check] and [install] head for it all the same.  On a stage
    where the first such directory is missing and [make] does not create it,
    each of the three raises: an error of an earlier [make], or, once
    [make] has gone through the directories [configure] ran in, the
    [OSError] of entering the missing directory. *)
Theorem fftw_old_version_make_raises {FS : Type} `{Platform FS}
    (self : Fftw.Package) (plan : list Invocation) (w : World FS) :
  ver_from [3] (Fftw.version (Fftw.spec self)) = false →
  Fftw.long_double (Fftw.spec self) || Fftw.quad (Fftw.spec self) = true →
  Fftw.configure self = inr plan →
  startswith (cwd w) "/" = true →
  let missing :=
    path_join2 (cwd w)
      (if Fftw.long_double (Fftw.spec self) then "long-double" else "quad") in
  isdir (fs w) missing = false →
  (∀ args environ d fs0 fs1,
     run "make" args environ d fs0 = inr fs1 →
     isdir fs1 missing = isdir fs0 missing) →
  ("long-double" ∉ FftwProps.dirs plan) ∧ ("quad" ∉ FftwProps.dirs plan) ∧
  ∀ phase args,
    (phase, args) ∈ [(Fftw.build self, []); (Fftw.check self, ["check"]);
                     (Fftw.install self, ["install"])] →
    (∃ e, phase w = inl e) ∧
    (∀ w1,
       FftwProps.run_plan (FftwProps.make_in (FftwProps.dirs plan) args) w
       = inr w1 →
       phase w = inl (OSError missing)).
Proof.
  intros Hold Hvariant ->%configure_inr Habs missing Hmissing Hkeep.
  rewrite dirs_flat_map.
  assert (flat_map
            (λ p, if FftwProps.precision_configured p (Fftw.spec self)
                  then [FftwProps.precision_dir p] else [])
            FftwProps.all_precisions
          = (if Fftw.double (Fftw.spec self) then ["double"] else [])
            ++ (if Fftw.float (Fftw.spec self) then ["float"] else []))
    as ->.
  { unfold FftwProps.all_precisions, FftwProps.precision_configured.
    cbn [flat_map FftwProps.precision_enabled FftwProps.precision_dir].
    by rewrite Hold, !app_nil_r. }
  split; [|split].
  { rewrite elem_of_app.
    intros [Hin|Hin]; apply list_in_elem_of in Hin;
      [destruct (Fftw.double _)|destruct (Fftw.float _)];
      vm_compute in Hin; discriminate Hin. }
  { rewrite elem_of_app.
    intros [Hin|Hin]; apply list_in_elem_of in Hin;
      [destruct (Fftw.double _)|destruct (Fftw.float _)];
      vm_compute in Hin; discriminate Hin. }
  assert (∀ args,
    (∃ e, Fftw.make_each self args w = inl e) ∧
    (∀ w1,
       FftwProps.run_plan
         (FftwProps.make_in
            ((if Fftw.double (Fftw.spec self) then ["double"] else [])
             ++ (if Fftw.float (Fftw.spec self) then ["float"] else []))
            args) w = inr w1 →
       Fftw.make_each self args w = inl (OSError missing))) as Heach.
  { intros args.
    assert (∃ rest,
      FftwProps.make_dirs (Fftw.spec self)
      = ((if Fftw.double (Fftw.spec self) then ["double"] else [])
         ++ (if Fftw.float (Fftw.spec self) then ["float"] else []))
        ++ (if Fftw.long_double (Fftw.spec self)
            then "long-double" else "quad") :: rest) as (rest & Hdirs).
    { unfold FftwProps.make_dirs, FftwProps.all_precisions.
      cbn [flat_map FftwProps.precision_enabled FftwProps.precision_dir].
      destruct (Fftw.long_double (Fftw.spec self)),
        (Fftw.quad (Fftw.spec self)); try done;
        eexists; rewrite <- !app_assoc; reflexivity. }
    assert (Fftw.make_each self args w
            = FftwProps.run_plan
                (FftwProps.make_in
                   ((if Fftw.double (Fftw.spec self) then ["double"] else [])
                    ++ (if Fftw.float (Fftw.spec self)
                        then ["float"] else []))
                   args) w
              ≫= FftwProps.run_plan
                    (FftwProps.make_in
                       ((if Fftw.long_double (Fftw.spec self)
                         then "long-double" else "quad") :: rest) args))
      as ->.
    { rewrite make_each_plan, Hdirs. unfold FftwProps.make_in.
      by rewrite fmap_app, run_plan_app. }
    destruct (FftwProps.run_plan (FftwProps.make_in _ args) w)
      as [e|w1] eqn:Hfirst.
    { split; [by exists e|]. intros w1' [=]. }
    destruct (run_plan_make_inr (λ fs0, isdir fs0 missing = false)
                ((if Fftw.double (Fftw.spec self) then ["double"] else [])
                 ++ (if Fftw.float (Fftw.spec self) then ["float"] else []))
                args w w1) as (_ & Hcwd & Hstill); [|done|done|done|].
    { intros a e d fs0 fs1 Hrun. by rewrite (Hkeep a e d fs0 fs1 Hrun). }
    cbn [mbind result_bind FftwProps.make_in fmap list_fmap].
    rewrite run_plan_missing; cbn [inv_dir]; rewrite Hcwd; [|done].
    split; [by eexists|done]. }
  intros phase args Hphase.
  repeat (apply elem_of_cons in Hphase as [[= -> ->]|Hphase]);
    [apply Heach..|by apply elem_of_nil in Hphase].
Qed.

Lemma fftw_old_version_make_raises_witness :
  @Fftw.build unit SampleMore.configured_stage Sample.fftw2
    SampleMore.fftw2_world
  = inl (OSError "/tmp/stage/fftw-2.1.5/long-double").
Proof.
  destruct (Fftw.configure Sample.fftw2) as [e|plan] eqn:Hplan.
  { vm_compute in Hplan. discriminate Hplan. }
  destruct (@fftw_old_version_make_raises unit SampleMore.configured_stage
              Sample.fftw2 plan SampleMore.fftw2_world eq_refl eq_refl Hplan
              eq_refl eq_refl (λ _ _ _ _ _ _, eq_refl))
    as (_ & _ & Hphase).
  destruct (Hphase (@Fftw.build unit SampleMore.configured_stage Sample.fftw2)
              [] (list_elem_of_here _ _)) as [_ Hraise].
  apply (Hraise SampleMore.fftw2_world).
  vm_compute in Hplan. injection Hplan as <-. reflexivity.
Defined.

(** X6: with MPI selected, a fragment always carries [-D__parallel],
    [-D__LIBPEXSI] and [-D__SCALAPACK], and links every library of elpa,
    pexsi, superlu-dist, parmetis, metis, scalapack and the MPI provider and
    the C++ standard libraries of the compiler; when the Spec contains
    wannier90 it also carries [-D__WANNIER90] and links [libwannier.a] from
    the [lib] directory of wannier90. *)
Theorem cp2k_mpi_enabled_flags {L : Type} `{LibraryListLaws L}
    (self : Cp2k.Package L) (environ : gmap string string)
    (os_path_isfile : string → bool) (frag : Cp2k.Fragment L) :
  Cp2k.write_makefile self environ os_path_isfile = inr frag →
  Cp2k.mpi (Cp2k.spec self) = true →
  "-D__parallel" ∈ Cp2k.dflags (Cp2k.locals frag) ∧
  "-D__LIBPEXSI" ∈ Cp2k.dflags (Cp2k.locals frag) ∧
  "-D__SCALAPACK" ∈ Cp2k.dflags (Cp2k.locals frag) ∧
  (∀ q f,
     q ∈ [Cp2k.with_static self "elpa"; "pexsi"; "superlu-dist"; "parmetis";
          "metis"; Cp2k.with_static self "scalapack";
          Cp2k.with_static self "mpi:cxx"] →
     f ∈ ll_files (dep_libs (Cp2k.getitem (Cp2k.spec self) q)) →
     f ∈ ll_files (Cp2k.libs (Cp2k.locals frag))) ∧
  (∀ f, f ∈ stdcxx_libs (Cp2k.compiler (Cp2k.spec self)) →
        f ∈ ll_files (Cp2k.libs (Cp2k.locals frag))) ∧
  (Cp2k.contains "wannier90" (Cp2k.spec self) = true →
   "-D__WANNIER90" ∈ Cp2k.dflags (Cp2k.locals frag) ∧
   join_path
     (Cp2k.prefix_attr
        (dep_prefix (Cp2k.getitem (Cp2k.spec self) "wannier90")) "lib")
     ["libwannier.a"] ∈ ll_files (Cp2k.libs (Cp2k.locals frag))).
Proof.
  intros (l0 & l2 & Hbase & Hsmm & ->)%write_makefile_inr Hmpi.
  cbn [Cp2k.locals].
  rewrite (later_blocks_dflags self environ os_path_isfile _ l2 Hsmm).
  rewrite mpi_block_dflags by done.
  assert (∀ f, f ∈ ll_files (Cp2k.libs (Cp2k.mpi_block self l0)) →
               f ∈ ll_files
                     (Cp2k.libs
                        (Cp2k.emit_block self (Cp2k.plumed_block self l2))))
    as Hlater.
  { intros f. by apply later_blocks_libs with environ os_path_isfile. }
  split; [eauto 10 with elem|]. split; [eauto 10 with elem|].
  split; [eauto 10 with elem|]. split; [|split].
  - intros q f Hq Hf. apply Hlater, mpi_block_links; eauto.
  - intros f Hf. apply Hlater, mpi_block_links; eauto.
  - intros Hw. rewrite Hw. split; [eauto 10 with elem|].
    apply Hlater, mpi_block_links; eauto.
Qed.

Lemma cp2k_mpi_enabled_flags_witness :
  ∃ frag,
    Cp2k.write_makefile
      (Sample.cp2k Sample.gcc true true Cp2k.libxsmm false
         Sample.no_constraint) ∅ Sample.every_file = inr frag ∧
    "-D__parallel" ∈ Cp2k.dflags (Cp2k.locals frag) ∧
    "-lstdc++" ∈ ll_files (Cp2k.libs (Cp2k.locals frag)).
Proof.
  destruct (Cp2k.write_makefile
    (Sample.cp2k Sample.gcc true true Cp2k.libxsmm false
       Sample.no_constraint) ∅ Sample.every_file) as [e|frag] eqn:Hfrag.
  { vm_compute in Hfrag. discriminate Hfrag. }
  exists frag. split; [reflexivity|].
  destruct (cp2k_mpi_enabled_flags
    (Sample.cp2k Sample.gcc true true Cp2k.libxsmm false Sample.no_constraint)
    ∅ Sample.every_file frag Hfrag eq_refl)
    as (Hparallel & _ & _ & _ & Hstdcxx & _).
  split; [exact Hparallel|]. apply Hstdcxx. apply list_elem_of_here.
Defined.

(** ** Counting defines *)

Lemma count_prefixed_app (p : string) (a b : list string) :
  count_prefixed p (a ++ b) = count_prefixed p a + count_prefixed p b.
Proof. unfold count_prefixed. by rewrite List.filter_app, length_app. Qed.

Lemma base_block_count {L : Type} `{LibraryList L}
    (self : Cp2k.Package L) (l0 : Cp2k.Locals L) :
  Cp2k.base_block self = inr l0 →
  count_prefixed "-D__ELPA" (Cp2k.dflags l0) = 0 ∧
  count_prefixed "-D__MPI_VERSION=" (Cp2k.dflags l0) = 0.
Proof.
  intros Hbase. pose proof (base_block_spec self) as Hspec.
  cbv zeta in Hspec. destruct (Cp2k.optflags !! _); [|congruence].
  destruct Hspec as (l0' & Hbase' & _ & _ & _ & _ & Hd & _).
  rewrite Hbase in Hbase'. injection Hbase' as <-. rewrite Hd.
  by destruct (Cp2k.dag_contains _ _), (String.eqb _ "intel").
Qed.

(** X7: the defines of a cp2k fragment hold exactly one ELPA define
    ([-D__ELPA], [-D__ELPA2], [-D__ELPA3] or [-D__ELPA=<year><month>]) when
    MPI is selected and none otherwise, and one [-D__MPI_VERSION=] define
    exactly when MPI is selected and the Spec contains [mpi@3:] or [mpi@2:],
    never two. *)
Theorem cp2k_elpa_define_count {L : Type} `{LibraryList L}
    (self : Cp2k.Package L) (environ : gmap string string)
    (os_path_isfile : string → bool) (frag : Cp2k.Fragment L) :
  Cp2k.write_makefile self environ os_path_isfile = inr frag →
  count_prefixed "-D__ELPA" (Cp2k.dflags (Cp2k.locals frag))
  = (if Cp2k.mpi (Cp2k.spec self) then 1 else 0) ∧
  count_prefixed "-D__MPI_VERSION=" (Cp2k.dflags (Cp2k.locals frag))
  = (if Cp2k.mpi (Cp2k.spec self)
        && (Cp2k.contains "^mpi@3:" (Cp2k.spec self)
            || Cp2k.contains "^mpi@2:" (Cp2k.spec self))
     then 1 else 0).
Proof.
  intros (l0 & l2 & Hbase & Hsmm & ->)%write_makefile_inr.
  cbn [Cp2k.locals].
  rewrite (later_blocks_dflags self environ os_path_isfile _ l2 Hsmm).
  destruct (base_block_count self l0 Hbase) as [Helpa Hversion].
  destruct (Cp2k.mpi (Cp2k.spec self)) eqn:Hmpi.
  - rewrite mpi_block_dflags by done.
    rewrite !count_prefixed_app, Helpa, Hversion. cbn [andb].
    generalize (Cp2k.contains "^mpi@3:" (Cp2k.spec self)),
      (Cp2k.contains "^mpi@2:" (Cp2k.spec self)),
      (ver_upto [4; 999] (Cp2k.version (Cp2k.spec self))),
      (ver_upto [2014; 5; 999]
         (dep_version
            (Cp2k.getitem (Cp2k.spec self) (Cp2k.with_static self "elpa")))),
      (ver_range [2014; 6] [2015; 10; 999]
         (dep_version
            (Cp2k.getitem (Cp2k.spec self) (Cp2k.with_static self "elpa")))),
      (Cp2k.contains "wannier90" (Cp2k.spec self)).
    intros [] [] [] [] [] [];
      destruct (Cp2k.smm (Cp2k.spec self)), (Cp2k.plumed (Cp2k.spec self));
      split; reflexivity.
  - rewrite mpi_block_off by done.
    rewrite !count_prefixed_app, Helpa, Hversion. cbn [andb].
    by destruct (Cp2k.smm (Cp2k.spec self)), (Cp2k.plumed (Cp2k.spec self)).
Qed.

Lemma cp2k_elpa_define_count_witness :
  ∃ frag,
    Cp2k.write_makefile
      (Sample.cp2k Sample.gcc true true Cp2k.libxsmm false
         Sample.no_constraint) ∅ Sample.every_file = inr frag ∧
    count_prefixed "-D__ELPA" (Cp2k.dflags (Cp2k.locals frag)) = 1.
Proof.
  destruct (Cp2k.write_makefile
    (Sample.cp2k Sample.gcc true true Cp2k.libxsmm false
       Sample.no_constraint) ∅ Sample.every_file) as [e|frag] eqn:Hfrag.
  { vm_compute in Hfrag. discriminate Hfrag. }
  exists frag. split; [reflexivity|].
  apply (cp2k_elpa_define_count
    (Sample.cp2k Sample.gcc true true Cp2k.libxsmm false Sample.no_constraint)
    ∅ Sample.every_file frag Hfrag).
Defined.

(** X8: the C and the C++ compile flags of a cp2k fragment are the same
    list, and the C, C++ and Fortran flags all begin with the optimisation
    flags of the compiler, in the order of the mapping. *)
Theorem cp2k_c_cxx_flags_agree {L : Type} `{LibraryList L}
    (self : Cp2k.Package L) (environ : gmap string string)
    (os_path_isfile : string → bool) (frag : Cp2k.Fragment L) :
  Cp2k.write_makefile self environ os_path_isfile = inr frag →
  Cp2k.cflags (Cp2k.locals frag) = Cp2k.cxxflags (Cp2k.locals frag) ∧
  ∃ opt,
    Cp2k.optflags !! cname (Cp2k.compiler (Cp2k.spec self)) = Some opt ∧
    (∃ rest, Cp2k.cflags (Cp2k.locals frag) = opt ++ rest) ∧
    (∃ rest, Cp2k.fcflags (Cp2k.locals frag) = opt ++ rest).
Proof.
  intros (l0 & Hbase & Hc & Hcxx & fs & Hfc)%compile_channels.
  pose proof (base_block_spec self) as Hspec. cbv zeta in Hspec.
  destruct (Cp2k.optflags !! _) as [opt|]; [|congruence].
  destruct Hspec as (l0' & Hbase' & _ & _ & _ & _ & _ & Hc0 & Hcxx0 & Hfc0).
  rewrite Hbase in Hbase'. injection Hbase' as <-.
  rewrite Hc, Hcxx, Hfc, Hc0, Hcxx0, Hfc0. split; [done|].
  exists opt. split; [done|].
  split; eexists; rewrite <- !app_assoc; reflexivity.
Qed.

Lemma cp2k_c_cxx_flags_agree_witness :
  ∃ frag,
    Cp2k.write_makefile
      (Sample.cp2k Sample.intel true false Cp2k.none false
         Sample.no_constraint) ∅ Sample.every_file = inr frag ∧
    Cp2k.cflags (Cp2k.locals frag) = Cp2k.cxxflags (Cp2k.locals frag).
Proof.
  destruct (Cp2k.write_makefile
    (Sample.cp2k Sample.intel true false Cp2k.none false
       Sample.no_constraint) ∅ Sample.every_file) as [e|frag] eqn:Hfrag.
  { vm_compute in Hfrag. discriminate Hfrag. }
  exists frag. split; [reflexivity|].
  apply (cp2k_c_cxx_flags_agree
    (Sample.cp2k Sample.intel true false Cp2k.none false Sample.no_constraint)
    ∅ Sample.every_file frag Hfrag).
Defined.

(** ** The variables and names of the cp2k makefile *)

Lemma prefix_nil (x : string) : String.prefix "" x = true.
Proof. by destruct x. Qed.

Lemma slash_prefix (a r : string) :
  String.prefix "/" (a +:+ "-" +:+ r) = String.prefix "/" a.
Proof.
  destruct a as [|c a]; [reflexivity|].
  change (String.prefix "/" (String c (a +:+ "-" +:+ r))
          = String.prefix "/" (String c a)).
  cbn [String.prefix]. destruct (ascii_dec "/" c); [|done].
  by rewrite !prefix_nil.
Qed.

(** X9: after the include directive a Spec with PLUMED begins with, the
    cp2k makefile is one assignment to each of CC, CPP, AR, FC, LD, DFLAGS,
    CPPFLAGS, CFLAGS, CXXFLAGS, FCFLAGS, LDFLAGS and LIBS, in this order,
    with LDFLAGS_C between LDFLAGS and LIBS exactly for the intel compiler;
    no variable is assigned twice. *)
Theorem cp2k_makefile_keys {L : Type} `{LibraryList L}
    (self : Cp2k.Package L) (environ : gmap string string)
    (os_path_isfile : string → bool) (frag : Cp2k.Fragment L) :
  Cp2k.write_makefile self environ os_path_isfile = inr frag →
  let keys :=
    makefile_keys
      (String.eqb (cname (Cp2k.compiler (Cp2k.spec self))) "intel") in
  NoDup keys ∧
  ∃ values : list (string * bool),
    length values = length keys ∧
    Cp2k.mkf (Cp2k.locals frag)
    = (if Cp2k.plumed (Cp2k.spec self)
       then [Cp2kProps.plumed_include self +:+ nl +:+ nl] else [])
      ++ zip_with (λ k v, render_entry (assignment k v.1, v.2)) keys values.
Proof.
  intros Hfrag keys. split.
  { unfold keys, makefile_keys.
    destruct (String.eqb _ "intel"); apply NoDup_ListNoDup;
      repeat (constructor; [by intros H'; vm_compute in H'; intuition|]);
      constructor. }
  rewrite (mkf_entries self environ os_path_isfile frag Hfrag).
  unfold Cp2kProps.makefile_entries. rewrite fmap_app.
  exists ((λ a, (a.1.2, a.2))
            <$> Cp2kProps.makefile_assignments self (Cp2k.locals frag)).
  unfold keys, makefile_keys, Cp2kProps.makefile_assignments.
  destruct (String.eqb _ "intel"), (Cp2k.plumed _); split; reflexivity.
Qed.

Lemma cp2k_makefile_keys_witness :
  ∃ frag,
    Cp2k.write_makefile
      (Sample.cp2k Sample.intel true true Cp2k.libxsmm true
         Sample.no_constraint) ∅ Sample.every_file = inr frag ∧
    length (Cp2k.mkf (Cp2k.locals frag)) = 14.
Proof.
  destruct (Cp2k.write_makefile
    (Sample.cp2k Sample.intel true true Cp2k.libxsmm true
       Sample.no_constraint) ∅ Sample.every_file) as [e|frag] eqn:Hfrag.
  { vm_compute in Hfrag. discriminate Hfrag. }
  exists frag. split; [reflexivity|].
  destruct (cp2k_makefile_keys
    (Sample.cp2k Sample.intel true true Cp2k.libxsmm true
       Sample.no_constraint) ∅ Sample.every_file frag Hfrag)
    as (_ & values & Hlength & ->).
  rewrite length_app, length_zip_with, Hlength. reflexivity.
Defined.

(** X10: a cp2k fragment names the build kind [popt] with MPI and [sopt]
    without, and the architecture [<architecture>-<compiler>]; unless the
    architecture string begins with a slash, the makefile is
    [arch/<architecture>-<compiler>.<kind>].  The Fortran compiler and the
    linker written to it are one program: the MPI wrapper [mpifc] of the MPI
    provider with MPI, the Fortran compiler of the compiler without. *)
Theorem cp2k_build_kind {L : Type} `{LibraryList L}
    (self : Cp2k.Package L) (environ : gmap string string)
    (os_path_isfile : string → bool) (frag : Cp2k.Fragment L) :
  Cp2k.write_makefile self environ os_path_isfile = inr frag →
  let fortran :=
    if Cp2k.mpi (Cp2k.spec self)
    then dep_mpifc (Cp2k.getitem (Cp2k.spec self) "mpi")
    else py_str (fc (Cp2k.compiler (Cp2k.spec self))) in
  Cp2k.cp2k_version frag
  = (if Cp2k.mpi (Cp2k.spec self) then "popt" else "sopt") ∧
  Cp2k.cp2k_architecture frag
  = Cp2k.architecture (Cp2k.spec self) +:+ "-"
    +:+ cname (Cp2k.compiler (Cp2k.spec self)) ∧
  (startswith (Cp2k.architecture (Cp2k.spec self)) "/" = false →
   Cp2k.makefile frag
   = "arch/" +:+ Cp2k.cp2k_architecture frag +:+ "."
     +:+ Cp2k.cp2k_version frag) ∧
  "FC = " +:+ fortran +:+ nl ∈ Cp2k.mkf (Cp2k.locals frag) ∧
  "LD = " +:+ fortran +:+ nl +:+ nl ∈ Cp2k.mkf (Cp2k.locals frag).
Proof.
  intros (l0 & l2 & Hbase & Hsmm & ->)%write_makefile_inr fortran.
  cbn [Cp2k.cp2k_version Cp2k.cp2k_architecture Cp2k.makefile Cp2k.locals].
  split; [done|]. split; [done|]. split.
  - intros Harch. unfold join_path, path_join2, startswith. cbn [fold_left join].
    rewrite !append_assoc, slash_prefix. unfold startswith in Harch. rewrite Harch.
    reflexivity.
  - destruct (emit_block_spec self (Cp2k.plumed_block self l2))
      as (_ & _ & _ & _ & _ & _ & _ & ->).
    split; eauto 20 with elem.
Qed.

Lemma cp2k_build_kind_witness :
  ∃ frag,
    Cp2k.write_makefile
      (Sample.cp2k Sample.gcc true false Cp2k.none false
         Sample.no_constraint) ∅ Sample.every_file = inr frag ∧
    Cp2k.makefile frag = "arch/linux-ubuntu16.04-x86_64-gcc.sopt".
Proof.
  destruct (Cp2k.write_makefile
    (Sample.cp2k Sample.gcc true false Cp2k.none false
       Sample.no_constraint) ∅ Sample.every_file) as [e|frag] eqn:Hfrag.
  { vm_compute in Hfrag. discriminate Hfrag. }
  exists frag. split; [reflexivity|].
  destruct (cp2k_build_kind
    (Sample.cp2k Sample.gcc true false Cp2k.none false Sample.no_constraint)
    ∅ Sample.every_file frag Hfrag)
    as (Hkind & Harch & Hmakefile & _).
  rewrite Hmakefile by reflexivity. rewrite Harch, Hkind. reflexivity.
Defined.

(** ** The whole of cp2k's install *)

Section Cp2kInstall.
Context {FS : Type} `{Platform FS}.
Implicit Types (w : World FS).

(** What a run of the makefiles stage that returns has done. *)
Lemma makefiles_stage_effects (cp2k_architecture cp2k_version : string)
    w w' :
  Cp2k.makefiles_stage cp2k_architecture cp2k_version w = inr w' →
  let d := path_join2 (cwd w) "makefiles" in
  isdir (fs w) d = true ∧ is_Some (env w !! "PWD") ∧
  run "make" ["ARCH=" +:+ cp2k_architecture; "VERSION=" +:+ cp2k_version]
    (<["PWD" := d]> (env w)) d (fs w) = inr (fs w') ∧
  env w' = env w ∧ cwd w' = path_join2 d (cwd w).
Proof.
  unfold Cp2k.makefiles_stage, working_dir.
  intros (w1 & Hin & (w2 & Hbody & Hout)%bind_inr)%bind_inr.
  apply chdir_inr_iff in Hin as [Hdir ->].
  apply chdir_inr_iff in Hout as [_ ->].
  apply bind_inr in Hbody as (pwd_backup & Hpwd & Hbody).
  apply bind_inr in Hbody as (w3 & Hmake & [= <-]).
  apply call_inr in Hmake as (Hrun & Henv & Hcwd).
  unfold env_getitem in Hpwd. cbn in *.
  destruct (env w !! "PWD") as [v|] eqn:Hv; [|done].
  injection Hpwd as <-.
  split; [done|]. split; [done|]. split; [done|]. split; [|by rewrite Hcwd].
  rewrite Henv, insert_insert_eq. by apply insert_id.
Qed.

End Cp2kInstall.

(** The steps of an [install] of cp2k that returns. *)
Lemma install_inr {L : Type} `{LibraryList L} {FS : Type} `{Platform FS}
    (self : Cp2k.Package L) (w w' : World FS) :
  Cp2k.install self w = inr w' →
  ∃ frag fs0 fs1 fs2 fs3,
    open_write (cwd w) (Cp2k.makefile frag) (fs w) = inr fs0 ∧
    Cp2k.write_makefile self (env w) (isfile fs0) = inr frag ∧
    write_file (cwd w) (Cp2k.makefile frag) (Cp2kProps.makefile_text frag)
      fs0 = inr fs1 ∧
    isdir fs1 (path_join2 (cwd w) "makefiles") = true ∧
    is_Some (env w !! "PWD") ∧
    run "make"
      ["ARCH=" +:+ Cp2k.cp2k_architecture frag;
       "VERSION=" +:+ Cp2k.cp2k_version frag]
      (<["PWD" := path_join2 (cwd w) "makefiles"]> (env w))
      (path_join2 (cwd w) "makefiles") fs1 = inr fs2 ∧
    copytree (cwd w') (join_path "exe" [Cp2k.cp2k_architecture frag])
      (Cp2k.prefix_attr (Cp2k.prefix self) "bin") fs2 = inr fs3 ∧
    copytree (cwd w') "data" (Cp2k.prefix_attr (Cp2k.prefix self) "data")
      fs3 = inr (fs w') ∧
    env w' = env w ∧
    cwd w' = path_join2 (path_join2 (cwd w) "makefiles") (cwd w).
Proof.
  unfold Cp2k.install. cbv zeta.
  intros (w0 & Hopen & (frag & Hfrag & (w1 & Hwrite & (w2 & Hstage
            & (w3 & Hexe & Hdata)%bind_inr)%bind_inr)%bind_inr)%bind_inr)
         %bind_inr.
  unfold open_file in Hopen.
  apply bind_inr in Hopen as (fs0 & Hopen & [= <-]).
  cbn [env cwd fs] in Hfrag, Hwrite.
  pose proof Hfrag as (l0 & l2 & _ & _ & Hnames)%write_makefile_inr.
  unfold write_all in Hwrite.
  apply bind_inr in Hwrite as (fs1 & Hwrite & [= <-]).
  apply makefiles_stage_effects in Hstage
    as (Hdir & Hpwd & Hrun & Henv & Hcwd).
  cbn [env cwd fs] in Hwrite, Hdir, Hpwd, Hrun, Henv, Hcwd.
  unfold copy_tree in Hexe, Hdata.
  apply bind_inr in Hexe as (fs3 & Hexe & [= <-]).
  apply bind_inr in Hdata as (fs4 & Hdata & [= <-]).
  cbn [env cwd fs] in *. exists frag, fs0, fs1, (fs w2), fs3.
  assert (Cp2k.makefile frag
          = join_path "arch"
              [join "." [Cp2k.architecture (Cp2k.spec self) +:+ "-"
                           +:+ cname (Cp2k.compiler (Cp2k.spec self));
                         if Cp2k.contains "~mpi" (Cp2k.spec self)
                         then "sopt" else "popt"]]
          ∧ Cp2k.cp2k_architecture frag
            = Cp2k.architecture (Cp2k.spec self) +:+ "-"
              +:+ cname (Cp2k.compiler (Cp2k.spec self))
          ∧ Cp2k.cp2k_version frag
            = (if Cp2k.contains "~mpi" (Cp2k.spec self)
               then "sopt" else "popt")) as (-> & -> & ->).
  { rewrite Hnames, contains_no_mpi.
    cbn [Cp2k.makefile Cp2k.cp2k_architecture Cp2k.cp2k_version].
    by destruct (Cp2k.mpi (Cp2k.spec self)). }
  repeat split; done.
Qed.

(** X11: an [install] of cp2k that returns has, in this order, opened the
    makefile, built the fragment with [os.path.isfile] looking at the file
    system the makefile is in, written the text of the fragment to the
    makefile, run [make] in [makefiles] with [ARCH] and [VERSION] of the
    fragment and [PWD] set to that directory, copied
    [exe/<architecture>-<compiler>] to the [bin] directory of the prefix and
    [data] to its [data] directory.  The environment is as it was before,
    and so is the working directory when it was an absolute path. *)
Theorem cp2k_install_sequence {L : Type} `{LibraryList L}
    {FS : Type} `{Platform FS} (self : Cp2k.Package L) (w w' : World FS) :
  Cp2k.install self w = inr w' →
  ∃ frag fs0 fs1 fs2 fs3,
    open_write (cwd w) (Cp2k.makefile frag) (fs w) = inr fs0 ∧
    Cp2k.write_makefile self (env w) (isfile fs0) = inr frag ∧
    write_file (cwd w) (Cp2k.makefile frag) (Cp2kProps.makefile_text frag)
      fs0 = inr fs1 ∧
    run "make"
      ["ARCH=" +:+ Cp2k.cp2k_architecture frag;
       "VERSION=" +:+ Cp2k.cp2k_version frag]
      (<["PWD" := path_join2 (cwd w) "makefiles"]> (env w))
      (path_join2 (cwd w) "makefiles") fs1 = inr fs2 ∧
    copytree (cwd w') (join_path "exe" [Cp2k.cp2k_architecture frag])
      (Cp2k.prefix_attr (Cp2k.prefix self) "bin") fs2 = inr fs3 ∧
    copytree (cwd w') "data" (Cp2k.prefix_attr (Cp2k.prefix self) "data")
      fs3 = inr (fs w') ∧
    env w' = env w ∧
    (startswith (cwd w) "/" = true → cwd w' = cwd w).
Proof.
  intros (frag & fs0 & fs1 & fs2 & fs3 & Hopen & Hfrag & Hwrite & _ & _
          & Hrun & Hexe & Hdata & Henv & Hcwd)%install_inr.
  exists frag, fs0, fs1, fs2, fs3. repeat split; try done.
  intros Habs. rewrite Hcwd. by apply path_join2_absolute.
Qed.

Lemma cp2k_install_sequence_witness :
  ∃ w' : World unit,
    Cp2k.install
      (Sample.cp2k Sample.gcc true true Cp2k.libxsmm false
         Sample.no_constraint) Sample.stage_world = inr w' ∧
    env w' = env Sample.stage_world ∧ cwd w' = cwd Sample.stage_world.
Proof.
  destruct (Cp2k.install
    (Sample.cp2k Sample.gcc true true Cp2k.libxsmm false
       Sample.no_constraint) Sample.stage_world) as [e|w'] eqn:Hinstall.
  { vm_compute in Hinstall. discriminate Hinstall. }
  exists w'. split; [reflexivity|].
  destruct (cp2k_install_sequence
    (Sample.cp2k Sample.gcc true true Cp2k.libxsmm false Sample.no_constraint)
    Sample.stage_world w' Hinstall)
    as (frag & fs0 & fs1 & fs2 & fs3 & _ & _ & _ & _ & _ & _ & Henv & Hcwd).
  split; [exact Henv|]. apply Hcwd. reflexivity.
Defined.

(** X12: what an [install] of cp2k that returns had to find: a compiler
    among the keys of the optimisation flags, [PWD] in the environment, the
    directory [makefiles] once the makefile is written, and for
    [smm=libsmm] a [LIBSMM_PATH] that names a file of the file system as it
    is once the makefile is opened.  Where one of them is missing,
    [install] does not return: it raises. *)
Theorem cp2k_install_requires {L : Type} `{LibraryList L}
    {FS : Type} `{Platform FS} (self : Cp2k.Package L) (w w' : World FS) :
  Cp2k.install self w = inr w' →
  cname (Cp2k.compiler (Cp2k.spec self)) ∈ dom Cp2k.optflags ∧
  is_Some (env w !! "PWD") ∧
  ∃ frag fs0 fs1,
    open_write (cwd w) (Cp2k.makefile frag) (fs w) = inr fs0 ∧
    Cp2k.write_makefile self (env w) (isfile fs0) = inr frag ∧
    write_file (cwd w) (Cp2k.makefile frag) (Cp2kProps.makefile_text frag)
      fs0 = inr fs1 ∧
    isdir fs1 (path_join2 (cwd w) "makefiles") = true ∧
    (Cp2k.smm (Cp2k.spec self) = Cp2k.libsmm →
     ∃ p, env w !! "LIBSMM_PATH" = Some p ∧ isfile fs0 p = true).
Proof.
  intros (frag & fs0 & fs1 & fs2 & fs3 & Hopen & Hfrag & Hwrite & Hdir
          & Hpwd & _)%install_inr.
  pose proof (write_makefile_cases self (env w) (isfile fs0)) as Hcases.
  cbv zeta in Hcases.
  destruct (Cp2k.optflags !! cname (Cp2k.compiler (Cp2k.spec self)))
    as [opt|] eqn:Hopt; [|congruence].
  split; [apply elem_of_dom; eauto|]. split; [done|].
  exists frag, fs0, fs1. repeat split; try done.
  intros Hsmm. destruct Hcases as (l0 & _ & Hcases).
  rewrite smm_block_spec, Hsmm in Hcases.
  destruct (env w !! "LIBSMM_PATH") as [p|];
    [|destruct Hcases; congruence].
  exists p. split; [done|].
  destruct (isfile fs0 p); [done|destruct Hcases; congruence].
Qed.

Lemma cp2k_install_requires_witness :
  cname (Cp2k.compiler
           (Cp2k.spec
              (Sample.cp2k Sample.gcc true true Cp2k.libsmm false
                 Sample.no_constraint))) ∈ dom Cp2k.optflags ∧
  is_Some (env SampleMore.libsmm_world !! "PWD").
Proof.
  destruct (Cp2k.install
    (Sample.cp2k Sample.gcc true true Cp2k.libsmm false
       Sample.no_constraint) SampleMore.libsmm_world) as [e|w'] eqn:Hinstall.
  { vm_compute in Hinstall. discriminate Hinstall. }
  destruct (cp2k_install_requires
    (Sample.cp2k Sample.gcc true true Cp2k.libsmm false Sample.no_constraint)
    SampleMore.libsmm_world w' Hinstall) as (Hcompiler & Hpwd & _).
  split; [exact Hcompiler|exact Hpwd].
Defined.

(** ** Colons in a dependency query *)

Lemma count_char_app (c : ascii) (a b : string) :
  count_char c (a +:+ b) = count_char c a + count_char c b.
Proof.
  induction a as [|x a IH]; [done|]. simpl. rewrite IH. lia.
Qed.

Lemma str_in_colon_false (q : string) :
  str_in ":" q = false → count_char ":" q = 0.
Proof.
  induction q as [|c q IH]; [done|]. rewrite str_in_cons.
  intros [Hprefix Hq]%orb_false_iff. simpl.
  rewrite (IH Hq). cbn [String.prefix] in Hprefix.
  destruct (Ascii.eqb_spec c ":") as [->|Hc]; [|done].
  by rewrite prefix_nil in Hprefix.
Qed.

(** X13: [with_static] only appends to the query, and it adds a colon
    exactly when the Spec has the static variant and the query has no colon
    yet.  So a query with at most one colon keeps at most one, also when
    [with_static] is applied to its own result. *)
Theorem with_static_colons {L : Type} (self : Cp2k.Package L)
    (query : string) :
  (∃ suffix, Cp2k.with_static self query = query +:+ suffix) ∧
  count_char ":" (Cp2k.with_static self query)
  = (if Cp2k.static (Cp2k.spec self) && negb (str_in ":" query)
     then S (count_char ":" query) else count_char ":" query) ∧
  (count_char ":" query ≤ 1 →
   count_char ":" (Cp2k.with_static self query) ≤ 1 ∧
   count_char ":" (Cp2k.with_static self (Cp2k.with_static self query)) ≤ 1).
Proof.
  assert (∀ q, count_char ":" (Cp2k.with_static self q)
               = (if Cp2k.static (Cp2k.spec self) && negb (str_in ":" q)
                  then S (count_char ":" q) else count_char ":" q))
    as Hcount.
  { intros q. rewrite with_static_unfold.
    destruct (Cp2k.static (Cp2k.spec self)); [|done].
    destruct (str_in ":" q); cbn [andb negb];
      rewrite count_char_app; simpl; lia. }
  assert (∀ q, count_char ":" q ≤ 1 →
               count_char ":" (Cp2k.with_static self q) ≤ 1) as Hkeep.
  { intros q Hq. rewrite Hcount.
    destruct (Cp2k.static (Cp2k.spec self)); [|done].
    destruct (str_in ":" q) eqn:Hin; [done|]. cbn [andb negb].
    rewrite (str_in_colon_false q Hin). lia. }
  split; [|split; [apply Hcount|]].
  - rewrite with_static_unfold.
    destruct (Cp2k.static (Cp2k.spec self)); [|exists ""].
    + destruct (str_in ":" query); eauto.
    + induction query as [|c q IH]; [done|]. simpl. by rewrite <- IH.
  - intros Hq. split; [by apply Hkeep|]. by apply Hkeep, Hkeep.
Qed.

Lemma with_static_colons_witness :
  count_char ":"
    (Cp2k.with_static
       (Sample.cp2k Sample.gcc true true Cp2k.libxsmm false
          Sample.no_constraint)
       (Cp2k.with_static
          (Sample.cp2k Sample.gcc true true Cp2k.libxsmm false
             Sample.no_constraint) "fftw")) ≤ 1.
Proof.
  apply (with_static_colons
           (Sample.cp2k Sample.gcc true true Cp2k.libxsmm false
              Sample.no_constraint) "fftw").
  vm_compute. lia.
Defined.

(** ** vasp again *)

(** X14: the environment requests of vasp are idempotent: making them
    twice leaves the build environment as making them once, whatever was
    requested before and whatever the process environment is. *)
Theorem vasp_setup_idempotent (self : Vasp.Package)
    (spack_env run_env : Vasp.EnvironmentModifications)
    (environ : gmap string string) :
  let once := Vasp.setup_environment self spack_env run_env in
  let twice := Vasp.setup_environment self once.1 once.2 in
  Vasp.apply_modifications twice.1 environ
  = Vasp.apply_modifications once.1 environ ∧
  twice.2 = run_env.
Proof.
  unfold Vasp.setup_environment, Vasp.env_set, Vasp.apply_modifications.
  cbn [fst snd]. split; [|done].
  rewrite !fold_left_app. cbn [fold_left Vasp.apply_mod].
  rewrite (insert_insert_ne _ "CRAYPE_LINK_TYPE" "INSTALL_DIR") by done.
  by rewrite !insert_insert_eq.
Qed.
